(** * VidDet: a shallow embedding of the YouTube-BB loader, the YOLOv3
    detector's mode logic and the train / detect drivers.

  Part I embeds the code; Part II states and proves its properties.

  Number model.  Python and numpy floats are embedded as rationals [Q]
  wherever the code only compares, clamps, selects or divides them
  (those operations do not depend on rounding in the properties below).
  Where the result hinges on binary64 itself the code is embedded over
  [PrimFloat.float]: [_pad_to_dense] (rounding; stated over an arbitrary
  number type and instantiated both with binary64 and with exact
  integers), [iou] (overflow; [iou_f64] beside the rational [iou]) and
  the best map of [save_params] (comparisons with a nan). *)

From Stdlib Require Import ZArith QArith Qminmax Floats Lia Lqa.
From stdpp Require Import gmap strings list sorting.

Local Open Scope Z_scope.

(* ===================================================================== *)
(** * Part I.  The embedding                                              *)
(* ===================================================================== *)

(** ** Python runtime: exceptions, results, ranges, indexing *)

Module Py.

(** The exceptions the embedded code can raise.  [AssertionError] carries
    the static part of the assertion message (empty for a bare assert). *)
Inductive exn : Type :=
| AssertionError (msg : string)
| TypeError
| ValueError
| IndexError
| KeyError
| NotImplementedError
| MXNetError.

Inductive result (A : Type) : Type :=
| Ok (a : A)
| Raise (e : exn).
Arguments Ok {A} a.
Arguments Raise {A} e.

Definition bind {A B} (r : result A) (k : A -> result B) : result B :=
  match r with
  | Ok a => k a
  | Raise e => Raise e
  end.

Definition is_assertion (e : exn) : bool :=
  match e with AssertionError _ => true | _ => false end.

(** [for x in l: ys.append(f x)] where [f] may raise. *)
Fixpoint mapM {A B} (f : A -> result B) (l : list A) : result (list B) :=
  match l with
  | [] => Ok []
  | a :: l' =>
      bind (f a) (fun b => bind (mapM f l') (fun bs => Ok (b :: bs)))
  end.

(** Number of elements of [range(start, stop, step)] for [step <> 0]. *)
Definition range_len (start stop step : Z) : Z :=
  if 0 <? step then Z.max 0 ((stop - start + step - 1) / step)
  else Z.max 0 ((start - stop - step - 1) / (- step)).

(** [range(start, stop, step)]; a zero step raises [ValueError]. *)
Definition range (start stop step : Z) : result (list Z) :=
  if step =? 0 then Raise ValueError
  else Ok (map (fun k : nat => start + Z.of_nat k * step)
               (seq 0 (Z.to_nat (range_len start stop step)))).

(** [l[i]] on a Python list: negative indices count from the end. *)
Definition index {A} (l : list A) (i : Z) : result A :=
  let n := Z.of_nat (length l) in
  let j := if i <? 0 then i + n else i in
  if (0 <=? j) && (j <? n) then
    match l !! Z.to_nat j with
    | Some a => Ok a
    | None => Raise IndexError
    end
  else Raise IndexError.

(** Builtin [max(a, b)] and [min(a, b)]: the first argument wins ties. *)
Definition Qltb (a b : Q) : bool := negb (Qle_bool b a).
Definition max (a b : Q) : Q := if Qltb a b then b else a.
Definition min (a b : Q) : Q := if Qltb b a then b else a.

End Py.

Notation "'let*' x ':=' r 'in' k" := (Py.bind r (fun x => k))
(at level 10, x name, r at level 100, k at level 200).

(** ** datasets/youtubebb.py *)

Module YouTubeBB.
Import Py.

(** *** [iou(bb, bbgt)]: boxes are array rows read at indices 0..3. *)
Record box : Type := Box { b0 : Q; b1 : Q; b2 : Q; b3 : Q }.

Definition iw (bb bbgt : box) : Q :=
  (min (b2 bb) (b2 bbgt) - max (b0 bb) (b0 bbgt) + 1)%Q.
Definition ih (bb bbgt : box) : Q :=
  (min (b3 bb) (b3 bbgt) - max (b1 bb) (b1 bbgt) + 1)%Q.

Definition iou (bb bbgt : box) : Q :=
  let ov := 0%Q in
  let iw := iw bb bbgt in
  let ih := ih bb bbgt in
  if Qltb 0 iw && Qltb 0 ih then
    let intersect := (iw * ih)%Q in
    let ua := ((b2 bb - b0 bb + 1) * (b3 bb - b1 bb + 1)
               + (b2 bbgt - b0 bbgt + 1) * (b3 bbgt - b1 bbgt + 1)
               - intersect)%Q in
    (intersect / ua)%Q
  else ov.

(** The same function on numpy's float64 scalars, the entries of the label
    rows that [generate_motion_ious] hands to it.  [np.min((x, y))] and
    [np.max((x, y))] reduce the two entries with [np.minimum] and
    [np.maximum], which hand on a nan; the integers [1] and [0] are
    converted to floats by the arithmetic and the comparisons. *)
Record fbox : Type := FBox { f0 : float; f1 : float; f2 : float; f3 : float }.

Definition np_min2 (x y : float) : float :=
  if (x <=? y)%float || PrimFloat.is_nan x then x else y.
Definition np_max2 (x y : float) : float :=
  if (y <=? x)%float || PrimFloat.is_nan x then x else y.

Definition iou_f64 (bb bbgt : fbox) : float :=
  let ov := 0%float in
  let iw := (np_min2 (f2 bb) (f2 bbgt) - np_max2 (f0 bb) (f0 bbgt) + 1)%float in
  let ih := (np_min2 (f3 bb) (f3 bbgt) - np_max2 (f1 bb) (f1 bbgt) + 1)%float in
  if (0 <? iw)%float && (0 <? ih)%float then
    let intersect := (iw * ih)%float in
    let ua := ((f2 bb - f0 bb + 1) * (f3 bb - f1 bb + 1)
               + (f2 bbgt - f0 bbgt + 1) * (f3 bbgt - f1 bbgt + 1)
               - intersect)%float in
    (intersect / ua)%float
  else ov.

(** *** [_validate_label] *)

(** [0 <= v < 1] and [lo < v <= 1] as Python's chained comparisons. *)
Definition in_low (v : Q) : bool := Qle_bool 0 v && Qltb v 1.
Definition in_high (lo v : Q) : bool := Qltb lo v && Qle_bool v 1.

Definition clamp_box (xmin ymin xmax ymax : Q) : Q * Q * Q * Q :=
  let xmin := min (max 0 xmin) 1 in
  let ymin := min (max 0 ymin) 1 in
  let xmax := min (max (xmin + 1) xmax) 1 in
  let ymax := min (max (ymin + 1) ymax) 1 in
  (xmin, ymin, xmax, ymax).

Definition _validate_label (xmin ymin xmax ymax : Q) (sample_id : string)
  : result (Q * Q * Q * Q) :=
  let '(xmin, ymin, xmax, ymax) :=
    if negb (in_low xmin) || negb (in_low ymin)
       || negb (in_high xmin xmax) || negb (in_high ymin ymax)
    then clamp_box xmin ymin xmax ymax
    else (xmin, ymin, xmax, ymax) in
  if negb (in_low xmin) then Raise (AssertionError "xmin must in [0, 1)")
  else if negb (in_low ymin) then Raise (AssertionError "ymin must in [0, 1)")
  else if negb (in_high xmin xmax)
       then Raise (AssertionError "xmax must in (xmin, 1]")
  else if negb (in_high ymin ymax)
       then Raise (AssertionError "ymax must in (ymin, 1]")
  else Ok (xmin, ymin, xmax, ymax).

(** *** [_load_label]

    An annotation object is the csv row [id[2:]] after [int()] / [float()]
    conversion of the fields the loader reads: class id (0), track id (2),
    presence (3), xmin (4), xmax (5), ymin (6), ymax (7). *)
Record obj : Type := Obj {
  o_cls : Z; o_trk : Z; o_presence : string;
  o_xmin : Q; o_xmax : Q; o_ymin : Q; o_ymax : Q }.

Definition absent_row : list Q :=
  [inject_Z (-1); inject_Z (-1); inject_Z (-1);
   inject_Z (-1); inject_Z (-1); inject_Z (-1)].

(** The body of [for obj in sample], threading the [label] list.
    [continue] leaves [label] unchanged. *)
Definition load_obj (class_ids : list Z) (index_map : gmap Z Z)
    (sample_id : string) (label : list (list Q)) (o : obj)
  : result (list (list Q)) :=
  let cls_id := o_cls o in
  if negb (bool_decide (cls_id ∈ class_ids)) then Ok label
  else
    match index_map !! cls_id with
    | None => Raise KeyError
    | Some cls_id =>
        let trk_id := o_trk o in
        let xmin := o_xmin o in
        let ymin := o_ymin o in
        let xmax := o_xmax o in
        let ymax := o_ymax o in
        if String.eqb (o_presence o) "absent"
           || Qltb xmin 0 || Qltb xmax 0 || Qltb ymin 0 || Qltb ymax 0
        then Ok label
        else
          match _validate_label xmin ymin xmax ymax sample_id with
          | Raise (AssertionError _) => Ok label
          | Raise e => Raise e
          | Ok (xmin, ymin, xmax, ymax) =>
              Ok (label ++ [[xmin; ymin; xmax; ymax;
                             inject_Z cls_id; inject_Z trk_id]])
          end
    end.

Fixpoint load_objs (class_ids : list Z) (index_map : gmap Z Z)
    (sample_id : string) (label : list (list Q)) (sample : list obj)
  : result (list (list Q)) :=
  match sample with
  | [] => Ok label
  | o :: rest =>
      let* label' := load_obj class_ids index_map sample_id label o in
      load_objs class_ids index_map sample_id label' rest
  end.

Definition _load_label (class_ids : list Z) (index_map : gmap Z Z)
    (allow_empty : bool) (sample_id : string) (sample : list obj)
  : result (list (list Q)) :=
  let* label := load_objs class_ids index_map sample_id [] sample in
  if allow_empty && (length label <? 1)%nat
  then Ok (label ++ [absent_row])
  else Ok label.

(** *** [_pad_to_dense]

    [x = -np.ones((maxlen, 6))], then [x[enu, :] += row + 1] for every
    row.  The arithmetic is kept abstract in the element type: [add],
    [one] and [neg] are numpy's addition, the constant [1] and negation. *)
Section PadToDense.
Context {num : Type} (add : num -> num -> num) (one : num)
        (neg : num -> num).

(** [xrow += row + 1] with numpy broadcasting: [row] must have the
    width of [xrow], or width one. *)
Definition iadd_row (xrow row : list num) : result (list num) :=
  let rhs := map (fun v => add v one) row in
  if bool_decide (length rhs = length xrow)
  then Ok (zip_with add xrow rhs)
  else match rhs with
       | [r] => Ok (map (fun xv => add xv r) xrow)
       | _ => Raise ValueError
       end.

Fixpoint pad_rows (x : list (list num)) (enu : nat)
    (labels : list (list num)) : result (list (list num)) :=
  match labels with
  | [] => Ok x
  | row :: rest =>
      match x !! enu with
      | None => Raise IndexError
      | Some xrow =>
          let* xrow' := iadd_row xrow row in
          pad_rows (<[enu := xrow']> x) (S enu) rest
      end
  end.

Definition _pad_to_dense (labels : list (list num)) (maxlen : nat)
  : result (list (list num)) :=
  let x := replicate maxlen (replicate 6 (neg one)) in
  pad_rows x 0 labels.
End PadToDense.

(** numpy's float64 instance, and the exact integer one. *)
Definition _pad_to_dense_f64 :=
  @_pad_to_dense float PrimFloat.add 1%float PrimFloat.opp.
Definition _pad_to_dense_Z := @_pad_to_dense Z Z.add 1 Z.opp.

(** *** [_load_items], after the annotation rows are grouped per video

    [videos] is the dict built from the csv (and thinned by [frames]):
    video id to a dict from frame id to annotation rows.  The outer dict
    is kept in insertion order; the inner one is only read through
    [sorted(keys())] and through key-wise copies, so a [gmap] carries it. *)
Definition str_le (s1 s2 : string) : Prop := String.leb s1 s2 = true.
#[global] Instance str_le_dec : RelDecision str_le :=
  fun s1 s2 => decide (String.leb s1 s2 = true).

Definition sorted_keys {V} (m : gmap string V) : list string :=
  merge_sort str_le (map fst (map_to_list m)).

Definition sample_key (vid_id frame_id : string) : string :=
  String.append vid_id (String.append "," frame_id).

Definition frame_ids {V} (vid_id : string) (m : gmap string V)
  : list string :=
  map (sample_key vid_id) (sorted_keys m).

(** The forward loop, with its [break] once the window is full. *)
Fixpoint forward_loop (fids : list string) (i window_size : Z)
    (forw : list Z) (window : list string) : result (list string) :=
  match forw with
  | [] => Ok window
  | forw_i :: rest =>
      if Z.of_nat (length window) =? window_size then Ok window
      else
        let* f := index fids
                    (Z.min (Z.of_nat (length fids) - 1) (i + forw_i)) in
        forward_loop fids i window_size rest (window ++ [f])
  end.

(** The window of the frame at position [i] of [fids]. *)
Definition make_window (fids : list string) (i _window_size _window_step : Z)
  : result (list string) :=
  let window_size := Z.quot _window_size 2 in
  let* back := range (window_size * _window_step) (_window_step - 1)
                     (- _window_step) in
  let* window := mapM (fun back_i => index fids (Z.max 0 (i - back_i)))
                      back in
  let* cur := index fids i in
  let window := window ++ [cur] in
  let* forw := range _window_step (window_size * _window_step + 1)
                     _window_step in
  forward_loop fids i _window_size forw window.

Fixpoint video_windows (fids : list string) (ws step : Z) (idxs : list Z)
    (windows : gmap string (list string))
  : result (gmap string (list string)) :=
  match idxs with
  | [] => Ok windows
  | i :: rest =>
      let* window := make_window fids i ws step in
      let* key := index fids i in
      video_windows fids ws step rest (<[key := window]> windows)
  end.

Fixpoint all_windows {V} (videos : list (string * gmap string V))
    (ws step : Z) (windows : gmap string (list string))
  : result (gmap string (list string)) :=
  match videos with
  | [] => Ok windows
  | (vid_id, m) :: rest =>
      let fids := frame_ids vid_id m in
      let* idxs := range 0 (Z.of_nat (length fids)) 1 in
      let* windows' := video_windows fids ws step idxs windows in
      all_windows rest ws step windows'
  end.

(** [frames[vid_id+','+frame_id] = videos[vid_id][frame_id]]. *)
Definition add_frames {V} (frames : gmap string V)
    (v : string * gmap string V) : gmap string V :=
  fold_left (fun fr kv => <[sample_key v.1 kv.1 := kv.2]> fr)
            (map_to_list v.2) frames.

Definition all_frames {V} (videos : list (string * gmap string V))
  : gmap string V :=
  fold_left add_frames videos ∅.

(** What [_load_items] leaves behind: its return value and [_windows]. *)
Inductive items (V : Type) : Type :=
| Videos (videos : list (string * gmap string V))
| Frames (_windows : option (gmap string (list string)))
         (frames : gmap string V).
Arguments Videos {V} videos.
Arguments Frames {V} _windows frames.

Definition _load_items {V} (_videos : bool) (_window_size _window_step : Z)
    (videos : list (string * gmap string V)) : result (items V) :=
  if _videos then Ok (Videos videos)
  else
    let* _windows :=
      (if 1 <? _window_size
       then let* w := all_windows videos _window_size _window_step ∅ in
            Ok (Some w)
       else Ok None) in
    Ok (Frames _windows (all_frames videos)).

End YouTubeBB.

(** ** models/definitions/yolo/yolo3.py *)

Module Yolo3.
Import Py.

(** A detection tensor of shape (B, N, W): per image, a list of rows. *)
Definition dets : Type := list (list (list Q)).

(** *** MXNet and numpy operators used on concrete arrays *)

(** [slice_axis] along one axis of size [length l]: negative bounds count
    from the end, an [end] past the axis or a [begin] not below [end] is an
    error, an empty axis stays empty. *)
Definition slice_list {A} (l : list A) (begin : Z) (end_ : option Z)
  : result (list A) :=
  let axis_size := Z.of_nat (length l) in
  let b := if begin <? 0 then begin + axis_size else begin in
  if 0 <? axis_size then
    let e := match end_ with
             | None => axis_size
             | Some e => if e <? 0 then e + axis_size else e
             end in
    if (0 <=? b) && (e <=? axis_size) && (b <? e)
    then Ok (take (Z.to_nat (e - b)) (drop (Z.to_nat b) l))
    else Raise MXNetError
  else Ok [].

(** [t.slice_axis(axis=1, ...)] and [t.slice_axis(axis=-1, ...)]. *)
Definition slice_axis1 (t : dets) (begin : Z) (end_ : option Z)
  : result dets :=
  mapM (fun img => slice_list img begin end_) t.

Definition slice_axis_last (t : dets) (begin : Z) (end_ : option Z)
  : result dets :=
  mapM (mapM (fun row => slice_list row begin end_)) t.

(** An elementwise numpy operator on 1-d arrays, with broadcasting. *)
Definition np_binop {A B C} (f : A -> B -> C) (a : list A) (b : list B)
  : result (list C) :=
  if bool_decide (length a = length b) then Ok (zip_with f a b)
  else match a, b with
       | [x], _ => Ok (map (f x) b)
       | _, [y] => Ok (map (fun x => f x y) a)
       | _, _ => Raise ValueError
       end.

Definition np_max (l : list Q) : result Q :=
  match l with
  | [] => Raise ValueError
  | x :: l' => Ok (fold_left Py.max l' x)
  end.

(** [np.argmax]: the first index holding the maximum. *)
Fixpoint argmax_from (best_i : nat) (best : Q) (i : nat) (l : list Q) : nat :=
  match l with
  | [] => best_i
  | x :: l' =>
      if Qltb best x then argmax_from i x (S i) l'
      else argmax_from best_i best (S i) l'
  end.

Definition np_argmax (l : list Q) : result nat :=
  match l with
  | [] => Raise ValueError
  | x :: l' => Ok (argmax_from 0 x 1 l')
  end.

(** Builtin [max] over a sequence of integers. *)
Definition max_int (l : list Z) : result Z :=
  match l with
  | [] => Raise ValueError
  | x :: l' => Ok (fold_left Z.max l' x)
  end.

(** *** [YOLOOutputV3] *)

Record autograd : Type := {
  is_training : bool;
  is_recording : bool }.

(** What lines 151-177 of [hybrid_forward] compute from the feature map:
    the raw prediction slices (opaque tensors), and, per image and per
    box, the corner box, the objectness confidence and the class scores. *)
Record preds (tensor : Type) : Type := {
  bbox : dets;
  raw_box_centers : tensor;
  raw_box_scales : tensor;
  objness : tensor;
  class_pred : tensor;
  anchors : tensor;
  offsets : tensor;
  confidence : list (list Q);
  class_score : list (list (list Q)) }.
Arguments bbox {tensor} _.
Arguments raw_box_centers {tensor} _.
Arguments raw_box_scales {tensor} _.
Arguments objness {tensor} _.
Arguments class_pred {tensor} _.
Arguments anchors {tensor} _.
Arguments offsets {tensor} _.
Arguments confidence {tensor} _.
Arguments class_score {tensor} _.

Record YOLOOutputV3 (tensor : Type) : Type := {
  _classes : nat;
  _agnostic : bool;
  _hier_info : option (list Z * list Z);
  prediction : tensor -> preds tensor }.
Arguments _classes {tensor} _.
Arguments _agnostic {tensor} _.
Arguments _hier_info {tensor} _.
Arguments prediction {tensor} _.

Inductive output (tensor : Type) : Type :=
| OutTrain (bbox : dets)
           (raw_box_centers raw_box_scales objness class_pred
              anchors offsets : tensor)
| OutDets (detections : dets)
| OutPair (detections detections_masked : dets).
Arguments OutTrain {tensor} _ _ _ _ _ _ _.
Arguments OutDets {tensor} _.
Arguments OutPair {tensor} _ _.

(** Rows [cid, score, box] of one image, class-major as the transpose and
    reshape to (B, -1, 6) lay them out. *)
Definition class_rows (classes : nat) (bboxes : list (list Q))
    (scores : list (list Q)) : list (list Q) :=
  flat_map
    (fun c : nat =>
       zip_with (fun bb sc =>
                   [inject_Z (Z.of_nat c); default 0%Q (sc !! c)] ++ bb)
                bboxes scores)
    (seq 0 classes).

Definition class_detections (classes : nat) (bbox : dets)
    (class_score : list (list (list Q))) : dets :=
  zip_with (class_rows classes) bbox class_score.

Definition agnostic_detections (bbox : dets) (confidence : list (list Q))
  : dets :=
  zip_with (zip_with (fun bb cf => [0%Q; cf] ++ bb)) bbox confidence.

Definition thresh : Q := 3 # 10.

(** [mask * box_scores] at one hierarchy level. *)
Definition level_scores (levels leafs : list Z) (box_scores : list Q)
    (level : Z) : result (list Q) :=
  let* leaf_mask :=
    np_binop Z.mul (map (fun l => if l <? level then 1 else 0) levels) leafs in
  let level_mask := map (fun l => if l =? level then 1 else 0) levels in
  let* mask := np_binop Z.max leaf_mask level_mask in
  np_binop (fun m s => (inject_Z m * s)%Q) mask box_scores.

(** The [for level in range(int(max(levels)), 0, -1)] loop with its
    [break]: the index to keep, if some level passes the threshold. *)
Fixpoint scan_levels (levels leafs : list Z) (box_scores : list Q)
    (lvls : list Z) : result (option nat) :=
  match lvls with
  | [] => Ok None
  | level :: rest =>
      let* masked_scores := level_scores levels leafs box_scores level in
      let* max_score := np_max masked_scores in
      if Qltb thresh max_score then
        let* ind := np_argmax masked_scores in Ok (Some ind)
      else scan_levels levels leafs box_scores rest
  end.

(** One iteration of [for b in range(scores_flt.shape[0])]: the masked
    score row of one box. *)
Definition mask_box (levels leafs : list Z) (box_scores : list Q)
  : result (list Q) :=
  let zeros := replicate (length box_scores) 0%Q in
  let* top := max_int levels in
  let* lvls := range top 0 (-1) in
  let* hit := scan_levels levels leafs box_scores lvls in
  let* mx_mask :=
    match hit with
    | None => Ok zeros
    | Some ind =>
        if (ind <? length box_scores)%nat then Ok (<[ind := 1%Q]> zeros)
        else Raise IndexError
    end in
  Ok (zip_with Qmult mx_mask box_scores).

(** [YOLOOutputV3.hybrid_forward], from the components on. *)
Definition YOLOOutputV3_hybrid_forward {tensor} (self : YOLOOutputV3 tensor)
    (ag : autograd) (x : tensor) : result (output tensor) :=
  let p := prediction self x in
  if is_training ag then
    Ok (OutTrain (bbox p) (raw_box_centers p) (raw_box_scales p)
                 (objness p) (class_pred p) (anchors p) (offsets p))
  else if _agnostic self then
    Ok (OutDets (agnostic_detections (bbox p) (confidence p)))
  else
    let detections := class_detections (_classes self) (bbox p)
                                       (class_score p) in
    match _hier_info self with
    | Some (levels, leafs) =>
        let* class_score_masked :=
          mapM (mapM (mask_box levels leafs)) (class_score p) in
        let detections_masked :=
          class_detections (_classes self) (bbox p) class_score_masked in
        Ok (OutPair detections detections_masked)
    | None => Ok (OutDets detections)
    end.

(** *** [YOLOV3] *)

(** The MXNet operators of the forward pass that stay opaque. *)
Record mx (tensor : Type) : Type := {
  (** [F.concat( *ts, dim=1)] on feature tensors and on detections *)
  concat : list tensor -> tensor;
  concat_dets : list dets -> dets;
  (** [t.reshape((0, -3, -1))] *)
  flatten : tensor -> tensor;
  (** [F.zeros_like(tip.slice_axis(0, 0, 1).slice_axis(1, 0, 1))] *)
  fake_featmap : tensor -> tensor;
  (** [F.concat(F.slice_like(_upsample(x, 2), route * 0, (2, 3)), route,
      dim=1)] *)
  upsample_concat : tensor -> tensor -> tensor;
  (** [F.contrib.box_nms(result, overlap_thresh, valid_thresh, topk, ...)] *)
  box_nms : Q -> Q -> Z -> dets -> dets }.
Arguments concat {tensor} _ _.
Arguments concat_dets {tensor} _ _.
Arguments flatten {tensor} _ _.
Arguments fake_featmap {tensor} _ _.
Arguments upsample_concat {tensor} _ _ _.
Arguments box_nms {tensor} _ _ _ _ _.

(** The attributes of a [YOLOV3] block that the forward pass reads.  The
    output layers are stored by their prediction heads: [__init__] builds
    each [YOLOOutputV3] without [hier_info]. *)
Record YOLOV3 (tensor : Type) : Type := {
  nms_thresh : Q;
  nms_topk : Z;
  post_nms : Z;
  agnostic : bool;
  num_classes : nat;
  stages : list (tensor -> tensor);
  yolo_blocks : list (tensor -> tensor * tensor);
  yolo_heads : list (tensor -> preds tensor);
  transitions : list (tensor -> tensor);
  _target_generator : dets -> list tensor -> list tensor;
  _loss : list tensor -> tensor * tensor * tensor * tensor }.
Arguments nms_thresh {tensor} _.
Arguments nms_topk {tensor} _.
Arguments post_nms {tensor} _.
Arguments agnostic {tensor} _.
Arguments num_classes {tensor} _.
Arguments stages {tensor} _.
Arguments yolo_blocks {tensor} _.
Arguments yolo_heads {tensor} _.
Arguments transitions {tensor} _.
Arguments _target_generator {tensor} _ _ _.
Arguments _loss {tensor} _ _.

Definition yolo_outputs {tensor} (self : YOLOV3 tensor)
  : list (YOLOOutputV3 tensor) :=
  map (fun head => {| _classes := num_classes self;
                      _agnostic := agnostic self;
                      _hier_info := None;
                      prediction := head |})
      (yolo_heads self).

(** The lists that [hybrid_forward] appends to. *)
Record acc (tensor : Type) : Type := {
  all_box_centers : list tensor;
  all_box_scales : list tensor;
  all_objectness : list tensor;
  all_class_pred : list tensor;
  all_anchors : list tensor;
  all_offsets : list tensor;
  all_feat_maps : list tensor;
  all_detections : list dets }.
Arguments all_box_centers {tensor} _.
Arguments all_box_scales {tensor} _.
Arguments all_objectness {tensor} _.
Arguments all_class_pred {tensor} _.
Arguments all_anchors {tensor} _.
Arguments all_offsets {tensor} _.
Arguments all_feat_maps {tensor} _.
Arguments all_detections {tensor} _.

Definition acc_empty {tensor} : acc tensor :=
  {| all_box_centers := []; all_box_scales := []; all_objectness := [];
     all_class_pred := []; all_anchors := []; all_offsets := [];
     all_feat_maps := []; all_detections := [] |}.

Inductive forward_result (tensor : Type) : Type :=
| Losses (losses : tensor * tensor * tensor * tensor)
| RawPredictions (detections : dets)
                 (anchors offsets feat_maps : list tensor)
                 (box_centers box_scales objectness class_pred : tensor)
| Detections (ids scores bboxes : dets).
Arguments Losses {tensor} _.
Arguments RawPredictions {tensor} _ _ _ _ _ _ _ _.
Arguments Detections {tensor} _ _ _.

Section Forward.
Context {tensor : Type} (F : mx tensor) (self : YOLOV3 tensor).

(** [for stage, block, output in zip(...): x = stage(x); routes.append(x)] *)
Fixpoint run_stages
    (zs : list ((tensor -> tensor)
                * ((tensor -> tensor * tensor) * YOLOOutputV3 tensor)))
    (x : tensor) (routes : list tensor) : tensor * list tensor :=
  match zs with
  | [] => (x, routes)
  | (stage, _) :: rest =>
      let x := stage x in
      run_stages rest x (routes ++ [x])
  end.

(** The part of the second loop body that calls the output layer. *)
Definition collect (ag : autograd) (output : YOLOOutputV3 tensor)
    (tip : tensor) (a : acc tensor) : result (acc tensor) :=
  let* o := YOLOOutputV3_hybrid_forward output ag tip in
  if is_training ag then
    match o with
    | OutTrain dets box_centers box_scales objness class_pred
               anchors offsets =>
        Ok {| all_box_centers := all_box_centers a ++ [flatten F box_centers];
              all_box_scales := all_box_scales a ++ [flatten F box_scales];
              all_objectness := all_objectness a ++ [flatten F objness];
              all_class_pred := all_class_pred a ++ [flatten F class_pred];
              all_anchors := all_anchors a ++ [anchors];
              all_offsets := all_offsets a ++ [offsets];
              all_feat_maps := all_feat_maps a ++ [fake_featmap F tip];
              all_detections := all_detections a ++ [dets] |}
    | _ => Raise ValueError
    end
  else
    match o with
    | OutDets dets =>
        Ok {| all_box_centers := all_box_centers a;
              all_box_scales := all_box_scales a;
              all_objectness := all_objectness a;
              all_class_pred := all_class_pred a;
              all_anchors := all_anchors a;
              all_offsets := all_offsets a;
              all_feat_maps := all_feat_maps a;
              all_detections := all_detections a ++ [dets] |}
    | _ => Raise TypeError
    end.

(** [for i, block, output in zip(range(len(routes)), ...)], with its
    [break] after the last route. *)
Fixpoint run_outputs (ag : autograd) (routes : list tensor)
    (zs : list (Z * ((tensor -> tensor * tensor) * YOLOOutputV3 tensor)))
    (x : tensor) (a : acc tensor) : result (acc tensor) :=
  match zs with
  | [] => Ok a
  | (i, (block, output)) :: rest =>
      let '(x, tip) := block x in
      let* a := collect ag output tip a in
      if Z.of_nat (length routes) - 1 <=? i then Ok a
      else
        let* transition := index (transitions self) i in
        let x := transition x in
        let* route_now := index (reverse routes) (i + 1) in
        let x := upsample_concat F x route_now in
        run_outputs ag routes rest x a
  end.

Definition forward_loops (ag : autograd) (x : tensor) : result (acc tensor) :=
  let layers := zip (yolo_blocks self) (yolo_outputs self) in
  let '(x, routes) := run_stages (zip (stages self) layers) x [] in
  let* idxs := range 0 (Z.of_nat (length routes)) 1 in
  run_outputs ag routes (zip idxs layers) x acc_empty.

(** "apply nms per class" *)
Definition nms_stage (result_ : dets) : result dets :=
  if Qltb 0 (nms_thresh self) && Qltb (nms_thresh self) 1 then
    let result_ := box_nms F (nms_thresh self) (1 # 100) (nms_topk self)
                           result_ in
    if 0 <? post_nms self
    then slice_axis1 result_ 0 (Some (post_nms self))
    else Ok result_
  else Ok result_.

Definition hybrid_forward (ag : autograd) (x : tensor) (args : list tensor)
  : result (forward_result tensor) :=
  let* a := forward_loops ag x in
  if is_training ag then
    if is_recording ag then
      let box_preds := concat_dets F (all_detections a) in
      let all_preds := map (concat F)
                           [all_objectness a; all_box_centers a;
                            all_box_scales a; all_class_pred a] in
      let all_targets := _target_generator self box_preds args in
      Ok (Losses (_loss self (all_preds ++ all_targets)))
    else
      Ok (RawPredictions
            (concat_dets F (all_detections a))
            (all_anchors a) (all_offsets a) (all_feat_maps a)
            (concat F (all_box_centers a)) (concat F (all_box_scales a))
            (concat F (all_objectness a)) (concat F (all_class_pred a)))
  else
    let result_ := concat_dets F (all_detections a) in
    let* result_ := nms_stage result_ in
    let* ids := slice_axis_last result_ 0 (Some 1) in
    let* scores := slice_axis_last result_ 1 (Some 2) in
    let* bboxes := slice_axis_last result_ 2 None in
    Ok (Detections ids scores bboxes).

End Forward.

Definition set_nms {tensor} (self : YOLOV3 tensor)
    (nms_thresh_ : Q) (nms_topk_ post_nms_ : Z) : YOLOV3 tensor :=
  {| nms_thresh := nms_thresh_; nms_topk := nms_topk_; post_nms := post_nms_;
     agnostic := agnostic self; num_classes := num_classes self;
     stages := stages self; yolo_blocks := yolo_blocks self;
     yolo_heads := yolo_heads self; transitions := transitions self;
     _target_generator := _target_generator self; _loss := _loss self |}.

(** What one iteration of the loop of [YOLOV3.__init__] creates: the stage
    it is given, a detection block, the head of an output layer and, for
    every iteration but the first, a transition. *)
Record layer (tensor : Type) : Type := {
  l_stage : tensor -> tensor;
  l_block : tensor -> tensor * tensor;
  l_head : tensor -> preds tensor;
  l_transition : tensor -> tensor }.
Arguments l_stage {tensor} _.
Arguments l_block {tensor} _.
Arguments l_head {tensor} _.
Arguments l_transition {tensor} _.

Definition YOLOV3_init {tensor} (layers : list (layer tensor))
    (classes : nat) (nms_thresh_ : Q) (nms_topk_ post_nms_ : Z)
    (pos_iou_thresh_ : Q) (agnostic_ : bool)
    (target_generator : dets -> list tensor -> list tensor)
    (loss : list tensor -> tensor * tensor * tensor * tensor)
  : result (YOLOV3 tensor) :=
  if Qle_bool 1 pos_iou_thresh_ then
    Ok {| nms_thresh := nms_thresh_; nms_topk := nms_topk_;
          post_nms := post_nms_; agnostic := agnostic_;
          num_classes := classes;
          stages := map l_stage layers;
          yolo_blocks := map l_block layers;
          yolo_heads := map l_head layers;
          transitions := map l_transition (tail layers);
          _target_generator := target_generator; _loss := loss |}
  else Raise NotImplementedError.

(** *** [YOLOV3T.__init__] and [YOLOV3TB.__init__]: the configuration checks *)

Record temporal_config : Type := {
  k : option Z;
  k_join_type : option string;
  k_join_pos : option string;
  block_conv_type : string;
  rnn_pos : option string;
  corr_pos : option string;
  pos_iou_thresh : Q }.

Definition str_in (x : string) (l : list string) : bool :=
  existsb (String.eqb x) l.

Definition opt_str_eqb (x y : option string) : bool :=
  match x, y with
  | None, None => true
  | Some a, Some b => String.eqb a b
  | _, _ => false
  end.

(** [x in [None, 'a', ...]] *)
Definition opt_in (x : option string) (l : list (option string)) : bool :=
  existsb (opt_str_eqb x) l.

Definition assert_ (b : bool) (msg : string) : result unit :=
  if b then Ok tt else Raise (AssertionError msg).

(** [k > 1]: comparing [None] with an int is a [TypeError]. *)
Definition k_gt_1 (k : option Z) : result bool :=
  match k with
  | None => Raise TypeError
  | Some k => Ok (1 <? k)
  end.

Definition check_config (c : temporal_config) : result unit :=
  let* _ := assert_ (opt_in (rnn_pos c) [None; Some "late"; Some "out"]) "" in
  let* _ :=
    (if str_in (block_conv_type c) ["3"; "21"] then
       let* gt := k_gt_1 (k c) in
       let* _ := assert_ gt
         "k must be greater than 1 to use 3D or 2+1D convolutions" in
       let* _ := assert_ (opt_str_eqb (k_join_pos c) (Some "late"))
         "only 'late' pooling can be used when using 3D or 2+1D convolutions" in
       assert_ (negb (opt_str_eqb (k_join_type c) None))
         "please specify a k_join_type: max, mean, or cat"
     else Ok tt) in
  let* _ := assert_ (opt_in (k_join_type c)
                            [None; Some "max"; Some "mean"; Some "cat"]) "" in
  let* _ := assert_ (opt_in (k_join_pos c)
                            [None; Some "early"; Some "late"]) "" in
  let* _ := assert_ (opt_in (corr_pos c)
                            [None; Some "early"; Some "late"]) "" in
  let* _ :=
    (if opt_str_eqb (rnn_pos c) (Some "late") then
       let* _ := assert_ (opt_str_eqb (k_join_pos c) (Some "late"))
         "with 'late' rnn_pos you also need 'late' k_join_pos" in
       assert_ (opt_in (k_join_type c)
                       [None; Some "max"; Some "mean"; Some "cat"])
         "with 'late' rnn_pos you also need to specify a k_join_type"
     else Ok tt) in
  if Qle_bool 1 (pos_iou_thresh c) then Ok tt
  else Raise NotImplementedError.

(** Both constructors run the same checks, then start building layers; the
    first thing the layer building does is to evaluate [k > 1] again. *)
Definition YOLOV3T_init (c : temporal_config) : result unit :=
  let* _ := check_config c in
  let* _ := k_gt_1 (k c) in
  Ok tt.

Definition YOLOV3TB_init (c : temporal_config) : result unit :=
  let* _ := check_config c in
  let* _ := k_gt_1 (k c) in
  Ok tt.

End Yolo3.

(** ** detect_yolo3.py *)

Module DetectDriver.
Import Py.

(** One image of a batch, as the inner loop of [detect] sees it after
    [as_numpy]: the sample index and the ids, scores and boxes the network
    returned for it ([id.flat] and [score.flat] are the (N, 1) columns
    flattened; [box] has one row per detection). *)
Record image : Type := {
  sidx : Z;
  id : list Q;
  score : list Q;
  box : list (list Q) }.

(** A batch: [batch[0].shape[2]], the input data shape, and its images. *)
Record batch : Type := {
  shape2 : Z;
  images : list image }.

(** [np.where(id.flat >= 0)[0]], counting positions from [i]. *)
Fixpoint where_ge0 (i : nat) (ids : list Q) : list nat :=
  match ids with
  | [] => []
  | v :: rest =>
      if Qle_bool 0 v then i :: where_ge0 (S i) rest
      else where_ge0 (S i) rest
  end.

(** [a[idx]] for an index array. *)
Definition np_take {A} (a : list A) (idx : list nat) : result (list A) :=
  mapM (fun i => match a !! i with
                 | Some v => Ok v
                 | None => Raise IndexError
                 end) idx.

(** [bboxes.clip(0, hi)] on one coordinate. *)
Definition clip (hi v : Q) : Q := Py.min (Py.max v 0) hi.

(** [astype(int)]: truncation towards zero. *)
Definition astype_int (v : Q) : Z := Z.quot (Qnum v) (Zpos (Qden v)).

Definition detection (id_ : Z) (score_ : Q) (box_ : list Q) : list Q :=
  [inject_Z id_; score_] ++ box_.

Section Detect.
(** [dataset.sample_path] and [len(dataset)]. *)
Variable sample_path : Z -> string.
Variable len_dataset : Z.

(** The body of [for id_, box_, score_ in zip(id, box, score)]. *)
Definition record (file : string) (detection_threshold : Q)
    (boxes : gmap string (list (list Q))) (z : Z * (list Q * Q))
  : gmap string (list (list Q)) :=
  let '(id_, (box_, score_)) := z in
  if Qltb detection_threshold score_ then
    match boxes !! file with
    | Some l => <[file := l ++ [detection id_ score_ box_]]> boxes
    | None => <[file := [detection id_ score_ box_]]> boxes
    end
  else boxes.

(** The body of the loop over the images of a batch. *)
Definition detect_image (detection_threshold : Q) (shape2_ : Z)
    (boxes : gmap string (list (list Q))) (img : image)
  : result (gmap string (list (list Q))) :=
  let det_bboxes := map (map (clip (inject_Z shape2_))) (box img) in
  let file := sample_path (sidx img) in
  let valid_pred := where_ge0 0 (id img) in
  let* box_ := np_take det_bboxes valid_pred in
  let box_ := map (map (fun v => (v / inject_Z shape2_)%Q)) box_ in
  let* id_ := np_take (id img) valid_pred in
  let id_ := map astype_int id_ in
  let* score_ := np_take (score img) valid_pred in
  Ok (fold_left (record file detection_threshold)
                (zip id_ (zip box_ score_)) boxes).

Fixpoint detect_images (detection_threshold : Q) (shape2_ : Z)
    (imgs : list image) (boxes : gmap string (list (list Q)))
  : result (gmap string (list (list Q))) :=
  match imgs with
  | [] => Ok boxes
  | img :: rest =>
      let* boxes' := detect_image detection_threshold shape2_ boxes img in
      detect_images detection_threshold shape2_ rest boxes'
  end.

(** The loop over the batches of the loader, with its [break]. *)
Fixpoint detect_batches (detection_threshold : Q) (max_do : Z)
    (batches : list batch) (c : Z) (boxes : gmap string (list (list Q)))
  : result (gmap string (list (list Q))) :=
  match batches with
  | [] => Ok boxes
  | b :: rest =>
      let* boxes' :=
        detect_images detection_threshold (shape2 b) (images b) boxes in
      let c := c + Z.of_nat (length (images b)) in
      if max_do <? c then Ok boxes'
      else detect_batches detection_threshold max_do rest c boxes'
  end.

Definition detect (batches : list batch) (detection_threshold : Q)
    (max_do : Z) : result (gmap string (list (list Q))) :=
  let max_do := if max_do <? 0 then len_dataset else max_do in
  detect_batches detection_threshold max_do batches 0 ∅.

End Detect.

End DetectDriver.

(** ** train_yolov3.py *)

Module TrainDriver.
Import Py.

(** The flags that the start of [main] and [get_net] read; [window] and
    [conv_types] as lines 684-685 leave them, converted with [int]. *)
Record flags : Type := {
  window : list Z;
  dataset : list string;
  k_join_type : option string;
  k_join_pos : option string;
  block_conv_type : string;
  rnn_pos : option string;
  corr_pos : option string;
  num_workers : Z;
  features_dir : option string;
  network : string;
  conv_types : list Z;
  syncbn : bool }.

Definition set_no_join (f : flags) : flags :=
  {| window := window f; dataset := dataset f;
     k_join_type := None; k_join_pos := None;
     block_conv_type := block_conv_type f; rnn_pos := rnn_pos f;
     corr_pos := corr_pos f; num_workers := num_workers f;
     features_dir := features_dir f; network := network f;
     conv_types := conv_types f; syncbn := syncbn f |}.

Definition set_num_workers (f : flags) (n : Z) : flags :=
  {| window := window f; dataset := dataset f;
     k_join_type := k_join_type f; k_join_pos := k_join_pos f;
     block_conv_type := block_conv_type f; rnn_pos := rnn_pos f;
     corr_pos := corr_pos f; num_workers := n;
     features_dir := features_dir f; network := network f;
     conv_types := conv_types f; syncbn := syncbn f |}.

(** ['vid' in FLAGS.dataset] on the list of dataset names. *)
Definition has_vid (f : flags) : bool :=
  existsb (String.eqb "vid") (dataset f).

(** Lines 688-695 of [main]: the window check and the worker count. *)
Definition main_flags (cpu_count : Z) (f : flags) : result flags :=
  let* w0 := index (window f) 0 in
  let* f :=
    (if 1 <? w0 then
       if has_vid f then Ok f
       else Raise (AssertionError
              "If using window size >1 you can only use the vid dataset")
     else Ok (set_no_join f)) in
  if num_workers f <? 0 then Ok (set_num_workers f cpu_count) else Ok f.

(** The temporal keyword arguments that [get_net] hands to
    [yolo3_darknet53]. *)
Record net_kwargs : Type := {
  kw_k : Z;
  kw_k_join_type : option string;
  kw_k_join_pos : option string;
  kw_block_conv_type : string;
  kw_rnn_pos : option string;
  kw_corr_pos : option string }.

Definition darknet53_kwargs (f : flags) : result net_kwargs :=
  let* w0 := index (window f) 0 in
  Ok {| kw_k := w0; kw_k_join_type := k_join_type f;
        kw_k_join_pos := k_join_pos f;
        kw_block_conv_type := block_conv_type f;
        kw_rnn_pos := rnn_pos f; kw_corr_pos := corr_pos f |}.

(** The model builder that [get_net] calls with [definition='ours'], for
    the network and again for the copy that the cpu workers use. *)
Inductive builder : Type :=
| yolo3_no_backbone
| yolo3_darknet53
| yolo3_3ddarknet.

Definition get_net_builder (f : flags) : result builder :=
  match features_dir f with
  | Some _ => Ok yolo3_no_backbone
  | None =>
      if String.eqb (network f) "darknet53" then
        let* c0 := index (conv_types f) 0 in
        if c0 =? 2 then Ok yolo3_darknet53 else Ok yolo3_3ddarknet
      else Raise NotImplementedError
  end.

(** A builder with the arguments taken from the flags. *)
Inductive builder_call : Type :=
| call_no_backbone
| call_darknet53 (kwargs : net_kwargs)
| call_3ddarknet (conv_types : list Z).

Definition get_net_call (f : flags) (b : builder) : result builder_call :=
  match b with
  | yolo3_no_backbone => Ok call_no_backbone
  | yolo3_darknet53 =>
      let* kwargs := darknet53_kwargs f in Ok (call_darknet53 kwargs)
  | yolo3_3ddarknet => Ok (call_3ddarknet (conv_types f))
  end.

(** The rest of [main] and of [get_net] builds datasets, networks and
    loaders and trains: code of other modules and of MXNet, reached
    through the functions below, which read the flags as [main_flags]
    left them and may raise whatever they raise. *)
Section Main.
Context {ctx data trained_on names nets : Type}.
Variables
  (** lines 697-702: the seed and the training contexts *)
  (contexts : flags -> result (list ctx))
  (** lines 705-711: [get_dataset], twice when [trained_on] is set; the
      datasets with the metric, and the dataset trained on *)
  (get_datasets : flags -> result (data * trained_on))
  (** lines 714-715: the experiment folder exists and nothing is resumed *)
  (experiment_exists : flags -> bool)
  (** lines 719-723: the folder is made; the name to save under *)
  (save_prefix : flags -> result string)
  (** [trained_on_dataset.classes], read from a file *)
  (classes : trained_on -> result names)
  (** the builder running, and running again for the cpu workers when
      the batch norm is synchronised ([true]) *)
  (build : bool -> names -> builder_call -> result nets)
  (** lines 423-431 of [get_net]: resume or initialize; the start epoch *)
  (resume_or_initialize : flags -> nets -> result Z)
  (** lines 727-773: class reset, summary, data loaders and [train] *)
  (run_training : flags -> data -> nets -> Z -> string -> result unit).

Definition get_net (f : flags) (trained_on_dataset : trained_on)
    (ctx_ : list ctx) : result (nets * Z) :=
  let* b := get_net_builder f in
  let* cl := classes trained_on_dataset in
  let* call := get_net_call f b in
  let* net := build (syncbn f && (1 <? length ctx_)%nat) cl call in
  let* start_epoch := resume_or_initialize f net in
  Ok (net, start_epoch).

(** [main] once the flags are settled. *)
Definition main_body (f : flags) : result unit :=
  let* ctx_ := contexts f in
  let* ds := get_datasets f in
  if experiment_exists f then Ok tt
  else
    let* prefix := save_prefix f in
    let* ns := get_net f ds.2 ctx_ in
    run_training f ds.1 ns.1 ns.2 prefix.

Definition main (cpu_count : Z) (f : flags) : result unit :=
  let* f := main_flags cpu_count f in
  main_body f.

End Main.

End TrainDriver.

(** ** Python strings: [split] and [join] *)

Module PyStr.

(** [s.split(sep)] for a one-character separator: always at least one
    field. *)
Fixpoint split (sep : Ascii.ascii) (s : string) : list string :=
  match s with
  | EmptyString => [EmptyString]
  | String c s' =>
      if Ascii.eqb c sep then EmptyString :: split sep s'
      else match split sep s' with
           | w :: ws => String c w :: ws
           | [] => [String c EmptyString]
           end
  end.

(** The separator [','] of the sample ids. *)
Definition comma : Ascii.ascii :=
  Ascii.Ascii false false true true false true false false.

(** [sep.join(l)] *)
Fixpoint join (sep : string) (l : list string) : string :=
  match l with
  | [] => EmptyString
  | w :: ws =>
      match ws with
      | [] => w
      | _ :: _ => String.append w (String.append sep (join sep ws))
      end
  end.

(** [l[:-1]] *)
Definition but_last {A} (l : list A) : list A := take (length l - 1) l.

End PyStr.

(** ** datasets/youtubebb.py: the rest of the dataset class *)

Module YouTubeBBData.
Import Py YouTubeBB.

(** *** [_load_items]: grouping the csv rows

    A csv row is the list of its fields: youtube id, timestamp, class id,
    class name, object id, presence, xmin, xmax, ymin, ymax. *)
Abbreviation row := (list string) (only parsing).

Definition videos_of (V : Type) : Type := list (string * gmap string V).

(** [videos[vid_id][frame_id].append(r)], creating the entries that are
    missing; a new video goes to the end of the dict. *)
Fixpoint add_row (videos : videos_of (list row)) (vid_id frame_id : string)
    (r : row) : videos_of (list row) :=
  match videos with
  | [] => [(vid_id, {[ frame_id := [r] ]})]
  | (v, m) :: rest =>
      if String.eqb v vid_id then
        (v, match m !! frame_id with
            | Some l => <[frame_id := l ++ [r]]> m
            | None => <[frame_id := [r]]> m
            end) :: rest
      else (v, m) :: add_row rest vid_id frame_id r
  end.

(** The body of [for id in ids], in both the clips and the video
    branch; the state is [videos] and the counter [empty]. *)
Definition load_row (_clips _allow_empty : bool)
    (st : videos_of (list row) * Z) (id : row)
  : result (videos_of (list row) * Z) :=
  let '(videos, empty) := st in
  let* skip :=
    (if negb _allow_empty then
       let* presence := index id 5 in Ok (String.eqb presence "absent")
     else Ok false) in
  if skip then Ok (videos, empty + 1)
  else
    let* vid_id :=
      (if _clips then
         let* a := index id 0 in
         let* b := index id 2 in
         let* c := index id 4 in
         Ok (String.append a (String.append ","
               (String.append b (String.append "," c))))
       else index id 0) in
    let* frame_id := index id 1 in
    Ok (add_row videos vid_id frame_id (drop 2 id), empty).

Fixpoint load_rows (_clips _allow_empty : bool) (ids : list row)
    (st : videos_of (list row) * Z) : result (videos_of (list row) * Z) :=
  match ids with
  | [] => Ok st
  | id :: rest =>
      let* st' := load_row _clips _allow_empty st id in
      load_rows _clips _allow_empty rest st'
  end.

(** *** [_load_items]: keeping a part of the frames

    The parameter [frames] only enters through comparisons with 1 and
    through the stride of the [range]; the stride is computed in floating
    point and is carried here as computed: [int(1 / frames)] when
    [frames < 1], and [int(math.ceil(n / frames))] for a video of [n]
    frames when [frames > 1]. *)
Inductive frames_arg : Type :=
| FramesOne
| FramesBelow (stride : Z)
| FramesAbove (stride : nat -> Z)
| FramesUnordered.

Definition thin_video {V} (fa : frames_arg) (m : gmap string V)
  : result (gmap string V) :=
  let frames := sorted_keys m in
  let* frames :=
    match fa with
    | FramesBelow stride =>
        let* idxs := range 0 (Z.of_nat (length frames)) stride in
        mapM (index frames) idxs
    | FramesAbove stride =>
        let* idxs := range 0 (Z.of_nat (length frames))
                           (stride (length frames)) in
        mapM (index frames) idxs
    | _ => Ok frames
    end in
  Ok (filter (fun kv : string * V => bool_decide (kv.1 ∈ frames) = true) m).

Definition thin {V} (fa : frames_arg) (videos : videos_of V)
  : result (videos_of V) :=
  match fa with
  | FramesOne => Ok videos
  | _ => mapM (fun v : string * gmap string V =>
                 let* m := thin_video fa v.2 in Ok (v.1, m)) videos
  end.

(** [_load_items] from the grouped rows on, and from the csv rows on. *)
Definition _load_items_grouped {V} (_videos : bool) (_frames : frames_arg)
    (_window_size _window_step : Z) (videos : videos_of V)
  : result (items V) :=
  let* videos := thin _frames videos in
  _load_items _videos _window_size _window_step videos.

Definition _load_items_rows (_clips _allow_empty _videos : bool)
    (_frames : frames_arg) (_window_size _window_step : Z) (ids : list row)
  : result (items (list row)) :=
  let* st := load_rows _clips _allow_empty ids ([], 0) in
  _load_items_grouped _videos _frames _window_size _window_step st.1.

(** *** [__init__]

    [_samples] is a dict of frames or a dict of videos; [_load_items]
    returns the second exactly when [videos] is set, so the flag [_videos]
    is read off the shape. *)
Inductive samples (V : Type) : Type :=
| FrameSamples (frames : gmap string V)
| VideoSamples (videos : gmap string (gmap string V)).
Arguments FrameSamples {V} frames.
Arguments VideoSamples {V} videos.

Record YouTubeBBDetection (V : Type) : Type := {
  _clips : bool;
  _frames : frames_arg;
  _inference : bool;
  _allow_empty : bool;
  _window_size : Z;
  _window_step : Z;
  _windows : option (gmap string (list string));
  class_ids : list Z;
  index_map : gmap Z Z;
  _samples : samples V;
  _sample_ids : list string }.
Arguments _clips {V} _.
Arguments _frames {V} _.
Arguments _inference {V} _.
Arguments _allow_empty {V} _.
Arguments _window_size {V} _.
Arguments _window_step {V} _.
Arguments _windows {V} _.
Arguments class_ids {V} _.
Arguments index_map {V} _.
Arguments _samples {V} _.
Arguments _sample_ids {V} _.

Definition _videos {V} (self : YouTubeBBDetection V) : bool :=
  match _samples self with
  | VideoSamples _ => true
  | FrameSamples _ => false
  end.

(** [dict(zip(class_ids, range(num_class)))]: a later pair wins. *)
Definition default_index_map (class_ids_ : list Z) (num_class : nat)
  : gmap Z Z :=
  fold_left (fun m (kv : Z * nat) => <[kv.1 := Z.of_nat kv.2]> m)
            (zip class_ids_ (seq 0 num_class)) ∅.

(** [dict] of the ordered video dict. *)
Definition videos_dict {V} (videos : videos_of V)
  : gmap string (gmap string V) :=
  fold_left (fun d (v : string * gmap string V) => <[v.1 := v.2]> d)
            videos ∅.

(** [__init__], given the number of splits, the class ids and class count
    read from the names files, and the dict that [_load_items] groups from
    the csv. *)
Definition YouTubeBBDetection_init {V} (splits : list string)
    (allow_empty videos clips : bool) (index_map_ : option (gmap Z Z))
    (frames : frames_arg) (inference : bool) (window_size window_step : Z)
    (class_ids_ : list Z) (num_class : nat) (grouped : videos_of V)
  : result (YouTubeBBDetection V) :=
  if negb (length splits =? 1)%nat then Raise (AssertionError "")
  else
    let allow_empty :=
      if videos || (1 <? window_size) then true else allow_empty in
    let index_map_ :=
      match index_map_ with
      | Some m => if bool_decide (m = ∅)
                  then default_index_map class_ids_ num_class else m
      | None => default_index_map class_ids_ num_class
      end in
    let* loaded :=
      _load_items_grouped videos frames window_size window_step grouped in
    let '(windows, smp, ids) :=
      match loaded with
      | Videos vs =>
          (None, VideoSamples (videos_dict vs), sorted_keys (videos_dict vs))
      | Frames w fr => (w, FrameSamples fr, sorted_keys fr)
      end in
    Ok {| _clips := clips; _frames := frames; _inference := inference;
          _allow_empty := allow_empty; _window_size := window_size;
          _window_step := window_step; _windows := windows;
          class_ids := class_ids_; index_map := index_map_;
          _samples := smp; _sample_ids := ids |}.

(** [__len__] *)
Definition len {V} (self : YouTubeBBDetection V) : Z :=
  Z.of_nat (length (_sample_ids self)).

(** *** [_load_label(idx, frame)], with the lookups in front of the loop *)
Definition _load_label_at (self : YouTubeBBDetection (list obj)) (idx : Z)
    (frame : option string) : result (list (list Q)) :=
  let* sample_id := index (_sample_ids self) idx in
  let* sample :=
    match _samples self with
    | FrameSamples frames =>
        match frames !! sample_id with
        | Some sample => Ok sample
        | None => Raise KeyError
        end
    | VideoSamples videos =>
        match videos !! sample_id with
        | None => Raise KeyError
        | Some sample =>
            match frame with
            | None => Raise (AssertionError "")
            | Some frame =>
                match sample !! frame with
                | Some sample => Ok sample
                | None => Raise KeyError
                end
            end
        end
    end in
  _load_label (class_ids self) (index_map self) (_allow_empty self)
              sample_id sample.

(** *** [_load_label] from the csv fields

    A sample as the dataset stores it is the list of the csv rows of a
    frame, each from its third field on: class id (0), class name (1),
    object id (2), presence (3), xmin (4), xmax (5), ymin (6), ymax (7).
    The loop reads a field with [obj[i]] and converts it with [int] or
    [float] when it comes to it: a row that is too short raises
    [IndexError], a field that cannot be read [ValueError], and neither
    is caught.  The two conversions are parameters: [None] stands for the
    [ValueError], and [py_float] gives the value of a field that [float]
    reads as a finite number.  (A field that [float] reads as a nan or an
    infinity has no rational value; the loop clamps or skips such a box
    and raises nothing on it.) *)
Section Fields.
Variables (py_int : string -> option Z) (py_float : string -> option Q).

Definition int_field (o : list string) (i : Z) : result Z :=
  let* s := index o i in
  match py_int s with
  | Some z => Ok z
  | None => Raise ValueError
  end.

Definition float_field (o : list string) (i : Z) : result Q :=
  let* s := index o i in
  match py_float s with
  | Some q => Ok q
  | None => Raise ValueError
  end.

(** The body of [for obj in sample], field by field. *)
Definition load_obj_fields (class_ids : list Z) (index_map : gmap Z Z)
    (sample_id : string) (label : list (list Q)) (o : list string)
  : result (list (list Q)) :=
  let* cls_id := int_field o 0 in
  if negb (bool_decide (cls_id ∈ class_ids)) then Ok label
  else
    match index_map !! cls_id with
    | None => Raise KeyError
    | Some cls_id =>
        let* trk_id := int_field o 2 in
        let* xmin := float_field o 4 in
        let* ymin := float_field o 6 in
        let* xmax := float_field o 5 in
        let* ymax := float_field o 7 in
        let* presence := index o 3 in
        if String.eqb presence "absent"
           || Qltb xmin 0 || Qltb xmax 0 || Qltb ymin 0 || Qltb ymax 0
        then Ok label
        else
          match _validate_label xmin ymin xmax ymax sample_id with
          | Raise (AssertionError _) => Ok label
          | Raise e => Raise e
          | Ok (xmin, ymin, xmax, ymax) =>
              Ok (label ++ [[xmin; ymin; xmax; ymax;
                             inject_Z cls_id; inject_Z trk_id]])
          end
    end.

Fixpoint load_objs_fields (class_ids : list Z) (index_map : gmap Z Z)
    (sample_id : string) (label : list (list Q))
    (sample : list (list string)) : result (list (list Q)) :=
  match sample with
  | [] => Ok label
  | o :: rest =>
      let* label' := load_obj_fields class_ids index_map sample_id label o in
      load_objs_fields class_ids index_map sample_id label' rest
  end.

Definition _load_label_fields (class_ids : list Z) (index_map : gmap Z Z)
    (allow_empty : bool) (sample_id : string) (sample : list (list string))
  : result (list (list Q)) :=
  let* label := load_objs_fields class_ids index_map sample_id [] sample in
  if allow_empty && (length label <? 1)%nat
  then Ok (label ++ [absent_row])
  else Ok label.


End Fields.

(** *** [__getitem__] on a dataset of frames: the path arguments and the
    label

    [sample_id.split(',')[0]] and [sample_id.split(',')[-1]] fill the two
    places of the image path. *)
Definition img_path_args (sample_id : string) : result (string * string) :=
  let* a := index (PyStr.split PyStr.comma sample_id) 0 in
  let* b := index (PyStr.split PyStr.comma sample_id) (-1) in
  Ok (a, b).

(** [self._image_path.format( *args)]: the path has two places, so two
    arguments are needed; further ones are ignored. *)
Definition format_path {A} (args : list A) : result unit :=
  if (length args <? 2)%nat then Raise IndexError else Ok tt.

(** [for sid in window: img_path = self._image_path.format( *self._samples[sid])]:
    the arguments are the annotation rows of the frame. *)
Fixpoint window_paths {V} (frames : gmap string (list V))
    (window : list string) : result unit :=
  match window with
  | [] => Ok tt
  | sid :: rest =>
      match frames !! sid with
      | None => Raise KeyError
      | Some rows =>
          let* _ := format_path rows in
          window_paths frames rest
      end
  end.

(** The label that [__getitem__] returns, and the paths it builds on the
    way; reading the images is left out.  On a dataset of frames the label
    is [self._load_label(idx)[:, :-1]]: the label list becomes an array,
    which has two axes only when there is a row.  With a window the path
    of every frame of the window is then built from [self._samples[sid]].
    On a dataset of videos the loop header reads [sample[3]] from a dict
    whose keys are the frame ids, strings. *)
Definition getitem_label (self : YouTubeBBDetection (list obj)) (idx : Z)
  : result (list (list Q)) :=
  let* sample_id := index (_sample_ids self) idx in
  match _samples self with
  | FrameSamples frames =>
      match frames !! sample_id with
      | None => Raise KeyError
      | Some _ =>
          let* _ := img_path_args sample_id in
          let* label := _load_label_at self idx None in
          let* label :=
            match label with
            | [] => Raise IndexError
            | _ :: _ => Ok (map PyStr.but_last label)
            end in
          let* _ :=
            (if 1 <? _window_size self then
               match _windows self with
               | None => Raise TypeError
               | Some windows =>
                   let* sample_id := index (_sample_ids self) idx in
                   match windows !! sample_id with
                   | None => Raise KeyError
                   | Some window => window_paths frames window
                   end
               end
             else Ok tt) in
          Ok label
      end
  | VideoSamples videos =>
      match videos !! sample_id with
      | None => Raise KeyError
      | Some _ => Raise KeyError
      end
  end.

(** *** [build_coco_json]: the object that is dumped *)
Record coco_image : Type := {
  img_file_name : string;
  img_id : string }.

Record coco_annotation : Type := {
  ann_image_id : string;
  ann_id : Z;
  ann_bbox : list Z;
  ann_area : Z;
  ann_category_id : Z;
  ann_iscrowd : Z }.

Record coco_category : Type := {
  cat_id : Z;
  cat_name : string;
  cat_wnid : string }.

Record coco_json : Type := {
  images : list coco_image;
  annotations : list coco_annotation;
  categories : list coco_category }.

(** [int(v)] on a float: truncation towards zero. *)
Definition int_ (v : Q) : Z := Z.quot (Qnum v) (Zpos (Qden v)).

(** The body of [for box in self._load_label(idx)]. *)
Definition coco_box (sample_id : string) (anns : list coco_annotation)
    (box : list Q) : result (list coco_annotation) :=
  let* v0 := index box 0 in
  let* v1 := index box 1 in
  let* v2 := index box 2 in
  let* v3 := index box 3 in
  let w := int_ v2 - int_ v0 in
  let h := int_ v3 - int_ v1 in
  let xywh := [int_ v0; int_ v1; w; h] in
  let* v4 := index box 4 in
  Ok (anns ++ [{| ann_image_id := sample_id;
                  ann_id := Z.of_nat (length anns);
                  ann_bbox := xywh;
                  ann_area := w * h;
                  ann_category_id := int_ v4;
                  ann_iscrowd := 0 |}]).

Fixpoint coco_boxes (sample_id : string) (anns : list coco_annotation)
    (label : list (list Q)) : result (list coco_annotation) :=
  match label with
  | [] => Ok anns
  | box :: rest =>
      let* anns' := coco_box sample_id anns box in
      coco_boxes sample_id anns' rest
  end.

(** The loop over [range(len(self))]; the state is [images], [done_imgs]
    and [annotations]. *)
Fixpoint coco_samples (self : YouTubeBBDetection (list obj)) (idxs : list Z)
    (st : list coco_image * gset string * list coco_annotation)
  : result (list coco_image * gset string * list coco_annotation) :=
  match idxs with
  | [] => Ok st
  | idx :: rest =>
      let '(imgs, done_imgs, anns) := st in
      let* sample_id := index (_sample_ids self) idx in
      let '(imgs, done_imgs) :=
        if bool_decide (sample_id ∈ done_imgs) then (imgs, done_imgs)
        else (imgs ++ [{| img_file_name := sample_id; img_id := sample_id |}],
              {[ sample_id ]} ∪ done_imgs) in
      let* label := _load_label_at self idx None in
      let* anns := coco_boxes sample_id anns label in
      coco_samples self rest (imgs, done_imgs, anns)
  end.

Definition build_coco_json (self : YouTubeBBDetection (list obj))
    (classes wn_classes : list string) : result coco_json :=
  let cats :=
    imap (fun ci (c : string * string) =>
            {| cat_id := Z.of_nat ci; cat_name := c.1; cat_wnid := c.2 |})
         (zip classes wn_classes) in
  let* idxs := range 0 (len self) 1 in
  let* st := coco_samples self idxs ([], ∅, []) in
  Ok {| images := st.1.1; annotations := st.2; categories := cats |}.

End YouTubeBBData.

(** ** detect_yolo3.py: [get_class_map] *)

Module DetectTools.
Import Py.

(** [l.index(c)]: the first position of [c], or [ValueError]. *)
Fixpoint index_of (c : string) (l : list string) : result Z :=
  match l with
  | [] => Raise ValueError
  | x :: l' =>
      if String.eqb x c then Ok 0
      else let* i := index_of c l' in Ok (i + 1)
  end.

(** [toc] and [eoc] are the [wn_classes] of the dataset trained on and of
    the dataset evaluated on. *)
Definition get_class_map (toc eoc : list string) : result (list Z) :=
  mapM (fun c => if bool_decide (c ∈ toc) then index_of c toc else Ok (-1))
       eoc.

End DetectTools.

(** ** train_yolov3.py: checkpoints and the learning-rate schedule *)

Module TrainLoop.
Import Py.

(** *** [save_params]

    What the function touches: [best_map[0]]; the file
    [prefix_best.params], known by the epoch whose parameters it holds;
    the lines of [prefix_best_map.log]; and the files
    [prefix_NNNN.params], known by their epoch (the format [{:04d}] gives
    different names to different epochs).  The maps are Python floats:
    [current_map > best_map[0]] is binary64's comparison, which is false
    when a side is a nan (the mean average precision of a validation run
    without ground truth of some class is one). *)
Record checkpoints : Type := {
  best_map : float;
  best_params : option Z;
  best_map_log : list (Z * float);
  epoch_params : gset Z }.

Definition save_epoch (st : checkpoints) (epoch : Z) : checkpoints :=
  {| best_map := best_map st; best_params := best_params st;
     best_map_log := best_map_log st;
     epoch_params := {[ epoch ]} ∪ epoch_params st |}.

(** [if os.path.exists(f): os.remove(f)] *)
Definition remove_epoch (st : checkpoints) (d : Z) : checkpoints :=
  {| best_map := best_map st; best_params := best_params st;
     best_map_log := best_map_log st;
     epoch_params := epoch_params st ∖ {[ d ]} |}.

Definition save_params (st : checkpoints) (current_map : float)
    (epoch save_interval : Z) : result checkpoints :=
  let st :=
    if (best_map st <? current_map)%float then
      {| best_map := current_map; best_params := Some epoch;
         best_map_log := best_map_log st ++ [(epoch, current_map)];
         epoch_params := epoch_params st |}
    else st in
  let st :=
    if (0 <? save_interval) && (epoch mod save_interval =? 0)
    then save_epoch st epoch else st in
  if save_interval <? 0 then
    let st := save_epoch st epoch in
    if epoch mod (- save_interval) =? 0 then
      let st_ := epoch + save_interval + 1 in
      let* ds := range (Z.max 0 st_) epoch 1 in
      Ok (fold_left remove_epoch ds st)
    else Ok st
  else Ok st.

(** The calls of [save_params] by the training loop,
    [for epoch in range(start_epoch, FLAGS.epochs + 1)]; [current_map]
    gives the value the loop body has for an epoch (the validation mAP,
    or 0 when the epoch is not validated). *)
Fixpoint save_epochs (save_interval : Z) (current_map : Z -> float)
    (es : list Z) (st : checkpoints) : result checkpoints :=
  match es with
  | [] => Ok st
  | epoch :: rest =>
      let* st' := save_params st (current_map epoch) epoch save_interval in
      save_epochs save_interval current_map rest st'
  end.

Definition train_checkpoints (start_epoch epochs save_interval : Z)
    (current_map : Z -> float) (st : checkpoints) : result checkpoints :=
  let* es := range start_epoch (epochs + 1) 1 in
  save_epochs save_interval current_map es st.

(** *** [train]: the decay epochs when training is resumed

    The learning rate is a float; its multiplication is kept abstract. *)
Section LrDecay.
Context {num : Type} (mul : num -> num -> num).

(** [for e in lr_decay_epoch], threading [FLAGS.lr] and
    [lr_decay_epoch_tmp]. *)
Fixpoint decay_loop (lr_decay : num) (start_epoch warmup_epochs : Z)
    (es : list Z) (lr : num) (tmp : list Z) : num * list Z :=
  match es with
  | [] => (lr, tmp)
  | e :: rest =>
      if e <=? start_epoch
      then decay_loop lr_decay start_epoch warmup_epochs rest
                      (mul lr lr_decay) tmp
      else decay_loop lr_decay start_epoch warmup_epochs rest lr
                      (tmp ++ [e - start_epoch - warmup_epochs])
  end.

(** Lines 502-513 of [train]: the new [FLAGS.lr] and [lr_decay_epoch];
    [lr_decay_epoch] holds the flag's entries after [int]. *)
Definition resume_decay (lr_decay_period epochs : Z) (lr_decay_epoch : list Z)
    (lr lr_decay : num) (start_epoch warmup_epochs : Z)
  : result (num * list Z) :=
  let* es :=
    (if 0 <? lr_decay_period
     then range lr_decay_period epochs lr_decay_period
     else Ok lr_decay_epoch) in
  Ok (decay_loop lr_decay start_epoch warmup_epochs es lr []).

End LrDecay.

End TrainLoop.

(** ** models/definitions/yolo/yolo3.py: [reset_class] *)

Module Yolo3Reset.
Import Py.

(** *** [YOLOV3.reset_class]: which old class each new class reuses *)

(** A python dict from int to int, in insertion order; [d[k] = v]
    replaces the value of a key that is there and appends a new key. *)
Fixpoint dict_set (d : list (Z * Z)) (k v : Z) : list (Z * Z) :=
  match d with
  | [] => [(k, v)]
  | (k0, v0) :: d' =>
      if k0 =? k then (k0, v) :: d' else (k0, v0) :: dict_set d' k v
  end.

(** [dict(zip(keys, vals))] *)
Definition dict_zip (keys vals : list Z) : list (Z * Z) :=
  fold_left (fun d (kv : Z * Z) => dict_set d kv.1 kv.2) (zip keys vals) [].

(** A key or a value of [reuse_weights]: a class name or an index. *)
Inductive cls_ref : Type :=
| ByName (name : string)
| ByIndex (i : Z).

(** [reuse_weights]: [None], a dict (its items in order) or a list of
    names. *)
Inductive reuse : Type :=
| ReuseNone
| ReuseDict (items : list (cls_ref * cls_ref))
| ReuseList (names : list string).

(** A name is looked up with [index], an index is checked against the
    number of names; both failures are a [ValueError]. *)
Definition resolve_ref (names : list string) (r : cls_ref) : result Z :=
  match r with
  | ByName s => DetectTools.index_of s names
  | ByIndex i =>
      if (i <? 0) || (Z.of_nat (length names) <=? i) then Raise ValueError
      else Ok i
  end.

(** [for k, v in reuse_weights.items()], threading [new_keys] and
    [new_vals]. *)
Fixpoint resolve_items (classes old_classes : list string)
    (items : list (cls_ref * cls_ref)) (new_keys new_vals : list Z)
  : result (list Z * list Z) :=
  match items with
  | [] => Ok (new_keys, new_vals)
  | (k, v) :: rest =>
      let* v' := resolve_ref old_classes v in
      let new_vals := new_vals ++ [v'] in
      let* k' := resolve_ref classes k in
      let new_keys := new_keys ++ [k'] in
      resolve_items classes old_classes rest new_keys new_vals
  end.

(** [for x in reuse_weights], threading [new_map]; a [ValueError] of
    [index] is caught and the name is passed over. *)
Fixpoint resolve_names (classes old_classes : list string)
    (names : list string) (new_map : list (Z * Z)) : result (list (Z * Z)) :=
  match names with
  | [] => Ok new_map
  | x :: rest =>
      let step :=
        (let* new_idx := DetectTools.index_of x classes in
         let* old_idx := DetectTools.index_of x old_classes in
         Ok (dict_set new_map new_idx old_idx)) in
      match step with
      | Ok new_map' => resolve_names classes old_classes rest new_map'
      | Raise ValueError => resolve_names classes old_classes rest new_map
      | Raise e => Raise e
      end
  end.

(** The mapping that is handed to the output layers. *)
Definition resolve_reuse (classes old_classes : list string) (r : reuse)
  : result (option (list (Z * Z))) :=
  match r with
  | ReuseNone => Ok None
  | ReuseDict items =>
      let* kv := resolve_items classes old_classes items [] [] in
      Ok (Some (dict_zip kv.1 kv.2))
  | ReuseList names =>
      let* new_map := resolve_names classes old_classes names [] in
      Ok (Some new_map)
  end.

(** *** [YOLOOutputV3.reset_class]: copying the old weights

    A parameter of the predictor is an array; only its rows along the
    first axis matter here, so it is a list of rows of an arbitrary
    type. *)
Section Output.
Context {W : Type}.

(** What MXNet does with an index or a slice that leaves the array. *)
Variable outside_get : list W -> Z -> result W.
Variable outside_set : list W -> Z -> W -> result (list W).
Variable outside_slice : list W -> Z -> Z -> result (list W).
Variable outside_set_slice : list W -> Z -> Z -> list W -> result (list W).

(** [a[i]] and [a[i] = w] *)
Definition nd_get (a : list W) (i : Z) : result W :=
  if (0 <=? i) && (i <? Z.of_nat (length a)) then
    match a !! Z.to_nat i with
    | Some w => Ok w
    | None => Raise IndexError
    end
  else outside_get a i.

Definition nd_set (a : list W) (i : Z) (w : W) : result (list W) :=
  if (0 <=? i) && (i <? Z.of_nat (length a))
  then Ok (<[Z.to_nat i := w]> a)
  else outside_set a i w.

(** [a[b:e]] and [a[b:e] = v] *)
Definition nd_slice (a : list W) (b e : Z) : result (list W) :=
  if (0 <=? b) && (b <=? e) && (e <=? Z.of_nat (length a))
  then Ok (take (Z.to_nat (e - b)) (drop (Z.to_nat b) a))
  else outside_slice a b e.

Definition nd_set_slice (a : list W) (b e : Z) (v : list W)
  : result (list W) :=
  if (0 <=? b) && (b <=? e) && (e <=? Z.of_nat (length a))
     && (Z.of_nat (length v) =? e - b)
  then Ok (take (Z.to_nat b) a ++ v ++ drop (Z.to_nat e) a)
  else outside_set_slice a b e v.

(** The attributes of an output layer that [reset_class] reads and
    writes; [prediction] holds the parameter arrays of the predictor. *)
Record YOLOOutputV3Weights : Type := {
  _classes : Z;
  _num_pred : Z;
  _num_anchors : Z;
  prediction : list (list W) }.

(** The body of [for i in range(self._num_anchors)]. *)
Definition copy_anchor (num_pred old_num_pred k v : Z) (old_data : list W)
    (new_data : list W) (i : Z) : result (list W) :=
  let off_new := i * num_pred in
  let off_old := i * old_num_pred in
  let* w := nd_get old_data (1 + 4 + v + off_old) in
  let* new_data := nd_set new_data (1 + 4 + k + off_new) w in
  let* ws := nd_slice old_data off_old (1 + 4 + off_old) in
  nd_set_slice new_data off_new (1 + 4 + off_new) ws.

Fixpoint copy_anchors (num_pred old_num_pred k v : Z) (old_data : list W)
    (idxs : list Z) (new_data : list W) : result (list W) :=
  match idxs with
  | [] => Ok new_data
  | i :: rest =>
      let* new_data' :=
        copy_anchor num_pred old_num_pred k v old_data new_data i in
      copy_anchors num_pred old_num_pred k v old_data rest new_data'
  end.

(** [for k, v in reuse_weights.items()], with its [continue]. *)
Fixpoint copy_items (classes num_pred old_classes old_num_pred num_anchors : Z)
    (old_data : list W) (items : list (Z * Z)) (new_data : list W)
  : result (list W) :=
  match items with
  | [] => Ok new_data
  | (k, v) :: rest =>
      if (classes <=? k) || (old_classes <=? v) then
        copy_items classes num_pred old_classes old_num_pred num_anchors
                   old_data rest new_data
      else
        let* idxs := range 0 num_anchors 1 in
        let* new_data' :=
          copy_anchors num_pred old_num_pred k v old_data idxs new_data in
        copy_items classes num_pred old_classes old_num_pred num_anchors
                   old_data rest new_data'
  end.

(** [reset_class(classes, reuse_weights)]: [n_classes] is [len(classes)]
    and [fresh] the parameter arrays of the new predictor as
    [initialize] left them. *)
Definition YOLOOutputV3_reset_class (self : YOLOOutputV3Weights) (n_classes : Z)
    (fresh : list (list W)) (reuse_weights : option (list (Z * Z)))
  : result YOLOOutputV3Weights :=
  let old_classes := _classes self in
  let old_pred := prediction self in
  let old_num_pred := _num_pred self in
  let num_pred := 1 + 4 + n_classes in
  let* new_pred :=
    match reuse_weights with
    | Some (item :: items) =>
        let* copied :=
          mapM (fun on : list W * list W =>
                  copy_items n_classes num_pred old_classes old_num_pred
                             (_num_anchors self) on.1 (item :: items) on.2)
               (zip old_pred fresh) in
        Ok (copied ++ drop (length copied) fresh)
    | _ => Ok fresh
    end in
  Ok {| _classes := n_classes; _num_pred := num_pred;
        _num_anchors := _num_anchors self; prediction := new_pred |}.

(** [YOLOV3.reset_class]: the new class names and the output layers;
    [fresh i] are the new parameter arrays of the output layer [i]. *)
Definition YOLOV3_reset_class (old_classes : list string)
    (yolo_outputs : list YOLOOutputV3Weights) (classes : list string)
    (fresh : nat -> list (list W)) (reuse_weights : reuse)
  : result (list string * list YOLOOutputV3Weights) :=
  let* rw := resolve_reuse classes old_classes reuse_weights in
  let* outputs :=
    mapM (fun io : nat * YOLOOutputV3Weights =>
            YOLOOutputV3_reset_class io.2 (Z.of_nat (length classes))
                                     (fresh io.1) rw)
         (imap pair yolo_outputs) in
  Ok (classes, outputs).

End Output.

End Yolo3Reset.

(** ** train_yolov3.py: [get_dataset] *)

Module TrainData.
Import Py.

(** The datasets that [get_dataset] builds, by corpus and split. *)
Inductive corpus : Type :=
| VOC_trainval
| VOC_test
| COCO_train
| COCO_val
| DET_train
| DET_val
| VID_train
| VID_val.

Inductive detection_dataset : Type :=
| Dataset (c : corpus)
| CombinedDetection (datasets : list corpus) (validation : bool)
| MixupDetection (d : detection_dataset).

(** The metric, with the dataset whose class names it is built from. *)
Inductive metric : Type :=
| VOCMApMetric (classes_of : detection_dataset)
| COCODetectionMetric (d : corpus)
| VOCMApMetricTemporal (t : Z) (classes_of : detection_dataset).

(** ['name' in dataset_name] *)
Definition named (name : string) (names : list string) : bool :=
  existsb (String.eqb name) names.

Definition get_dataset (mult_out mixup : bool) (window : list Z)
    (dataset_name dataset_val_name : list string)
  : result (detection_dataset * detection_dataset * metric) :=
  let dataset_val_name :=
    if (length dataset_val_name =? 0)%nat then dataset_name
    else dataset_val_name in
  let train_datasets := [] in
  let val_datasets := [] in
  let val_metric := None in
  let train_datasets :=
    if named "voc" dataset_name then train_datasets ++ [VOC_trainval]
    else train_datasets in
  let '(val_datasets, val_metric) :=
    if named "voc" dataset_val_name
    then (val_datasets ++ [VOC_test], Some (VOCMApMetric (Dataset VOC_test)))
    else (val_datasets, val_metric) in
  let train_datasets :=
    if named "coco" dataset_name then train_datasets ++ [COCO_train]
    else train_datasets in
  let '(val_datasets, val_metric) :=
    if named "coco" dataset_val_name
    then (val_datasets ++ [COCO_val], Some (COCODetectionMetric COCO_val))
    else (val_datasets, val_metric) in
  let train_datasets :=
    if named "det" dataset_name then train_datasets ++ [DET_train]
    else train_datasets in
  let '(val_datasets, val_metric) :=
    if named "det" dataset_val_name
    then (val_datasets ++ [DET_val], Some (VOCMApMetric (Dataset DET_val)))
    else (val_datasets, val_metric) in
  let train_datasets :=
    if named "vid" dataset_name then train_datasets ++ [VID_train]
    else train_datasets in
  let* vm :=
    (if named "vid" dataset_val_name then
       if mult_out then
         let* w0 := index window 0 in
         Ok (val_datasets ++ [VID_val],
             Some (VOCMApMetricTemporal w0 (Dataset VID_val)))
       else Ok (val_datasets ++ [VID_val],
                Some (VOCMApMetric (Dataset VID_val)))
     else Ok (val_datasets, val_metric)) in
  let '(val_datasets, val_metric) := vm in
  let* train_dataset :=
    match train_datasets with
    | [] => Raise NotImplementedError
    | [d] => Ok (Dataset d)
    | _ => Ok (CombinedDetection train_datasets false)
    end in
  let* vm :=
    match val_datasets, val_metric with
    | [], _ => Raise NotImplementedError
    | [d], Some m =>
        if (length train_datasets =? 1)%nat then Ok (Dataset d, m)
        else
          let val_dataset := CombinedDetection val_datasets true in
          Ok (val_dataset, VOCMApMetric val_dataset)
    | _, _ =>
        let val_dataset := CombinedDetection val_datasets true in
        Ok (val_dataset, VOCMApMetric val_dataset)
    end in
  let train_dataset :=
    if mixup then MixupDetection train_dataset else train_dataset in
  Ok (train_dataset, vm.1, vm.2).

End TrainData.

(* ===================================================================== *)
(** * Part II.  Properties                                                *)
(* ===================================================================== *)

(** ** Facts about the Python runtime model *)

Module PyFacts.
Import Py.

Lemma Qltb_lt (a b : Q) : Qltb a b = true <-> (a < b)%Q.
Proof.
  unfold Qltb. rewrite negb_true_iff.
  destruct (Qle_bool b a) eqn:E.
  - apply Qle_bool_iff in E. split; [discriminate | intros H; lra].
  - split; [intros _ | reflexivity].
    apply Qnot_le_lt. intros H. apply Qle_bool_iff in H. congruence.
Qed.

Lemma Qltb_ge (a b : Q) : Qltb a b = false <-> (b <= a)%Q.
Proof.
  unfold Qltb. rewrite negb_false_iff. apply Qle_bool_iff.
Qed.


Lemma max_cases (a b : Q) :
  ((a < b)%Q /\ max a b = b) \/ ((b <= a)%Q /\ max a b = a).
Proof.
  unfold max. destruct (Qltb a b) eqn:E.
  - left. split; [now apply Qltb_lt | reflexivity].
  - right. split; [now apply Qltb_ge | reflexivity].
Qed.

Lemma min_cases (a b : Q) :
  ((b < a)%Q /\ min a b = b) \/ ((a <= b)%Q /\ min a b = a).
Proof.
  unfold min. destruct (Qltb b a) eqn:E.
  - left. split; [now apply Qltb_lt | reflexivity].
  - right. split; [now apply Qltb_ge | reflexivity].
Qed.



Lemma bind_Ok {A B} (r : result A) (k : A -> result B) (b : B) :
  bind r k = Ok b -> exists a, r = Ok a /\ k a = Ok b.
Proof. destruct r as [a | e]; simpl; [eauto | discriminate]. Qed.

Lemma mapM_Ok {A B} (f : A -> result B) (g : A -> B) (l : list A) :
  (forall a, a ∈ l -> f a = Ok (g a)) -> mapM f l = Ok (map g l).
Proof.
  induction l as [| a l IH]; intros H; simpl; [reflexivity |].
  rewrite (H a) by (left). simpl.
  rewrite IH by (intros a' Ha'; apply H; now right). reflexivity.
Qed.

Lemma index_Ok {A} (l : list A) (i : Z) (a : A) :
  0 <= i -> l !! Z.to_nat i = Some a -> index l i = Ok a.
Proof.
  intros Hi Hl. unfold index.
  pose proof (lookup_lt_Some _ _ _ Hl) as Hlt.
  destruct (i <? 0) eqn:E; [lia |].
  replace ((0 <=? i) && (i <? Z.of_nat (length l))) with true
    by (symmetry; apply andb_true_iff; split; lia).
  now rewrite Hl.
Qed.

(** [range(h*s, s-1, -s)] is [h*s, (h-1)*s, ..., s]. *)
Lemma range_down (h s : Z) :
  0 <= h -> 1 <= s ->
  range (h * s) (s - 1) (- s)
  = Ok (map (fun k : nat => (h - Z.of_nat k) * s) (seq 0 (Z.to_nat h))).
Proof.
  intros Hh Hs. unfold range, range_len.
  destruct (- s =? 0) eqn:E0; [lia |].
  destruct (0 <? - s) eqn:E1; [lia |].
  replace ((h * s - (s - 1) - - s - 1) / - - s) with h
    by (replace (- - s) with s by lia;
        replace (h * s - (s - 1) - - s - 1) with (h * s) by lia;
        symmetry; apply Z.div_mul; lia).
  rewrite Z.max_r by lia. f_equal. apply map_ext. intros k. lia.
Qed.

(** [range(s, h*s+1, s)] is [s, 2*s, ..., h*s]. *)
Lemma range_up (h s : Z) :
  0 <= h -> 1 <= s ->
  range s (h * s + 1) s
  = Ok (map (fun k : nat => (Z.of_nat k + 1) * s) (seq 0 (Z.to_nat h))).
Proof.
  intros Hh Hs. unfold range, range_len.
  destruct (s =? 0) eqn:E0; [lia |].
  destruct (0 <? s) eqn:E1; [| lia].
  replace ((h * s + 1 - s + s - 1) / s) with h
    by (replace (h * s + 1 - s + s - 1) with (h * s) by lia;
        symmetry; apply Z.div_mul; lia).
  rewrite Z.max_r by lia. f_equal. apply map_ext. intros k. lia.
Qed.

(** [range(0, n, 1)] is [0, 1, ..., n-1]. *)
Lemma range_count (n : nat) :
  range 0 (Z.of_nat n) 1 = Ok (map Z.of_nat (seq 0 n)).
Proof.
  unfold range, range_len. simpl.
  replace ((Z.of_nat n - 0 + 1 - 1) / 1) with (Z.of_nat n)
    by (rewrite Z.div_1_r; lia).
  rewrite Z.max_r by lia. rewrite Nat2Z.id. f_equal.
  apply map_ext. intros k. lia.
Qed.

Lemma index_is_Ok {A} (l : list A) (i : Z) :
  0 <= i < Z.of_nat (length l) -> exists a, index l i = Ok a.
Proof.
  intros Hi. destruct (lookup_lt_is_Some_2 l (Z.to_nat i)) as [a Ha]; [lia |].
  exists a. apply index_Ok; [lia | exact Ha].
Qed.

Lemma mapM_Ok_inv {A B} (f : A -> result B) (g : A -> B) (l : list A)
    (l' : list B) :
  (forall a b, a ∈ l -> f a = Ok b -> b = g a) ->
  mapM f l = Ok l' -> l' = map g l.
Proof.
  revert l'. induction l as [| a l IH]; intros l' H; simpl.
  - now intros [= <-].
  - destruct (f a) as [b |] eqn:Ea; simpl; [| discriminate].
    destruct (mapM f l) as [bs |] eqn:Eb; simpl; [| discriminate].
    intros [= <-]. f_equal.
    + apply (H a b); [left | exact Ea].
    + apply IH; [| reflexivity]. intros a' b' Ha'. apply H. now right.
Qed.

Lemma map_is_fmap {A B} (f : A -> B) (l : list A) : map f l = f <$> l.
Proof. reflexivity. Qed.

Lemma mapM_Forall2 {A B} (f : A -> result B) (P : A -> B -> Prop)
    (l : list A) :
  (forall a, a ∈ l -> exists b, f a = Ok b /\ P a b) ->
  exists l', mapM f l = Ok l' /\ Forall2 P l l'.
Proof.
  induction l as [| a l IH]; intros H.
  - exists []. split; [reflexivity | constructor].
  - destruct (H a) as (b & Hb & HP); [left |].
    destruct IH as (l' & Hl' & HF); [intros a' Ha'; apply H; now right |].
    exists (b :: l'). simpl. rewrite Hb. simpl. rewrite Hl'.
    split; [reflexivity | now constructor].
Qed.


End PyFacts.

(** ** datasets/youtubebb.py *)

Module YouTubeBBSpec.
Import Py PyFacts YouTubeBB.

(** *** [iou] *)



Lemma iw_le_width (a b : box) :
  (iw a b <= b2 a - b0 a + 1)%Q /\ (iw a b <= b2 b - b0 b + 1)%Q.
Proof.
  unfold iw.
  destruct (min_cases (b2 a) (b2 b)) as [[H ->] | [H ->]],
           (max_cases (b0 a) (b0 b)) as [[H' ->] | [H' ->]]; split; lra.
Qed.

Lemma ih_le_height (a b : box) :
  (ih a b <= b3 a - b1 a + 1)%Q /\ (ih a b <= b3 b - b1 b + 1)%Q.
Proof.
  unfold ih.
  destruct (min_cases (b3 a) (b3 b)) as [[H ->] | [H ->]],
           (max_cases (b1 a) (b1 b)) as [[H' ->] | [H' ->]]; split; lra.
Qed.














(** Within the range the float64 function gives the rounded value of the
    rational one: on the boxes of the example above, [4 / 121] rounded to
    the nearest double, the same for both orders; and at the edge of the
    range, on the box [(-2^500, -2^500, 2^500, 2^500)] and itself, 1. *)
Example iou_f64_in_range :
  let a := FBox 0 0 10 10 in
  let b := FBox 5 5 6 6 in
  let c := FBox (-0x1p+500) (-0x1p+500) 0x1p+500 0x1p+500 in
  iou_f64 a b = 0x1.0ecf56be69c9p-5%float
  /\ iou_f64 b a = 0x1.0ecf56be69c9p-5%float
  /\ iou_f64 c c = 1%float.
Proof. repeat split; vm_compute; reflexivity. Qed.

(** *** [_validate_label] and [_load_label] *)

Definition valid_box (xmin ymin xmax ymax : Q) : Prop :=
  ((0 <= xmin)%Q /\ (xmin < 1)%Q) /\ ((0 <= ymin)%Q /\ (ymin < 1)%Q)
  /\ ((xmin < xmax)%Q /\ (xmax <= 1)%Q) /\ ((ymin < ymax)%Q /\ (ymax <= 1)%Q).

(** The clamped lower coordinate, [min(max(0, v), 1)]. *)
Definition clamped (v : Q) : Q := min (max 0 v) 1.

Lemma in_low_spec (v : Q) : in_low v = true <-> (0 <= v)%Q /\ (v < 1)%Q.
Proof.
  unfold in_low. rewrite andb_true_iff, Qle_bool_iff, Qltb_lt. reflexivity.
Qed.

Lemma in_high_spec (lo v : Q) :
  in_high lo v = true <-> (lo < v)%Q /\ (v <= 1)%Q.
Proof.
  unfold in_high. rewrite andb_true_iff, Qle_bool_iff, Qltb_lt. reflexivity.
Qed.

Lemma clamped_range (v : Q) : (0 <= clamped v)%Q /\ (clamped v <= 1)%Q.
Proof.
  unfold clamped.
  destruct (max_cases 0 v) as [[H ->] | [H ->]];
    [destruct (min_cases v 1) as [[H' ->] | [H' ->]]
    | destruct (min_cases 0 1) as [[H' ->] | [H' ->]]]; lra.
Qed.

Lemma clamped_one (v : Q) : (clamped v == 1)%Q <-> (1 <= v)%Q.
Proof.
  unfold clamped.
  destruct (max_cases 0 v) as [[H ->] | [H ->]];
    [destruct (min_cases v 1) as [[H' ->] | [H' ->]]
    | destruct (min_cases 0 1) as [[H' ->] | [H' ->]]]; split; lra.
Qed.

Lemma clamped_upper (lo v : Q) :
  (0 <= lo)%Q -> (min (max (lo + 1) v) 1 == 1)%Q.
Proof.
  intros Hlo.
  destruct (max_cases (lo + 1) v) as [[H ->] | [H ->]];
    [destruct (min_cases v 1) as [[H' ->] | [H' ->]]
    | destruct (min_cases (lo + 1) 1) as [[H' ->] | [H' ->]]]; lra.
Qed.

(** The four assertions, on coordinates that are not clamped any more. *)
Definition check_box (xmin ymin xmax ymax : Q) : result (Q * Q * Q * Q) :=
  if negb (in_low xmin) then Raise (AssertionError "xmin must in [0, 1)")
  else if negb (in_low ymin) then Raise (AssertionError "ymin must in [0, 1)")
  else if negb (in_high xmin xmax)
       then Raise (AssertionError "xmax must in (xmin, 1]")
  else if negb (in_high ymin ymax)
       then Raise (AssertionError "ymax must in (ymin, 1]")
  else Ok (xmin, ymin, xmax, ymax).

Lemma check_box_Ok (x y x' y' : Q) (r : Q * Q * Q * Q) :
  check_box x y x' y' = Ok r -> r = (x, y, x', y') /\ valid_box x y x' y'.
Proof.
  unfold check_box, valid_box.
  destruct (in_low x) eqn:E1; simpl; [| discriminate].
  destruct (in_low y) eqn:E2; simpl; [| discriminate].
  destruct (in_high x x') eqn:E3; simpl; [| discriminate].
  destruct (in_high y y') eqn:E4; simpl; [| discriminate].
  apply in_low_spec in E1, E2. apply in_high_spec in E3, E4.
  intros [= <-]. tauto.
Qed.

Lemma check_box_valid (x y x' y' : Q) :
  valid_box x y x' y' -> check_box x y x' y' = Ok (x, y, x', y').
Proof.
  intros (H1 & H2 & H3 & H4). unfold check_box.
  apply in_low_spec in H1, H2. apply in_high_spec in H3, H4.
  now rewrite H1, H2, H3, H4.
Qed.

Lemma check_box_Raise (x y x' y' : Q) (e : exn) :
  check_box x y x' y' = Raise e -> is_assertion e = true.
Proof.
  unfold check_box.
  repeat match goal with
         | |- context [if negb ?b then _ else _] => destruct b; simpl
         end; intros [= <-]; reflexivity.
Qed.

Lemma validate_unfold (xmin ymin xmax ymax : Q) (sid : string) :
  _validate_label xmin ymin xmax ymax sid =
  if negb (in_low xmin) || negb (in_low ymin)
     || negb (in_high xmin xmax) || negb (in_high ymin ymax)
  then check_box (clamped xmin) (clamped ymin)
                 (min (max (clamped xmin + 1) xmax) 1)
                 (min (max (clamped ymin + 1) ymax) 1)
  else check_box xmin ymin xmax ymax.
Proof.
  unfold _validate_label.
  destruct (negb (in_low xmin) || negb (in_low ymin)
            || negb (in_high xmin xmax) || negb (in_high ymin ymax));
    reflexivity.
Qed.

Lemma validate_label_Ok (xmin ymin xmax ymax : Q) (sid : string)
    (a b c d : Q) :
  _validate_label xmin ymin xmax ymax sid = Ok (a, b, c, d) ->
  valid_box a b c d.
Proof.
  rewrite validate_unfold.
  destruct (_ || _); intros H; apply check_box_Ok in H as [[= -> -> -> ->] H];
    exact H.
Qed.

Lemma validate_label_Raise (xmin ymin xmax ymax : Q) (sid : string) (e : exn) :
  _validate_label xmin ymin xmax ymax sid = Raise e ->
  is_assertion e = true
  /\ ((clamped xmin == 1)%Q \/ (clamped ymin == 1)%Q).
Proof.
  rewrite validate_unfold.
  destruct (negb (in_low xmin) || negb (in_low ymin)
            || negb (in_high xmin xmax) || negb (in_high ymin ymax)) eqn:E;
    intros H; (split; [exact (check_box_Raise _ _ _ _ _ H) |]).
  - destruct (Qlt_le_dec (clamped xmin) 1) as [Hx | Hx];
      [| left; pose proof (clamped_range xmin); lra].
    destruct (Qlt_le_dec (clamped ymin) 1) as [Hy | Hy];
      [| right; pose proof (clamped_range ymin); lra].
    exfalso.
    pose proof (clamped_range xmin) as [Hx0 _].
    pose proof (clamped_range ymin) as [Hy0 _].
    pose proof (clamped_upper (clamped xmin) xmax Hx0) as Hxm.
    pose proof (clamped_upper (clamped ymin) ymax Hy0) as Hym.
    rewrite check_box_valid in H; [discriminate |].
    unfold valid_box. repeat split; lra.
  - exfalso. apply orb_false_iff in E as [E E4].
    apply orb_false_iff in E as [E E3]. apply orb_false_iff in E as [E1 E2].
    apply negb_false_iff in E1, E2, E3, E4.
    apply in_low_spec in E1, E2. apply in_high_spec in E3, E4.
    rewrite check_box_valid in H; [discriminate |].
    unfold valid_box. tauto.
Qed.

Lemma validate_label_clamped_one (xmin ymin xmax ymax : Q) (sid : string) :
  (clamped xmin == 1)%Q \/ (clamped ymin == 1)%Q ->
  exists msg,
    _validate_label xmin ymin xmax ymax sid = Raise (AssertionError msg).
Proof.
  intros H.
  destruct (_validate_label xmin ymin xmax ymax sid) as [[[[a b] c] d] | e]
    eqn:E.
  - exfalso. rewrite validate_unfold in E.
    destruct (negb (in_low xmin) || negb (in_low ymin)
              || negb (in_high xmin xmax) || negb (in_high ymin ymax)) eqn:Ec.
    + apply check_box_Ok in E as [_ (Hx & Hy & _)]. lra.
    + apply check_box_Ok in E as [_ (Hx & Hy & _)].
      destruct H as [H | H]; apply clamped_one in H; lra.
  - apply validate_label_Raise in E as [E _].
    destruct e; try discriminate. eauto.
Qed.

(** An object is skipped when validation raises: [label] is unchanged. *)
Lemma load_obj_skips_invalid (class_ids : list Z) (index_map : gmap Z Z)
    (sid : string) (label : list (list Q)) (o : obj) (e : exn) :
  _validate_label (o_xmin o) (o_ymin o) (o_xmax o) (o_ymax o) sid = Raise e ->
  load_obj class_ids index_map sid label o = Ok label
  \/ load_obj class_ids index_map sid label o = Raise KeyError.
Proof.
  intros H. unfold load_obj.
  destruct (negb (bool_decide (o_cls o ∈ class_ids))); [now left |].
  destruct (index_map !! o_cls o); [| now right].
  destruct (_ || _); [now left |].
  rewrite H. apply validate_label_Raise in H as [H _].
  destruct e; try discriminate. now left.
Qed.

(** C8.  When [_validate_label] returns, the returned coordinates satisfy
    0 <= xmin < 1, 0 <= ymin < 1, xmin < xmax <= 1 and ymin < ymax <= 1;
    it raises exactly when the clamped xmin or ymin equals 1, and then with
    an AssertionError; [_load_label] catches that error and skips the
    object, leaving the label list as it was. *)
Theorem validate_label_postcondition
    (xmin ymin xmax ymax : Q) (sid : string) :
  match _validate_label xmin ymin xmax ymax sid with
  | Ok (a, b, c, d) => valid_box a b c d
  | Raise e =>
      is_assertion e = true
      /\ ((clamped xmin == 1)%Q \/ (clamped ymin == 1)%Q)
  end
  /\ ((clamped xmin == 1)%Q \/ (clamped ymin == 1)%Q ->
      exists msg,
        _validate_label xmin ymin xmax ymax sid = Raise (AssertionError msg))
  /\ (forall class_ids index_map label cls trk presence e,
        _validate_label xmin ymin xmax ymax sid = Raise e ->
        (cls ∈ class_ids -> is_Some (index_map !! cls)) ->
        load_obj class_ids index_map sid label
                 (Obj cls trk presence xmin xmax ymin ymax) = Ok label).
Proof.
  split; [| split].
  - destruct (_validate_label xmin ymin xmax ymax sid) as [[[[a b] c] d] | e]
      eqn:E.
    + exact (validate_label_Ok _ _ _ _ _ _ _ _ _ E).
    + exact (validate_label_Raise _ _ _ _ _ _ E).
  - apply validate_label_clamped_one.
  - intros class_ids index_map label cls trk presence e He Hmap.
    destruct (load_obj_skips_invalid class_ids index_map sid label
                (Obj cls trk presence xmin xmax ymin ymax) e He) as [H | H];
      [exact H |].
    exfalso. revert H. unfold load_obj. simpl.
    destruct (bool_decide (cls ∈ class_ids)) eqn:Ec; simpl; [| discriminate].
    apply bool_decide_eq_true in Ec. destruct (Hmap Ec) as [c' ->].
    destruct (_ || _); [discriminate |].
    rewrite He. apply validate_label_Raise in He as [He _].
    destruct e; discriminate.
Qed.

Lemma validate_label_postcondition_witness :
  (exists msg, _validate_label (6 # 5) (1 # 2) (3 # 2) (3 # 4) "v,0"
               = Raise (AssertionError msg))
  /\ load_obj [0; 1] {[ 0 := 0; 1 := 1 ]} "v,0" []
       (Obj 1 7 "present" (6 # 5) (3 # 2) (1 # 2) (3 # 4)) = Ok [].
Proof.
  pose proof (validate_label_postcondition (6 # 5) (1 # 2) (3 # 2) (3 # 4)
                "v,0") as (_ & Hraise & Hskip).
  assert (Hc : (clamped (6 # 5) == 1)%Q \/ (clamped (1 # 2) == 1)%Q)
    by (left; vm_compute; reflexivity).
  destruct (Hraise Hc) as [msg Hmsg].
  split; [exists msg; exact Hmsg |].
  apply (Hskip [0; 1] {[ 0 := 0; 1 := 1 ]} [] 1 7 "present"%string
               (AssertionError msg) Hmsg).
  intros _. exists 1. vm_compute. reflexivity.
Defined.

(** Executable checks of both paths. *)
Example validate_label_ok :
  _validate_label (1 # 10) (1 # 5) (1 # 2) (3 # 5) "v,0"
  = Ok (1 # 10, 1 # 5, 1 # 2, 3 # 5)%Q.
Proof. vm_compute. reflexivity. Qed.

Example validate_label_clamps :
  _validate_label (1 # 5) (3 # 10) (1 # 2) (6 # 5) "v,0"
  = Ok (1 # 5, 3 # 10, 1, 1)%Q.
Proof. vm_compute. reflexivity. Qed.

(** *** [_pad_to_dense] *)

Section PadFacts.
Context {num : Type} (add : num -> num -> num) (one : num) (neg : num -> num).

(** What one entry becomes: [-1 + (v + 1)]. *)
Definition round_trip (v : num) : num := add (neg one) (add v one).

Lemma zip_with_replicate_const {A B C} (f : A -> B -> C) (c : A) (l : list B) :
  zip_with f (replicate (length l) c) l = map (f c) l.
Proof. induction l as [| b l IH]; simpl; [reflexivity | now rewrite IH]. Qed.

Lemma iadd_row_fresh (row : list num) :
  length row = 6%nat ->
  iadd_row add one (replicate 6 (neg one)) row = Ok (map round_trip row).
Proof.
  intros Hlen. unfold iadd_row.
  rewrite length_map, length_replicate, bool_decide_eq_true_2 by exact Hlen.
  f_equal. rewrite <- Hlen at 1.
  rewrite <- (length_map (fun v => add v one) row).
  rewrite zip_with_replicate_const, map_map. reflexivity.
Qed.

Lemma pad_rows_spec (labels : list (list num)) :
  forall (x : list (list num)) (enu : nat),
    (enu + length labels <= length x)%nat ->
    (forall i, (enu <= i < enu + length labels)%nat ->
               x !! i = Some (replicate 6 (neg one))) ->
    Forall (fun row => length row = 6%nat) labels ->
    exists x',
      pad_rows add one x enu labels = Ok x'
      /\ length x' = length x
      /\ (forall i row, labels !! i = Some row ->
                        x' !! (enu + i)%nat = Some (map round_trip row))
      /\ (forall i, ~ (enu <= i < enu + length labels)%nat ->
                    x' !! i = x !! i).
Proof.
  induction labels as [| row rest IH]; intros x enu Hlen Hfresh Hw.
  - exists x. simpl. split; [reflexivity |]. split; [reflexivity |].
    split; [intros i row H; discriminate H | reflexivity].
  - simpl in Hlen. inversion Hw as [| ? ? Hrow Hrest]; subst.
    simpl. rewrite (Hfresh enu) by (simpl; lia).
    rewrite (iadd_row_fresh row Hrow). simpl.
    destruct (IH (<[enu := map round_trip row]> x) (S enu)) as
      (x' & Hx' & Hlen' & Hrows & Hother).
    + rewrite length_insert. lia.
    + intros i Hi. rewrite list_lookup_insert_ne by lia.
      apply Hfresh. simpl. lia.
    + exact Hrest.
    + exists x'. split; [exact Hx' |]. split.
      { now rewrite Hlen', length_insert. }
      split.
      * intros [| i] r Hr; simpl in Hr.
        -- injection Hr as <-. rewrite Nat.add_0_r.
           rewrite Hother by lia.
           apply list_lookup_insert_eq. lia.
        -- replace (enu + S i)%nat with (S enu + i)%nat by lia.
           now apply Hrows.
      * intros i Hi. simpl in Hi. rewrite Hother by lia.
        apply list_lookup_insert_ne. lia.
Qed.

Lemma pad_to_dense_spec (labels : list (list num)) (maxlen : nat) :
  (length labels <= maxlen)%nat ->
  Forall (fun row => length row = 6%nat) labels ->
  exists x,
    _pad_to_dense add one neg labels maxlen = Ok x
    /\ length x = maxlen
    /\ (forall i row, labels !! i = Some row ->
                      x !! i = Some (map round_trip row))
    /\ (forall i, (length labels <= i < maxlen)%nat ->
                  x !! i = Some (replicate 6 (neg one))).
Proof.
  intros Hlen Hw. unfold _pad_to_dense.
  destruct (pad_rows_spec labels (replicate maxlen (replicate 6 (neg one))) 0)
    as (x & Hx & Hlx & Hrows & Hother).
  - rewrite length_replicate. simpl. exact Hlen.
  - intros i Hi. apply lookup_replicate_2. simpl in Hi. lia.
  - exact Hw.
  - exists x. split; [exact Hx |]. rewrite length_replicate in Hlx.
    split; [exact Hlx |]. split.
    + intros i row Hr. exact (Hrows i row Hr).
    + intros i Hi. rewrite Hother by (simpl; lia).
      apply lookup_replicate_2. lia.
Qed.

End PadFacts.

(** In exact integer arithmetic the round trip is the identity, so the
    padded rows are the input rows. *)
Lemma pad_to_dense_Z_exact (labels : list (list Z)) (maxlen : nat) :
  (length labels <= maxlen)%nat ->
  Forall (fun row => length row = 6%nat) labels ->
  exists x,
    _pad_to_dense_Z labels maxlen = Ok x
    /\ length x = maxlen
    /\ (forall i row, labels !! i = Some row -> x !! i = Some row)
    /\ (forall i, (length labels <= i < maxlen)%nat ->
                  x !! i = Some (replicate 6 (-1))).
Proof.
  intros Hlen Hw.
  destruct (pad_to_dense_spec Z.add 1 Z.opp labels maxlen Hlen Hw)
    as (x & Hx & Hlx & Hrows & Hother).
  exists x. repeat split; try assumption.
  intros i row Hr. rewrite (Hrows i row Hr). f_equal.
  rewrite <- (map_id row) at 2. apply map_ext. intros v.
  unfold round_trip. lia.
Qed.

(** What the code does in float64.  For a label array with at most
    [maxlen] rows of width 6, [_pad_to_dense] returns a dense (maxlen, 6)
    array whose first len(labels) rows hold [-1 + (v + 1)], computed in
    binary64, for every entry [v] of the corresponding input row, and
    whose remaining rows are all -1. *)
Lemma pad_to_dense_f64_rows (labels : list (list float)) (maxlen : nat) :
  (length labels <= maxlen)%nat ->
  Forall (fun row => length row = 6%nat) labels ->
  exists x,
    _pad_to_dense_f64 labels maxlen = Ok x
    /\ length x = maxlen
    /\ Forall (fun row => length row = 6%nat) x
    /\ (forall i row, labels !! i = Some row ->
          x !! i = Some (map (fun v => (PrimFloat.opp 1 + (v + 1))%float) row))
    /\ (forall i, (length labels <= i < maxlen)%nat ->
                  x !! i = Some (replicate 6 (PrimFloat.opp 1))).
Proof.
  intros Hlen Hw.
  destruct (pad_to_dense_spec PrimFloat.add 1%float PrimFloat.opp
              labels maxlen Hlen Hw) as (x & Hx & Hlx & Hrows & Hother).
  exists x. split; [exact Hx |]. split; [exact Hlx |].
  split; [| split; [exact Hrows | exact Hother]].
  apply Forall_lookup_2. intros i row Hi.
  destruct (Nat.lt_ge_cases i (length labels)) as [Hlt | Hge].
  - destruct (lookup_lt_is_Some_2 labels i Hlt) as [r Hr].
    rewrite (Hrows i r Hr) in Hi. injection Hi as <-.
    rewrite length_map. exact (Forall_lookup_1 _ _ _ _ Hw Hr).
  - assert (i < maxlen)%nat.
    { rewrite <- Hlx. apply lookup_lt_is_Some_1. eauto. }
    rewrite Hother in Hi by lia. injection Hi as <-. reflexivity.
Qed.

(** One annotated box, as binary64 values: xmin = 0.1, ymin = 0.2,
    xmax = 0.5, ymax = 0.6, class 3, track 7. *)
Definition sample_label : list (list float) :=
  [[0x1.999999999999ap-4; 0x1.999999999999ap-3; 0x1p-1;
    0x1.3333333333333p-1; 3; 7]%float].

Lemma pad_to_dense_f64_rows_witness :
  exists x, _pad_to_dense_f64 sample_label 20 = Ok x /\ length x = 20%nat.
Proof.
  assert (Hlen : (length sample_label <= 20)%nat) by (simpl; lia).
  assert (Hw : Forall (fun row => length row = 6%nat) sample_label)
    by (repeat constructor).
  destruct (pad_to_dense_f64_rows sample_label 20 Hlen Hw)
    as (x & Hx & Hlx & _).
  exists x. split; [exact Hx | exact Hlx].
Defined.

(** C9, run in float64 on one annotated box.  The label array has one row
    of width 6 and [maxlen] is 20, yet the first row of the padded array is
    not the input row: (0.1 + 1) - 1 is 0.10000000000000009,
    (0.2 + 1) - 1 is 0.19999999999999996 and (0.6 + 1) - 1 is
    0.6000000000000001.  Rows that should be exactly equal to the input
    differ from it in the last bits. *)
Lemma pad_to_dense_f64_not_exact :
  (length sample_label <= 20)%nat
  /\ Forall (fun row => length row = 6%nat) sample_label
  /\ exists x,
       _pad_to_dense_f64 sample_label 20 = Ok x
       /\ x !! 0%nat
          = Some [0x1.99999999999a0p-4; 0x1.9999999999998p-3; 0x1p-1;
                  0x1.3333333333334p-1; 3; 7]%float
       /\ x !! 0%nat <> sample_label !! 0%nat.
Proof.
  split; [simpl; lia |]. split; [repeat constructor |].
  eexists. split; [vm_compute; reflexivity |].
  split; [vm_compute; reflexivity |].
  vm_compute. intros H. discriminate H.
Qed.

(** *** Temporal windows built by [_load_items] *)

(** Position, in the video's sorted frame list of length [n], of entry [j]
    of the window of frame [i]: [i + (j - window_size // 2) * window_step],
    clamped to the first and last frame. *)
Definition window_pos (n i ws s : Z) (j : nat) : nat :=
  Z.to_nat (Z.max 0 (Z.min (n - 1) (i + (Z.of_nat j - Z.quot ws 2) * s))).

Definition window_ok (fids : list string) (i ws s : Z) (w : list string)
  : Prop :=
  length w = Z.to_nat ws
  /\ forall j, (j < Z.to_nat ws)%nat ->
               w !! j = fids !! window_pos (Z.of_nat (length fids)) i ws s j.

Definition get (fids : list string) (z : Z) : string :=
  default EmptyString (fids !! Z.to_nat z).

Lemma get_lookup (fids : list string) (z : Z) :
  0 <= z < Z.of_nat (length fids) ->
  fids !! Z.to_nat z = Some (get fids z).
Proof.
  intros Hz. unfold get.
  destruct (lookup_lt_is_Some_2 fids (Z.to_nat z)) as [x ->]; [lia |].
  reflexivity.
Qed.

Lemma index_get (fids : list string) (z : Z) :
  0 <= z < Z.of_nat (length fids) -> index fids z = Ok (get fids z).
Proof.
  intros Hz. apply index_Ok; [lia |]. now apply get_lookup.
Qed.

Lemma forward_loop_spec (fids : list string) (i ws : Z) :
  0 <= i -> (1 <= length fids)%nat ->
  forall (forw : list Z) (window : list string),
    Forall (fun f => 0 <= f) forw ->
    Z.of_nat (length window) <= ws ->
    forward_loop fids i ws forw window
    = Ok (window ++
          ((fun f => get fids (Z.min (Z.of_nat (length fids) - 1) (i + f)))
             <$> take (Z.to_nat ws - length window) forw)).
Proof.
  intros Hi Hn. induction forw as [| f rest IH]; intros window Hf Hw; simpl.
  - rewrite take_nil. simpl. now rewrite app_nil_r.
  - destruct (Z.of_nat (length window) =? ws) eqn:E.
    + apply Z.eqb_eq in E.
      replace (Z.to_nat ws - length window)%nat with 0%nat by lia.
      simpl. now rewrite app_nil_r.
    + apply Z.eqb_neq in E. inversion Hf as [| ? ? Hf0 Hrest]; subst.
      rewrite index_get by lia. simpl.
      rewrite IH; [| exact Hrest | rewrite length_app; simpl; lia].
      rewrite length_app. simpl.
      replace (Z.to_nat ws - length window)%nat
        with (S (Z.to_nat ws - (length window + 1)))%nat by lia.
      simpl. now rewrite <- app_assoc.
Qed.

Lemma make_window_eq (fids : list string) (i ws s : Z) :
  0 <= i < Z.of_nat (length fids) -> 1 < ws -> 1 <= s ->
  let h := Z.quot ws 2 in
  let n := Z.of_nat (length fids) in
  make_window fids i ws s
  = Ok ((((fun k : nat => get fids (Z.max 0 (i - (h - Z.of_nat k) * s)))
            <$> seq 0 (Z.to_nat h)) ++ [get fids i])
        ++ ((fun f => get fids (Z.min (n - 1) (i + f)))
              <$> take (Z.to_nat ws - (Z.to_nat h + 1))
                       ((fun k : nat => (Z.of_nat k + 1) * s)
                          <$> seq 0 (Z.to_nat h)))).
Proof.
  intros Hi Hws Hs h n. unfold make_window. fold h.
  assert (Hh : 1 <= h /\ (ws = 2 * h \/ ws = 2 * h + 1)).
  { unfold h. rewrite Z.quot_div_nonneg by lia.
    pose proof (Z.div_mod ws 2 ltac:(lia)).
    pose proof (Z.mod_pos_bound ws 2 ltac:(lia)). lia. }
  rewrite range_down by lia. simpl.
  rewrite (mapM_Ok _ (fun back_i => get fids (Z.max 0 (i - back_i)))).
  2:{ intros a Ha. apply list_elem_of_In, in_map_iff in Ha as (k & <- & Hk).
      apply in_seq in Hk. apply index_get. nia. }
  simpl. rewrite index_get by lia. simpl.
  rewrite range_up by lia. simpl.
  rewrite forward_loop_spec.
  - rewrite length_app, length_map, length_map, length_seq. simpl.
    rewrite map_map. reflexivity.
  - lia.
  - lia.
  - apply Forall_forall. intros f Hf.
    apply list_elem_of_In, in_map_iff in Hf as (k & <- & Hk). nia.
  - rewrite length_app, length_map, length_map, length_seq. simpl. lia.
Qed.

Lemma make_window_ok (fids : list string) (i ws s : Z) :
  0 <= i < Z.of_nat (length fids) -> 1 < ws -> 1 <= s ->
  exists w, make_window fids i ws s = Ok w /\ window_ok fids i ws s w.
Proof.
  intros Hi Hws Hs. eexists. split; [now apply make_window_eq |].
  set (h := Z.quot ws 2). set (n := Z.of_nat (length fids)).
  assert (Hh : 1 <= h /\ (ws = 2 * h \/ ws = 2 * h + 1)).
  { unfold h. rewrite Z.quot_div_nonneg by lia.
    pose proof (Z.div_mod ws 2 ltac:(lia)).
    pose proof (Z.mod_pos_bound ws 2 ltac:(lia)). lia. }
  assert (Htake : length (take (Z.to_nat ws - (Z.to_nat h + 1))
                    ((fun k : nat => (Z.of_nat k + 1) * s)
                       <$> seq 0 (Z.to_nat h)))
                  = (Z.to_nat ws - (Z.to_nat h + 1))%nat).
  { rewrite length_take, length_fmap, length_seq. lia. }
  split.
  - rewrite !length_app, !length_fmap, length_seq, Htake. simpl. lia.
  - intros j Hj. unfold window_pos. fold h. fold n.
    destruct (Nat.lt_trichotomy j (Z.to_nat h)) as [Hlt | [Heq | Hgt]].
    + rewrite lookup_app_l
        by (rewrite length_app, length_fmap, length_seq; simpl; lia).
      rewrite lookup_app_l by (rewrite length_fmap, length_seq; lia).
      rewrite list_lookup_fmap, lookup_seq_lt by lia. simpl.
      rewrite <- get_lookup by (unfold n in *; nia).
      do 2 f_equal. unfold n in *. nia.
    + subst j.
      rewrite lookup_app_l
        by (rewrite length_app, length_fmap, length_seq; simpl; lia).
      rewrite lookup_app_r by (rewrite length_fmap, length_seq; lia).
      rewrite length_fmap, length_seq, Nat.sub_diag. simpl.
      rewrite <- get_lookup by lia.
      do 2 f_equal. unfold n in *. nia.
    + rewrite lookup_app_r
        by (rewrite length_app, length_fmap, length_seq; simpl; lia).
      rewrite length_app, length_fmap, length_seq. simpl.
      rewrite list_lookup_fmap, lookup_take_lt by lia.
      rewrite list_lookup_fmap, lookup_seq_lt by lia. simpl.
      rewrite <- get_lookup by (unfold n in *; nia).
      do 2 f_equal. unfold n in *. nia.
Qed.

Lemma window_ok_centre (fids : list string) (i : nat) (ws s : Z)
    (w : list string) :
  1 < ws -> (i < length fids)%nat -> window_ok fids (Z.of_nat i) ws s w ->
  w !! Z.to_nat (ws / 2) = fids !! i.
Proof.
  intros Hws Hi [_ Hw].
  assert (Hh : 1 <= ws / 2 < ws).
  { pose proof (Z.div_mod ws 2 ltac:(lia)).
    pose proof (Z.mod_pos_bound ws 2 ltac:(lia)). lia. }
  rewrite Hw by lia. f_equal. unfold window_pos.
  rewrite Z.quot_div_nonneg by lia. rewrite Z2Nat.id by lia.
  rewrite Z.sub_diag, Z.mul_0_l, Z.add_0_r. lia.
Qed.

Lemma window_pos_mono (n i ws s : Z) (j j' : nat) :
  1 <= s -> (j <= j')%nat ->
  (window_pos n i ws s j <= window_pos n i ws s j')%nat.
Proof. intros Hs Hj. unfold window_pos. nia. Qed.

Lemma window_pos_bound (n i ws s : Z) (j : nat) :
  1 <= n -> (window_pos n i ws s j < Z.to_nat n)%nat.
Proof. intros Hn. unfold window_pos. lia. Qed.

#[local] Instance str_le_total : Total str_le.
Proof. intros s1 s2. unfold str_le. apply String.leb_total. Qed.

(** Python sorts the frame ids as strings. *)
Lemma sorted_keys_sorted {V} (m : gmap string V) :
  Sorted str_le (sorted_keys m).
Proof. unfold sorted_keys. apply Sorted_merge_sort. apply _. Qed.

Lemma sorted_keys_elem {V} (m : gmap string V) (f : string) :
  f ∈ sorted_keys m <-> is_Some (m !! f).
Proof.
  unfold sorted_keys. rewrite merge_sort_Permutation.
  change (map fst (map_to_list m)) with ((map_to_list m).*1).
  rewrite list_elem_of_fmap. split.
  - intros [[k v] [-> Hkv]]. apply elem_of_map_to_list in Hkv. eauto.
  - intros [v Hv]. exists (f, v). split; [reflexivity |].
    now apply elem_of_map_to_list.
Qed.

Section Windows.
Context {V : Type}.
Implicit Types (videos : list (string * gmap string V)).
Implicit Types (windows : gmap string (list string)).

(** [w] is the window of some frame of some video of [videos] whose sample
    id is [sid]. *)
Definition good videos (ws s : Z) (sid : string) (w : list string) : Prop :=
  exists vid m (i : nat),
    (vid, m) ∈ videos
    /\ frame_ids vid m !! i = Some sid
    /\ window_ok (frame_ids vid m) (Z.of_nat i) ws s w.

Lemma video_windows_spec (fids : list string) (ws s : Z) :
  1 < ws -> 1 <= s ->
  forall (idxs : list Z) windows,
    Forall (fun i => 0 <= i < Z.of_nat (length fids)) idxs ->
    exists windows',
      video_windows fids ws s idxs windows = Ok windows'
      /\ (forall k, is_Some (windows !! k) -> is_Some (windows' !! k))
      /\ (forall k w, windows' !! k = Some w ->
            windows !! k = Some w
            \/ exists i : nat, fids !! i = Some k
                              /\ window_ok fids (Z.of_nat i) ws s w)
      /\ (forall i, i ∈ idxs -> is_Some (windows' !! get fids i)).
Proof.
  intros Hws Hs. induction idxs as [| i rest IH]; intros windows Hidx.
  - exists windows. simpl. repeat split; auto.
    intros i Hi. inversion Hi.
  - inversion Hidx as [| ? ? Hi Hrest]; subst. simpl.
    destruct (make_window_ok fids i ws s Hi Hws Hs) as (w & -> & Hw). simpl.
    rewrite index_get by exact Hi. simpl.
    destruct (IH (<[get fids i := w]> windows) Hrest)
      as (windows' & -> & Ha & Hb & Hc).
    exists windows'. split; [reflexivity |]. split; [| split].
    + intros k Hk. apply Ha. rewrite lookup_insert_is_Some.
      destruct (decide (get fids i = k)); [now left | now right].
    + intros k w0 Hk. destruct (Hb k w0 Hk) as [Hins | Hgood]; [| now right].
      destruct (decide (get fids i = k)) as [<- | Hne].
      * rewrite lookup_insert_eq in Hins. injection Hins as <-.
        right. exists (Z.to_nat i). split; [now apply get_lookup |].
        now rewrite Z2Nat.id by lia.
      * rewrite lookup_insert_ne in Hins by exact Hne. now left.
    + intros i0 Hi0. apply elem_of_cons in Hi0 as [-> | Hi0].
      * apply Ha. rewrite lookup_insert_eq. eauto.
      * now apply Hc.
Qed.

Lemma all_windows_spec videos (ws s : Z) :
  1 < ws -> 1 <= s ->
  forall videos0 windows,
    (forall v, v ∈ videos0 -> v ∈ videos) ->
    exists windows',
      all_windows videos0 ws s windows = Ok windows'
      /\ (forall k, is_Some (windows !! k) -> is_Some (windows' !! k))
      /\ (forall k w, windows' !! k = Some w ->
            windows !! k = Some w \/ good videos ws s k w)
      /\ (forall vid m (i : nat) sid,
            (vid, m) ∈ videos0 -> frame_ids vid m !! i = Some sid ->
            is_Some (windows' !! sid)).
Proof.
  intros Hws Hs. induction videos0 as [| [vid m] rest IH];
    intros windows Hsub.
  - exists windows. simpl. repeat split; auto.
    intros vid m i sid Hin. inversion Hin.
  - cbn [all_windows]. rewrite range_count. cbn [bind].
    destruct (video_windows_spec (frame_ids vid m) ws s Hws Hs
                (map Z.of_nat (seq 0 (length (frame_ids vid m)))) windows)
      as (w1 & -> & Ha1 & Hb1 & Hc1).
    { apply Forall_forall. intros z Hz.
      apply list_elem_of_In, in_map_iff in Hz as (k & <- & Hk).
      apply in_seq in Hk. lia. }
    cbn [bind].
    destruct (IH w1) as (w2 & -> & Ha2 & Hb2 & Hc2).
    { intros v Hv. apply Hsub. now right. }
    exists w2. split; [reflexivity |]. split; [| split].
    + intros k Hk. auto.
    + intros k w Hk. destruct (Hb2 k w Hk) as [H1 | Hg]; [| now right].
      destruct (Hb1 k w H1) as [H0 | (i & Hi & Hw)]; [now left |].
      right. exists vid, m, i. split; [apply Hsub; now left | auto].
    + intros vid' m' i sid Hin Hsid.
      apply elem_of_cons in Hin as [[= -> ->] | Hin]; [| eauto].
      apply Ha2.
      assert (Hlt : (i < length (frame_ids vid m))%nat)
        by (eapply lookup_lt_Some; eauto).
      specialize (Hc1 (Z.of_nat i)).
      unfold get in Hc1. rewrite Nat2Z.id, Hsid in Hc1. simpl in Hc1.
      apply Hc1. apply list_elem_of_In, in_map_iff. exists i.
      split; [reflexivity |]. apply in_seq. lia.
Qed.

Lemma add_frames_lookup (frames : gmap string V) (v : string * gmap string V)
    (sid : string) :
  is_Some (add_frames frames v !! sid) ->
  is_Some (frames !! sid)
  \/ exists f, is_Some (v.2 !! f) /\ sid = sample_key v.1 f.
Proof.
  unfold add_frames.
  assert (H : forall (l : list (string * V)) (frames0 : gmap string V),
             is_Some (fold_left
                        (fun fr kv => <[sample_key v.1 kv.1 := kv.2]> fr)
                        l frames0 !! sid) ->
             is_Some (frames0 !! sid)
             \/ exists kv, kv ∈ l /\ sid = sample_key v.1 kv.1).
  { induction l as [| kv l IH]; intros frames0 Hs; simpl in Hs; [now left |].
    destruct (IH _ Hs) as [Hins | (kv' & Hin & ->)].
    - apply lookup_insert_is_Some in Hins as [<- | [_ H0]].
      + right. exists kv. split; [left | reflexivity].
      + now left.
    - right. exists kv'. split; [now right | reflexivity]. }
  intros Hs. destruct (H _ _ Hs) as [H0 | ([k x] & Hin & ->)]; [now left |].
  right. exists k. split; [| reflexivity].
  apply elem_of_map_to_list in Hin. simpl. eauto.
Qed.

Lemma all_frames_lookup videos (sid : string) :
  is_Some (all_frames videos !! sid) ->
  exists vid m f,
    (vid, m) ∈ videos /\ is_Some (m !! f) /\ sid = sample_key vid f.
Proof.
  unfold all_frames.
  assert (H : forall (l : list (string * gmap string V))
                    (frames0 : gmap string V),
             is_Some (fold_left add_frames l frames0 !! sid) ->
             is_Some (frames0 !! sid)
             \/ exists vid m f, (vid, m) ∈ l /\ is_Some (m !! f)
                                /\ sid = sample_key vid f).
  { induction l as [| [vid m] l IH]; intros frames0 Hs; simpl in Hs;
      [now left |].
    destruct (IH _ Hs) as [Hadd | (vid' & m' & f & Hin & Hf & ->)].
    - apply add_frames_lookup in Hadd as [H0 | (f & Hf & ->)]; [now left |].
      right. exists vid, m, f. split; [left | auto].
    - right. exists vid', m', f. split; [now right | auto]. }
  intros Hs. destruct (H _ _ Hs) as [H0 | H0]; [| exact H0].
  rewrite lookup_empty in H0. destruct H0 as [? H0]. discriminate H0.
Qed.

End Windows.

(** What the window loops do build.  For [window_size > 1],
    [window_step >= 1] and [videos = False], [_load_items] returns the
    per-frame dict and leaves in [_windows] a dict that maps every sample id
    to a list of exactly [window_size] frame ids of one video containing the
    sample; entry [j] is the frame at position
    [i + (j - window_size // 2) * window_step] of the list
    [sorted(videos[vid_id].keys())], clamped to its first and last entry,
    so the sample's own frame sits at index [window_size // 2].  The list
    is sorted as strings, which need not be the order in time. *)
Lemma load_items_windows {V} (videos : list (string * gmap string V))
    (ws s : Z) :
  1 < ws -> 1 <= s ->
  exists windows,
    _load_items false ws s videos
    = Ok (Frames (Some windows) (all_frames videos))
    /\ forall sid, is_Some (all_frames videos !! sid) ->
       exists w vid m (i : nat),
         windows !! sid = Some w
         /\ (vid, m) ∈ videos
         /\ frame_ids vid m !! i = Some sid
         /\ length w = Z.to_nat ws
         /\ w !! Z.to_nat (ws / 2) = Some sid
         /\ (forall j, (j < Z.to_nat ws)%nat ->
               w !! j = frame_ids vid m
                          !! window_pos (Z.of_nat (length (frame_ids vid m)))
                                        (Z.of_nat i) ws s j)
         /\ (forall x, x ∈ w -> x ∈ frame_ids vid m)
         /\ (forall j j', (j <= j')%nat ->
               (window_pos (Z.of_nat (length (frame_ids vid m)))
                           (Z.of_nat i) ws s j
                <= window_pos (Z.of_nat (length (frame_ids vid m)))
                              (Z.of_nat i) ws s j')%nat).
Proof.
  intros Hws Hs. unfold _load_items.
  replace (1 <? ws) with true by (symmetry; apply Z.ltb_lt; exact Hws).
  destruct (all_windows_spec videos ws s Hws Hs videos ∅ (fun v H => H))
    as (windows & -> & _ & Hb & Hc).
  exists windows. split; [reflexivity |].
  intros sid Hsid.
  apply all_frames_lookup in Hsid as (vid0 & m0 & f & Hin0 & Hf & ->).
  apply sorted_keys_elem in Hf.
  assert (Hkey : sample_key vid0 f ∈ frame_ids vid0 m0)
    by (unfold frame_ids; apply list_elem_of_In, in_map, list_elem_of_In, Hf).
  apply list_elem_of_lookup in Hkey as [i0 Hi0].
  destruct (Hc vid0 m0 i0 _ Hin0 Hi0) as [w Hw].
  destruct (Hb _ _ Hw) as [Hemp | (vid & m & i & Hin & Hi & Hok)].
  { rewrite lookup_empty in Hemp. discriminate Hemp. }
  exists w, vid, m, i.
  assert (Hlt : (i < length (frame_ids vid m))%nat)
    by (eapply lookup_lt_Some; eauto).
  split; [exact Hw |]. split; [exact Hin |]. split; [exact Hi |].
  split; [exact (proj1 Hok) |]. split; [| split; [exact (proj2 Hok) | split]].
  - rewrite <- Hi. now apply (window_ok_centre _ _ _ s).
  - intros x Hx. apply list_elem_of_lookup in Hx as [j Hj].
    destruct Hok as [Hlen Hpos].
    assert (Hjlt : (j < Z.to_nat ws)%nat)
      by (rewrite <- Hlen; eapply lookup_lt_Some; eauto).
    rewrite (Hpos j Hjlt) in Hj. apply list_elem_of_lookup. eauto.
  - intros j j' Hj. now apply window_pos_mono.
Qed.

(** Three frames of one video, with their annotation rows left out. *)
Definition one_video : list (string * gmap string unit) :=
  [("v"%string, {[ "0"%string := tt; "1"%string := tt; "2"%string := tt ]})].

Lemma load_items_windows_witness :
  exists windows w,
    _load_items false 3 1 one_video
    = Ok (Frames (Some windows) (all_frames one_video))
    /\ windows !! "v,1"%string = Some w /\ length w = 3%nat
    /\ w !! 1%nat = Some "v,1"%string.
Proof.
  destruct (load_items_windows one_video 3 1 ltac:(lia) ltac:(lia))
    as (windows & Hload & Hall).
  destruct (Hall "v,1"%string) as (w & vid & m & i & Hw & _ & _ & Hlen & Hc & _).
  { vm_compute. eauto. }
  exists windows, w. repeat split; assumption.
Defined.

Example load_items_windows_run :
  exists windows,
    _load_items false 3 1 one_video
    = Ok (Frames (Some windows) (all_frames one_video))
    /\ windows !! "v,0"%string = Some ["v,0"; "v,0"; "v,1"]%string
    /\ windows !! "v,1"%string = Some ["v,0"; "v,1"; "v,2"]%string
    /\ windows !! "v,2"%string = Some ["v,1"; "v,2"; "v,2"]%string.
Proof. eexists. repeat split; vm_compute; reflexivity. Qed.

(** A frame id is the [timestamp_ms] field of the csv, a string of decimal
    digits; its value in milliseconds. *)
Fixpoint timestamp_from (acc : N) (frame_id : string) : N :=
  match frame_id with
  | EmptyString => acc
  | String c rest =>
      timestamp_from (10 * acc + (Ascii.N_of_ascii c - 48))%N rest
  end.

Definition timestamp_ms (frame_id : string) : N := timestamp_from 0 frame_id.

(** Two frames of one video, at 9 and at 10 seconds. *)
Definition video_9s_10s : list (string * gmap string unit) :=
  [("v"%string, {[ "9000"%string := tt; "10000"%string := tt ]})].

(** The time of a sample: the frame id is the last field of the sample
    id. *)
Definition sample_time (sample_id : string) : N :=
  timestamp_ms (List.last (PyStr.split PyStr.comma sample_id) EmptyString).

Definition time_ordered (window : list string) : Prop :=
  Sorted (fun a b => (sample_time a <= sample_time b)%N) window.

(** C4, run on two frames of one video annotated at 9000 ms and at
    10000 ms, with [window_size = 3] and [window_step = 1].  The window of
    the frame at 9000 ms should hold the frames in the order of time with
    the sample's own frame in the middle.  [_load_items] steps through
    [sorted(videos[vid_id].keys())], which sorts the timestamps as strings
    and puts '10000' before '9000': the entry "one step back" from the
    frame at 9000 ms is the frame at 10000 ms, one second later, and the
    window is not ordered in time. *)
Theorem load_items_windows_time_order :
  exists windows frames w,
    _load_items false 3 1 video_9s_10s = Ok (Frames (Some windows) frames)
    /\ is_Some (frames !! "v,9000"%string)
    /\ windows !! "v,9000"%string = Some w
    /\ w = ["v,10000"; "v,9000"; "v,9000"]%string
    /\ map sample_time w = [10000; 9000; 9000]%N
    /\ ~ time_ordered w.
Proof.
  eexists _, _, _. split; [vm_compute; reflexivity |].
  split; [vm_compute; eauto |]. split; [vm_compute; reflexivity |].
  split; [reflexivity |]. split; [vm_compute; reflexivity |].
  intros H. inversion H as [| ? ? _ Hhd]; subst.
  inversion Hhd as [| ? ? Hle]; subst.
  vm_compute in Hle. now apply Hle.
Qed.

(** The claim also leaves the step open.  With [window_step = -1] both
    ranges are empty and every window holds the sample's own frame only,
    not [window_size] frames. *)
Example load_items_windows_negative_step :
  exists windows frames,
    _load_items false 3 (-1) one_video = Ok (Frames (Some windows) frames)
    /\ is_Some (frames !! "v,1"%string)
    /\ windows !! "v,1"%string = Some ["v,1"%string]
    /\ length ["v,1"%string] <> Z.to_nat 3.
Proof.
  eexists _, _. split; [vm_compute; reflexivity |].
  split; [vm_compute; eauto |]. split; [vm_compute; reflexivity |].
  simpl. lia.
Qed.

(** The frame ids are sorted as strings, as Python's [sorted] does on the
    csv fields. *)
Example sorted_keys_lexicographic :
  sorted_keys ({[ "9000"%string := tt; "10000"%string := tt ]}
               : gmap string unit)
  = ["10000"; "9000"]%string.
Proof. vm_compute. reflexivity. Qed.

End YouTubeBBSpec.

(** ** models/definitions/yolo/yolo3.py *)

Module Yolo3Spec.
Import Py PyFacts Yolo3.

(** *** Constructor validation *)

Lemma opt_str_eqb_eq (x y : option string) :
  opt_str_eqb x y = true <-> x = y.
Proof.
  destruct x as [a |], y as [b |]; simpl; try (split; congruence).
  rewrite String.eqb_eq. split; congruence.
Qed.

Definition rnn_pos_ok (c : temporal_config) : bool :=
  opt_in (rnn_pos c) [None; Some "late"; Some "out"]%string.
Definition k_join_type_ok (c : temporal_config) : bool :=
  opt_in (k_join_type c) [None; Some "max"; Some "mean"; Some "cat"]%string.
Definition k_join_pos_ok (c : temporal_config) : bool :=
  opt_in (k_join_pos c) [None; Some "early"; Some "late"]%string.
Definition corr_pos_ok (c : temporal_config) : bool :=
  opt_in (corr_pos c) [None; Some "early"; Some "late"]%string.
Definition conv_3d (c : temporal_config) : bool :=
  str_in (block_conv_type c) ["3"; "21"]%string.

(** What 3D and 2+1D block convolutions require. *)
Definition conv_3d_ready (c : temporal_config) (kz : Z) : Prop :=
  1 < kz /\ k_join_pos c = Some "late"%string /\ k_join_type c <> None.

(** A configuration that passes every check the claim lists. *)
Definition valid_config (c : temporal_config) (kz : Z) : Prop :=
  rnn_pos_ok c = true /\ k_join_type_ok c = true /\ k_join_pos_ok c = true
  /\ corr_pos_ok c = true
  /\ (conv_3d c = true -> conv_3d_ready c kz).

Definition late_rnn_msg : string :=
  "with 'late' rnn_pos you also need 'late' k_join_pos".

Lemma check_config_unfold (c : temporal_config) :
  check_config c =
  let* _ := assert_ (rnn_pos_ok c) "" in
  let* _ :=
    (if conv_3d c then
       let* gt := k_gt_1 (k c) in
       let* _ := assert_ gt
         "k must be greater than 1 to use 3D or 2+1D convolutions" in
       let* _ := assert_ (opt_str_eqb (k_join_pos c) (Some "late"%string))
         "only 'late' pooling can be used when using 3D or 2+1D convolutions" in
       assert_ (negb (opt_str_eqb (k_join_type c) None))
         "please specify a k_join_type: max, mean, or cat"
     else Ok tt) in
  let* _ := assert_ (k_join_type_ok c) "" in
  let* _ := assert_ (k_join_pos_ok c) "" in
  let* _ := assert_ (corr_pos_ok c) "" in
  let* _ :=
    (if opt_str_eqb (rnn_pos c) (Some "late"%string) then
       let* _ := assert_ (opt_str_eqb (k_join_pos c) (Some "late"%string))
         late_rnn_msg in
       assert_ (k_join_type_ok c)
         "with 'late' rnn_pos you also need to specify a k_join_type"
     else Ok tt) in
  if Qle_bool 1 (pos_iou_thresh c) then Ok tt
  else Raise NotImplementedError.
Proof. reflexivity. Qed.

Ltac case_assert :=
  match goal with
  | |- context [assert_ ?b ?m] =>
      let E := fresh "E" in destruct b eqn:E; cbn [assert_ bind]
  end.

(** With an integer [k], a configuration that misses a listed requirement
    is rejected by an assertion. *)
Lemma check_config_rejects (c : temporal_config) (kz : Z) :
  k c = Some kz ->
  ~ valid_config c kz ->
  exists msg, check_config c = Raise (AssertionError msg).
Proof.
  intros Hk Hbad. rewrite check_config_unfold. cbv zeta.
  case_assert; [| eauto].
  destruct (conv_3d c) eqn:E3.
  - rewrite Hk. cbn [k_gt_1 bind].
    case_assert; [| eauto]. case_assert; [| eauto]. case_assert; [| eauto].
    case_assert; [| eauto]. case_assert; [| eauto]. case_assert; [| eauto].
    exfalso. apply Hbad. unfold valid_config, conv_3d_ready.
    apply Z.ltb_lt in E0. apply opt_str_eqb_eq in E1.
    apply negb_true_iff in E2.
    repeat split; try assumption.
    intros Hn. apply opt_str_eqb_eq in Hn. congruence.
  - cbn [bind].
    case_assert; [| eauto]. case_assert; [| eauto]. case_assert; [| eauto].
    exfalso. apply Hbad. unfold valid_config. rewrite E3.
    repeat split; try assumption; discriminate.
Qed.

(** A configuration that meets them is only ever rejected by the checks
    that follow: the 'late' rnn_pos assertion or the IOU threshold. *)
Lemma check_config_valid (c : temporal_config) (kz : Z) (e : exn) :
  k c = Some kz ->
  valid_config c kz ->
  check_config c = Raise e ->
  e = AssertionError late_rnn_msg \/ e = NotImplementedError.
Proof.
  intros Hk (H1 & H2 & H3 & H4 & H5). rewrite check_config_unfold. cbv zeta.
  rewrite H1, H2, H3, H4. cbn [assert_ bind].
  destruct (conv_3d c) eqn:E3.
  - destruct (H5 eq_refl) as (Hkz & Hpos & Htype).
    rewrite Hk. cbn [k_gt_1 bind].
    replace (1 <? kz) with true by (symmetry; now apply Z.ltb_lt).
    rewrite (proj2 (opt_str_eqb_eq _ _) Hpos).
    replace (opt_str_eqb (k_join_type c) None) with false
      by (symmetry; apply not_true_is_false; intros Hn;
          apply opt_str_eqb_eq in Hn; congruence).
    cbn [assert_ bind negb].
    destruct (opt_str_eqb (rnn_pos c) (Some "late"%string));
      cbn [assert_ bind];
      destruct (Qle_bool 1 (pos_iou_thresh c)); intros [= <-]; auto.
  - cbn [bind].
    destruct (opt_str_eqb (rnn_pos c) (Some "late"%string)).
    + destruct (opt_str_eqb (k_join_pos c) (Some "late"%string));
        cbn [assert_ bind]; [| intros [= <-]; auto].
      destruct (Qle_bool 1 (pos_iou_thresh c)); intros [= <-]; auto.
    + cbn [bind]. destruct (Qle_bool 1 (pos_iou_thresh c)); intros [= <-]; auto.
Qed.

Lemma init_of_check (c : temporal_config) (e : exn) :
  check_config c = Raise e ->
  YOLOV3T_init c = Raise e /\ YOLOV3TB_init c = Raise e.
Proof. intros H. unfold YOLOV3T_init, YOLOV3TB_init. now rewrite H. Qed.

Lemma init_Raise (c : temporal_config) (kz : Z) (e : exn) :
  k c = Some kz ->
  YOLOV3T_init c = Raise e \/ YOLOV3TB_init c = Raise e ->
  check_config c = Raise e.
Proof.
  intros Hk. unfold YOLOV3T_init, YOLOV3TB_init. rewrite Hk.
  destruct (check_config c) as [[] | e']; cbn [bind k_gt_1];
    intros [H | H]; congruence.
Qed.

(** With an integer [k], as the drivers pass it, the checks behave as
    intended.  Constructing
    [YOLOV3T] or [YOLOV3TB] with block_conv_type '3' or '21' raises
    AssertionError unless k > 1, k_join_pos == 'late' and k_join_type is
    not None; it also raises AssertionError whenever rnn_pos, k_join_type,
    k_join_pos or corr_pos is outside its allowed set; and under a
    configuration that meets all of these none of those assertions fires:
    the only errors left are the 'late' rnn_pos assertion and the IOU
    threshold check. *)
Lemma init_config_validation (c : temporal_config) (kz : Z) :
  k c = Some kz ->
  (conv_3d c = true -> ~ conv_3d_ready c kz ->
   exists msg, YOLOV3T_init c = Raise (AssertionError msg)
               /\ YOLOV3TB_init c = Raise (AssertionError msg))
  /\ (rnn_pos_ok c = false \/ k_join_type_ok c = false
      \/ k_join_pos_ok c = false \/ corr_pos_ok c = false ->
      exists msg, YOLOV3T_init c = Raise (AssertionError msg)
                  /\ YOLOV3TB_init c = Raise (AssertionError msg))
  /\ (valid_config c kz ->
      forall e, YOLOV3T_init c = Raise e \/ YOLOV3TB_init c = Raise e ->
                e = AssertionError late_rnn_msg \/ e = NotImplementedError).
Proof.
  intros Hk. split; [| split].
  - intros H3 Hnot.
    destruct (check_config_rejects c kz Hk) as [msg Hmsg].
    { intros (_ & _ & _ & _ & H). apply Hnot, H, H3. }
    exists msg. now apply init_of_check.
  - intros Hout.
    destruct (check_config_rejects c kz Hk) as [msg Hmsg].
    { intros (H1 & H2 & H3 & H4 & _). intuition congruence. }
    exists msg. now apply init_of_check.
  - intros Hvalid e He.
    exact (check_config_valid c kz e Hk Hvalid (init_Raise c kz e Hk He)).
Qed.

(** 3D blocks over a window of one frame. *)
Definition config_3d_k1 : temporal_config :=
  {| k := Some 1; k_join_type := Some "max"%string;
     k_join_pos := Some "late"%string; block_conv_type := "3";
     rnn_pos := None; corr_pos := None; pos_iou_thresh := 1 |}.

Lemma init_config_validation_witness :
  exists msg, YOLOV3T_init config_3d_k1 = Raise (AssertionError msg)
              /\ YOLOV3TB_init config_3d_k1 = Raise (AssertionError msg).
Proof.
  destruct (init_config_validation config_3d_k1 1 eq_refl) as [H _].
  apply H; [reflexivity |].
  intros (Hk & _). lia.
Defined.

(** 3D blocks with [k] left at its default. *)
Definition config_3d_default_k : temporal_config :=
  {| k := None; k_join_type := Some "max"%string;
     k_join_pos := Some "late"%string; block_conv_type := "3";
     rnn_pos := None; corr_pos := None; pos_iou_thresh := 1 |}.

(** C5, run at the default [k = None] with 3D blocks and an otherwise
    complete configuration: [k > 1] does not hold, so the constructors
    should raise AssertionError; the comparison of [None] with 1 raises
    TypeError instead, before the assertion on [k] is evaluated. *)
Lemma init_default_k_type_error :
  conv_3d config_3d_default_k = true
  /\ k config_3d_default_k = None
  /\ YOLOV3T_init config_3d_default_k = Raise TypeError
  /\ YOLOV3TB_init config_3d_default_k = Raise TypeError
  /\ forall msg, YOLOV3T_init config_3d_default_k
                 <> Raise (AssertionError msg).
Proof.
  repeat split; try (vm_compute; reflexivity).
  intros msg. vm_compute. discriminate.
Qed.

(** *** The three modes of [YOLOV3.hybrid_forward] *)

Lemma slice_list_Ok {A} (l l' : list A) (b e : Z) :
  0 <= b -> 0 <= e ->
  slice_list l b (Some e) = Ok l' ->
  l' = take (Z.to_nat (e - b)) (drop (Z.to_nat b) l)
  /\ (length l' <= Z.to_nat e)%nat.
Proof.
  intros Hb He. unfold slice_list.
  destruct (b <? 0) eqn:Eb; [lia |]. destruct (e <? 0) eqn:Ee; [lia |].
  destruct (0 <? Z.of_nat (length l)) eqn:En.
  - destruct ((0 <=? b) && (e <=? Z.of_nat (length l)) && (b <? e));
      [| discriminate].
    intros [= <-]. split; [reflexivity |]. rewrite length_take.
    lia.
  - intros [= <-]. destruct l; [| apply Z.ltb_ge in En; rewrite length_cons in En; lia].
    rewrite drop_nil, take_nil. split; [reflexivity | simpl; lia].
Qed.

Lemma slice_list_tail_Ok {A} (l l' : list A) (b : Z) :
  0 <= b -> slice_list l b None = Ok l' -> l' = drop (Z.to_nat b) l.
Proof.
  intros Hb. unfold slice_list.
  destruct (b <? 0) eqn:Eb; [lia |].
  destruct (0 <? Z.of_nat (length l)) eqn:En.
  - destruct ((0 <=? b) && (Z.of_nat (length l) <=? Z.of_nat (length l))
              && (b <? Z.of_nat (length l))) eqn:E; [| discriminate].
    intros [= <-]. apply take_ge. rewrite length_drop. lia.
  - intros [= <-].
    destruct l; [| apply Z.ltb_ge in En; rewrite length_cons in En; lia].
    now rewrite drop_nil.
Qed.

Lemma slice_list_wide {A} (l : list A) (b e : Z) :
  0 <= b < e -> e <= Z.of_nat (length l) ->
  slice_list l b (Some e) = Ok (take (Z.to_nat (e - b)) (drop (Z.to_nat b) l)).
Proof.
  intros Hb He. unfold slice_list.
  destruct (b <? 0) eqn:Eb; [lia |]. destruct (e <? 0) eqn:Ee; [lia |].
  replace (0 <? Z.of_nat (length l)) with true by (symmetry; lia).
  replace ((0 <=? b) && (e <=? Z.of_nat (length l)) && (b <? e)) with true;
    [reflexivity |].
  symmetry. rewrite !andb_true_iff. lia.
Qed.

Lemma slice_list_tail_wide {A} (l : list A) (b : Z) :
  0 <= b < Z.of_nat (length l) ->
  slice_list l b None = Ok (drop (Z.to_nat b) l).
Proof.
  intros Hb. unfold slice_list.
  destruct (b <? 0) eqn:Eb; [lia |].
  replace (0 <? Z.of_nat (length l)) with true by (symmetry; lia).
  replace ((0 <=? b) && (Z.of_nat (length l) <=? Z.of_nat (length l))
           && (b <? Z.of_nat (length l))) with true
    by (symmetry; rewrite !andb_true_iff; lia).
  f_equal. apply take_ge. rewrite length_drop. lia.
Qed.

Lemma slice_axis_last_Ok (t t' : dets) (b e : Z) :
  0 <= b -> 0 <= e ->
  slice_axis_last t b (Some e) = Ok t' ->
  t' = map (map (fun row => take (Z.to_nat (e - b)) (drop (Z.to_nat b) row))) t.
Proof.
  intros Hb He. unfold slice_axis_last. apply mapM_Ok_inv.
  intros img img' _. apply mapM_Ok_inv.
  intros row row' _ H. now apply slice_list_Ok in H.
Qed.

Lemma slice_axis_last_tail_Ok (t t' : dets) (b : Z) :
  0 <= b ->
  slice_axis_last t b None = Ok t' ->
  t' = map (map (drop (Z.to_nat b))) t.
Proof.
  intros Hb. unfold slice_axis_last. apply mapM_Ok_inv.
  intros img img' _. apply mapM_Ok_inv.
  intros row row' _ H. now apply slice_list_tail_Ok in H.
Qed.

Lemma slice_axis1_Ok (t t' : dets) (e : Z) :
  0 <= e ->
  slice_axis1 t 0 (Some e) = Ok t' ->
  t' = map (take (Z.to_nat e)) t
  /\ Forall (fun img => (length img <= Z.to_nat e)%nat) t'.
Proof.
  intros He H. unfold slice_axis1 in H.
  assert (Heq : t' = map (take (Z.to_nat e)) t).
  { revert H. apply mapM_Ok_inv. intros img img' _ Hs.
    apply slice_list_Ok in Hs as [-> _]; [| lia | lia].
    now rewrite Z.sub_0_r, drop_0. }
  split; [exact Heq |]. subst t'. apply Forall_forall. intros img Hin.
  apply list_elem_of_In, in_map_iff in Hin as (img0 & <- & _).
  rewrite length_take. lia.
Qed.

(** The three column slices the forward pass returns. *)
Definition ids_of (result_ : dets) : dets := map (map (take 1)) result_.
Definition scores_of (result_ : dets) : dets :=
  map (map (fun row => take 1 (drop 1 row))) result_.
Definition bboxes_of (result_ : dets) : dets := map (map (drop 2)) result_.

Lemma columns_Ok (result_ ids scores bboxes : dets) :
  slice_axis_last result_ 0 (Some 1) = Ok ids ->
  slice_axis_last result_ 1 (Some 2) = Ok scores ->
  slice_axis_last result_ 2 None = Ok bboxes ->
  ids = ids_of result_ /\ scores = scores_of result_
  /\ bboxes = bboxes_of result_.
Proof.
  intros H1 H2 H3.
  apply slice_axis_last_Ok in H1; [| lia | lia].
  apply slice_axis_last_Ok in H2; [| lia | lia].
  apply slice_axis_last_tail_Ok in H3; [| lia].
  subst. repeat split.
Qed.

Lemma columns_wide (result_ : dets) :
  Forall (Forall (fun row : list Q => (3 <= length row)%nat)) result_ ->
  slice_axis_last result_ 0 (Some 1) = Ok (ids_of result_)
  /\ slice_axis_last result_ 1 (Some 2) = Ok (scores_of result_)
  /\ slice_axis_last result_ 2 None = Ok (bboxes_of result_).
Proof.
  intros Hw. unfold slice_axis_last, ids_of, scores_of, bboxes_of.
  repeat split; apply mapM_Ok; intros img Himg; apply mapM_Ok;
    intros row Hrow;
    pose proof (proj1 (Forall_forall _ _)
                  (proj1 (Forall_forall _ _) Hw img Himg) row Hrow) as Hlen;
    simpl in Hlen.
  - rewrite slice_list_wide by lia. reflexivity.
  - rewrite slice_list_wide by lia. reflexivity.
  - rewrite slice_list_tail_wide by lia. reflexivity.
Qed.

Lemma zip_elem {A B} (l : list A) (k : list B) (a : A) (b : B) :
  (a, b) ∈ zip l k -> a ∈ l /\ b ∈ k.
Proof.
  revert k. induction l as [| x l IH]; intros [| y k] H; simpl in H;
    try (inversion H; fail).
  apply elem_of_cons in H as [[= -> ->] | H].
  - split; left.
  - destruct (IH k H). split; now right.
Qed.

Section ForwardFacts.
Context {tensor : Type} (F : mx tensor) (self : YOLOV3 tensor).

(** [__init__] adds a transition for every output layer but the first. *)
Definition wf_net : Prop :=
  (Nat.min (length (stages self))
           (Nat.min (length (yolo_blocks self)) (length (yolo_heads self))) - 1
   <= length (transitions self))%nat.

(** The number of output layers that run: [zip] stops at the shortest of
    the stages, the blocks and the output layers. *)
Definition depth : nat :=
  Nat.min (length (stages self))
          (Nat.min (length (yolo_blocks self)) (length (yolo_heads self))).

Definition apply_stages (l : list (tensor -> tensor)) (x : tensor) : tensor :=
  fold_left (fun x (stage : tensor -> tensor) => stage x) l x.

(** [routes[k]]: the input after the first [k + 1] stages. *)
Definition route (x : tensor) (k : nat) : tensor :=
  apply_stages (take (S k) (stages self)) x.

(** The input of the detection block of output layer [j]: the last route
    for the deepest layer, and for the next ones the transition of the
    block's output, upsampled and joined with the route one stage
    shallower. *)
Fixpoint block_in (x : tensor) (j : nat) : option tensor :=
  match j with
  | O => Some (apply_stages (take depth (stages self)) x)
  | S j' =>
      xin ← block_in x j';
      block ← yolo_blocks self !! j';
      transition ← transitions self !! j';
      Some (upsample_concat F (transition (block xin).1)
                            (route x (depth - 2 - j')))
  end.

(** The feature map that output layer [j] is applied to. *)
Definition tip (x : tensor) (j : nat) : option tensor :=
  xin ← block_in x j;
  block ← yolo_blocks self !! j;
  Some (block xin).2.

(** The detections of one output layer, by mode: the boxes in training,
    and else the rows per class, or the agnostic rows. *)
Definition stage_dets (ag : autograd) (p : preds tensor) : dets :=
  if is_training ag then bbox p
  else if agnostic self then agnostic_detections (bbox p) (confidence p)
  else class_detections (num_classes self) (bbox p) (class_score p).

(** The lists that the forward loops leave behind when the output layers
    with the heads [hts.*1] were applied to the feature maps [hts.*2]: in
    training one entry per output layer in every list, at inference the
    detections only. *)
Definition collected (ag : autograd)
    (hts : list ((tensor -> preds tensor) * tensor)) : acc tensor :=
  let ps := map (fun ht : (tensor -> preds tensor) * tensor => ht.1 ht.2)
                hts in
  if is_training ag then
    {| all_box_centers := map (fun p => flatten F (raw_box_centers p)) ps;
       all_box_scales := map (fun p => flatten F (raw_box_scales p)) ps;
       all_objectness := map (fun p => flatten F (objness p)) ps;
       all_class_pred := map (fun p => flatten F (class_pred p)) ps;
       all_anchors := map anchors ps;
       all_offsets := map offsets ps;
       all_feat_maps :=
         map (fun ht : (tensor -> preds tensor) * tensor =>
                fake_featmap F ht.2) hts;
       all_detections := map (stage_dets ag) ps |}
  else
    {| all_box_centers := []; all_box_scales := []; all_objectness := [];
       all_class_pred := []; all_anchors := []; all_offsets := [];
       all_feat_maps := [];
       all_detections := map (stage_dets ag) ps |}.

(** [hts] pairs the head of every output layer that runs with the
    feature map it is applied to. *)
Definition heads_and_tips (x : tensor)
    (hts : list ((tensor -> preds tensor) * tensor)) : Prop :=
  forall j ht, hts !! j = Some ht ->
    yolo_heads self !! j = Some ht.1 /\ tip x j = Some ht.2.

Definition output_of (head : tensor -> preds tensor) : YOLOOutputV3 tensor :=
  {| _classes := num_classes self; _agnostic := agnostic self;
     _hier_info := None; prediction := head |}.

Lemma collected_nil (ag : autograd) : collected ag [] = acc_empty.
Proof. unfold collected. destruct (is_training ag); reflexivity. Qed.

Lemma collect_collected (ag : autograd) (head : tensor -> preds tensor)
    (t : tensor) (hts : list ((tensor -> preds tensor) * tensor)) :
  collect F ag (output_of head) t (collected ag hts)
  = Ok (collected ag (hts ++ [(head, t)])).
Proof.
  unfold collect, YOLOOutputV3_hybrid_forward, collected, stage_dets,
    output_of.
  cbn [_agnostic _classes _hier_info prediction].
  destruct (is_training ag); cbn [bind].
  - cbn. rewrite !map_app. reflexivity.
  - destruct (agnostic self); cbn; rewrite !map_app; reflexivity.
Qed.

Lemma run_stages_spec
    (zs : list ((tensor -> tensor)
                * ((tensor -> tensor * tensor) * YOLOOutputV3 tensor))) :
  forall (x : tensor) (routes : list tensor),
    run_stages zs x routes
    = (apply_stages zs.*1 x,
       routes ++ map (fun k => apply_stages (take (S k) zs.*1) x)
                     (seq 0 (length zs))).
Proof.
  induction zs as [| [stage l] rest IH]; intros x routes; cbn [run_stages].
  - simpl. now rewrite app_nil_r.
  - rewrite IH. cbn. f_equal. rewrite <- app_assoc. f_equal. cbn. f_equal.
    rewrite <- seq_shift, map_map. reflexivity.
Qed.

Lemma zip_fst_take {A B} (l : list A) (k : list B) :
  (zip l k).*1 = take (length k) l.
Proof.
  revert k. induction l as [| a l IH]; intros [| b k]; cbn;
    try reflexivity.
  now rewrite IH.
Qed.

Lemma layers_length :
  length (zip (yolo_blocks self) (yolo_outputs self))
  = Nat.min (length (yolo_blocks self)) (length (yolo_heads self)).
Proof.
  rewrite length_zip_with. unfold yolo_outputs. now rewrite length_map.
Qed.

Lemma staged_fst :
  (zip (stages self) (zip (yolo_blocks self) (yolo_outputs self))).*1
  = take depth (stages self).
Proof.
  rewrite zip_fst_take, layers_length. unfold depth.
  set (m := Nat.min (length (yolo_blocks self)) (length (yolo_heads self))).
  destruct (Nat.le_ge_cases (length (stages self)) m) as [H | H].
  - rewrite Nat.min_l by exact H. rewrite !take_ge by lia. reflexivity.
  - rewrite Nat.min_r by exact H. reflexivity.
Qed.

Lemma staged_length :
  length (zip (stages self) (zip (yolo_blocks self) (yolo_outputs self)))
  = depth.
Proof. rewrite length_zip_with, layers_length. reflexivity. Qed.

(** The second loop, from output layer [k] on. *)
Lemma run_outputs_collected (ag : autograd) (x : tensor)
    (routes : list tensor) :
  wf_net ->
  length routes = depth ->
  (forall k, (k < depth)%nat -> routes !! k = Some (route x k)) ->
  forall zs (k : nat) (xk : tensor) hts,
    (k + length zs = depth)%nat ->
    (forall i z, zs !! i = Some z ->
       z.1 = Z.of_nat (k + i)
       /\ yolo_blocks self !! (k + i)%nat = Some z.2.1
       /\ exists head, yolo_heads self !! (k + i)%nat = Some head
                       /\ z.2.2 = output_of head) ->
    block_in x k = Some xk ->
    length hts = k -> heads_and_tips x hts ->
    exists hts',
      run_outputs F self ag routes zs xk (collected ag hts)
      = Ok (collected ag hts')
      /\ length hts' = depth /\ heads_and_tips x hts'.
Proof.
  intros Hwf Hlen Hroutes.
  induction zs as [| [i [block output]] rest IH];
    intros k xk hts Hk Hzs Hin Hhts Hht.
  - exists hts. cbn in Hk. split; [reflexivity | split; [lia | exact Hht]].
  - cbn [length] in Hk.
    destruct (Hzs 0%nat _ eq_refl) as (Hi & Hblock & head & Hhead & Hout).
    cbn in Hi, Hblock, Hhead, Hout. rewrite Nat.add_0_r in *. subst i output.
    cbn [run_outputs]. destruct (block xk) as [x1 t] eqn:Eb.
    rewrite collect_collected. cbn [bind].
    assert (Htip : tip x k = Some t).
    { unfold tip. rewrite Hin. cbn. rewrite Hblock. cbn. now rewrite Eb. }
    assert (Hht' : heads_and_tips x (hts ++ [(head, t)])).
    { intros j ht Hj.
      apply lookup_app_Some in Hj as [Hj | [Hge Hj]]; [now apply Hht |].
      rewrite Hhts in *.
      destruct (j - k)%nat eqn:Ejk; [| destruct n; discriminate Hj].
      injection Hj as <-. replace j with k by lia. auto. }
    destruct (Z.of_nat (length routes) - 1 <=? Z.of_nat k) eqn:Ebr.
    + apply Z.leb_le in Ebr. exists (hts ++ [(head, t)]).
      split; [reflexivity |]. split; [| exact Hht'].
      rewrite length_app. cbn. lia.
    + apply Z.leb_gt in Ebr.
      destruct (lookup_lt_is_Some_2 (transitions self) k) as [tr Htr];
        [unfold wf_net in Hwf; fold depth in Hwf; lia |].
      rewrite (index_Ok (transitions self) (Z.of_nat k) tr)
        by (try lia; now rewrite Nat2Z.id).
      cbn [bind].
      assert (Hr : reverse routes !! Z.to_nat (Z.of_nat k + 1)
                   = Some (route x (depth - 2 - k))).
      { replace (Z.to_nat (Z.of_nat k + 1)) with (S k) by lia.
        rewrite reverse_lookup by lia. rewrite Hlen.
        replace (depth - S (S k))%nat with (depth - 2 - k)%nat by lia.
        apply Hroutes. lia. }
      rewrite (index_Ok (reverse routes) (Z.of_nat k + 1) _ ltac:(lia) Hr).
      cbn [bind].
      apply (IH (S k)).
      * lia.
      * intros i z Hz. specialize (Hzs (S i) z Hz).
        now replace (S k + i)%nat with (k + S i)%nat by lia.
      * cbn [block_in]. rewrite Hin. cbn. rewrite Hblock. cbn.
        rewrite Htr. cbn. now rewrite Eb.
      * rewrite length_app. cbn. lia.
      * exact Hht'.
Qed.

(** The two loops of the forward pass return, and leave in the lists one
    entry per output layer that runs, computed from the feature map that
    the detection blocks, transitions and routes hand to that layer. *)
Lemma forward_loops_collected (ag : autograd) (x : tensor) :
  wf_net ->
  exists hts,
    forward_loops F self ag x = Ok (collected ag hts)
    /\ length hts = depth /\ heads_and_tips x hts.
Proof.
  intros Hwf. unfold forward_loops.
  set (layers := zip (yolo_blocks self) (yolo_outputs self)).
  rewrite run_stages_spec. unfold layers. rewrite staged_fst, staged_length.
  cbn [app]. rewrite length_map, length_seq, range_count. cbn [bind].
  rewrite <- collected_nil with (ag := ag).
  apply (run_outputs_collected ag x _ Hwf) with (k := 0%nat).
  - now rewrite length_map, length_seq.
  - intros k Hk. rewrite list_lookup_fmap, lookup_seq_lt by exact Hk.
    cbn. unfold route. do 2 f_equal.
    rewrite take_take. f_equal. lia.
  - rewrite length_zip_with, length_map, length_seq, layers_length.
    unfold depth. lia.
  - intros i z Hz. cbn.
    apply lookup_zip_with_Some in Hz as (zi & l & -> & Hzi & Hl).
    apply lookup_zip_with_Some in Hl as (block & output & -> & Hb & Ho).
    rewrite list_lookup_fmap in Hzi.
    destruct (seq 0 depth !! i) as [i' |] eqn:Es; [| discriminate Hzi].
    injection Hzi as <-. apply lookup_seq in Es as [-> _].
    unfold yolo_outputs in Ho. rewrite list_lookup_fmap in Ho.
    destruct (yolo_heads self !! i) as [head |] eqn:Eh; [| discriminate Ho].
    injection Ho as <-. cbn.
    split; [reflexivity | split; [exact Hb |]]. exists head. auto.
  - reflexivity.
  - reflexivity.
  - intros j ht Hj. discriminate Hj.
Qed.

End ForwardFacts.

Lemma YOLOV3_init_wf {tensor} (layers : list (layer tensor)) (classes : nat)
    (t : Q) (topk post : Z) (iou : Q) (ag : bool)
    (tg : dets -> list tensor -> list tensor)
    (loss : list tensor -> tensor * tensor * tensor * tensor)
    (net : YOLOV3 tensor) :
  YOLOV3_init layers classes t topk post iou ag tg loss = Ok net ->
  wf_net net.
Proof.
  unfold YOLOV3_init. destruct (Qle_bool 1 iou); [| discriminate].
  intros [= <-]. unfold wf_net. cbn. rewrite !length_map.
  destruct layers; simpl; lia.
Qed.

Lemma set_nms_wf {tensor} (self : YOLOV3 tensor) (t : Q) (topk post : Z) :
  wf_net self -> wf_net (set_nms self t topk post).
Proof. intros H. exact H. Qed.

Lemma hybrid_forward_inference_inv {tensor} (F : mx tensor)
    (self : YOLOV3 tensor) (ag : autograd) (x : tensor) (args : list tensor)
    (r : forward_result tensor) :
  is_training ag = false ->
  hybrid_forward F self ag x args = Ok r ->
  exists a result_,
    forward_loops F self ag x = Ok a
    /\ nms_stage F self (concat_dets F (all_detections a)) = Ok result_
    /\ r = Detections (ids_of result_) (scores_of result_)
                      (bboxes_of result_).
Proof.
  intros Ht. unfold hybrid_forward. rewrite Ht.
  intros H. apply bind_Ok in H as (a & Ha & H).
  apply bind_Ok in H as (result_ & Hr & H).
  apply bind_Ok in H as (ids & Hids & H).
  apply bind_Ok in H as (scores & Hscores & H).
  apply bind_Ok in H as (bboxes & Hbb & H).
  injection H as <-.
  destruct (columns_Ok _ _ _ _ Hids Hscores Hbb) as (-> & -> & ->).
  exists a, result_. auto.
Qed.

(** C1.  [YOLOV3.hybrid_forward] has three modes, each on the predictions
    of the input batch: the loops return with one entry per output layer
    in their lists, computed by that layer's head from the feature map
    that the stages, detection blocks, transitions and routes produce for
    it from the input.  Training and recording: it returns the four
    losses that [_loss] computes from the concatenated predictions and the
    targets of [_target_generator].  Training, not recording: the 8-tuple
    of raw predictions (concatenated detections, anchors, offsets, feature
    maps, box centers, box scales, objectness, class predictions).
    Otherwise: the triple (ids, scores, bboxes) cut from the post-NMS
    result, ids being column 0, scores column 1 and bboxes the columns
    from 2 on of every detection row. *)
Theorem hybrid_forward_modes {tensor} (F : mx tensor) (self : YOLOV3 tensor)
    (ag : autograd) (x : tensor) (args : list tensor) :
  wf_net self ->
  exists hts,
    length hts = depth self
    /\ heads_and_tips F self x hts
    /\ forward_loops F self ag x = Ok (collected F self ag hts)
    /\ let a := collected F self ag hts in
       match is_training ag, is_recording ag with
       | true, true =>
           hybrid_forward F self ag x args
           = Ok (Losses
                   (_loss self
                      ([concat F (all_objectness a);
                        concat F (all_box_centers a);
                        concat F (all_box_scales a);
                        concat F (all_class_pred a)]
                       ++ _target_generator self
                            (concat_dets F (all_detections a)) args)))
       | true, false =>
           hybrid_forward F self ag x args
           = Ok (RawPredictions
                   (concat_dets F (all_detections a))
                   (all_anchors a) (all_offsets a) (all_feat_maps a)
                   (concat F (all_box_centers a))
                   (concat F (all_box_scales a))
                   (concat F (all_objectness a))
                   (concat F (all_class_pred a)))
       | false, _ =>
           (forall r, hybrid_forward F self ag x args = Ok r ->
              exists result_,
                nms_stage F self (concat_dets F (all_detections a))
                = Ok result_
                /\ r = Detections (ids_of result_) (scores_of result_)
                                  (bboxes_of result_))
           /\ (forall result_,
                 nms_stage F self (concat_dets F (all_detections a))
                 = Ok result_ ->
                 Forall (Forall (fun row : list Q => (3 <= length row)%nat))
                        result_ ->
                 hybrid_forward F self ag x args
                 = Ok (Detections (ids_of result_) (scores_of result_)
                                  (bboxes_of result_)))
       end.
Proof.
  intros Hwf.
  destruct (forward_loops_collected F self ag x Hwf) as (hts & Ha & Hlen & Hht).
  exists hts. split; [exact Hlen |]. split; [exact Hht |].
  split; [exact Ha |]. cbv zeta.
  destruct (is_training ag) eqn:Et.
  - destruct (is_recording ag) eqn:Er; unfold hybrid_forward;
      rewrite Ha, Et, Er; reflexivity.
  - split.
    + intros r Hr.
      destruct (hybrid_forward_inference_inv F self ag x args r Et Hr)
        as (a' & result_ & Ha' & Hres & ->).
      rewrite Ha in Ha'. injection Ha' as <-. eauto.
    + intros result_ Hres Hw. unfold hybrid_forward.
      rewrite Ha, Et. cbn [bind]. rewrite Hres. cbn [bind].
      destruct (columns_wide result_ Hw) as (-> & -> & ->). reflexivity.
Qed.

(** A two-stage network over integer "tensors", for running the model. *)
Definition toy_head (x : Z) : preds Z :=
  {| bbox := [[[1; 2; 3; 4]%Q; [5; 6; 7; 8]%Q]];
     raw_box_centers := x; raw_box_scales := x + 1; objness := x + 2;
     class_pred := x + 3; anchors := 10; offsets := 20;
     confidence := [[9 # 10; 1 # 10]];
     class_score := [[[1 # 2; 3 # 5]; [1 # 10; 1 # 5]]] |}.

Definition toy_mx : mx Z :=
  {| concat := fun ts => foldr Z.add 0 ts;
     concat_dets := fun ds => foldr (zip_with app) [[]] ds;
     flatten := fun t => t;
     fake_featmap := fun _ => 0;
     upsample_concat := Z.add;
     box_nms := fun _ _ _ d => d |}.

Definition toy_net : YOLOV3 Z :=
  {| nms_thresh := 45 # 100; nms_topk := 400; post_nms := 100;
     agnostic := false; num_classes := 2;
     stages := [Z.succ]; yolo_blocks := [fun x => (x, 2 * x)];
     yolo_heads := [toy_head]; transitions := [];
     _target_generator := fun _ args => args;
     _loss := fun ts => (foldr Z.add 0 ts, 0, 0, 0) |}.

(** Two stages: the deeper output layer sees the second route, the
    shallower one the transition of the deeper block joined with the
    first route. *)
Definition toy_net2 : YOLOV3 Z :=
  {| nms_thresh := 45 # 100; nms_topk := 400; post_nms := 100;
     agnostic := false; num_classes := 2;
     stages := [Z.succ; Z.mul 10];
     yolo_blocks := [fun x => (x, 2 * x); fun x => (x, 3 * x)];
     yolo_heads := [toy_head; toy_head]; transitions := [Z.mul 7];
     _target_generator := fun _ args => args;
     _loss := fun ts => (foldr Z.add 0 ts, 0, 0, 0) |}.

Lemma hybrid_forward_modes_witness :
  exists hts,
    hts.*2 = [20; 213]
    /\ forward_loops toy_mx toy_net2
         {| is_training := true; is_recording := true |} 0
       = Ok (collected toy_mx toy_net2
                       {| is_training := true; is_recording := true |} hts)
    /\ hybrid_forward toy_mx toy_net2
         {| is_training := true; is_recording := true |} 0 [7]
       = Ok (Losses (951, 0, 0, 0)).
Proof.
  assert (Hwf : wf_net toy_net2) by (unfold wf_net; simpl; lia).
  destruct (hybrid_forward_modes toy_mx toy_net2
              {| is_training := true; is_recording := true |} 0 [7] Hwf)
    as (hts & Hlen & Hht & Ha & H).
  exists hts.
  destruct hts as [| [h0 t0] [| [h1 t1] [| h2 hts]]]; try discriminate Hlen.
  destruct (Hht 0%nat _ eq_refl) as [E0 T0].
  destruct (Hht 1%nat _ eq_refl) as [E1 T1].
  cbn in E0, E1. injection E0 as <-. injection E1 as <-.
  vm_compute in T0, T1. injection T0 as <-. injection T1 as <-.
  split; [reflexivity | split; [exact Ha |]].
  cbv zeta in H. cbn [is_training is_recording] in H. rewrite H.
  vm_compute. reflexivity.
Defined.

Example toy_inference :
  hybrid_forward toy_mx (set_nms toy_net (45 # 100) 400 3)
    {| is_training := false; is_recording := false |} 0 []
  = Ok (Detections [[[0]; [0]; [1]]]%Q
                   [[[1 # 2]; [1 # 10]; [3 # 5]]]
                   [[[1; 2; 3; 4]; [5; 6; 7; 8]; [1; 2; 3; 4]]]%Q).
Proof. vm_compute. reflexivity. Qed.

(** *** Non-maximum suppression *)

Lemma nms_on_iff (t : Q) :
  Qltb 0 t && Qltb t 1 = true <-> (0 < t)%Q /\ (t < 1)%Q.
Proof. now rewrite andb_true_iff, !Qltb_lt. Qed.

Lemma set_nms_same {tensor} (self : YOLOV3 tensor) :
  set_nms self (nms_thresh self) (nms_topk self) (post_nms self) = self.
Proof. destruct self. reflexivity. Qed.

(** C2.  After [set_nms(t, topk, post)], the inference pass leaves the
    concatenated detections unfiltered when [t <= 0] or [t >= 1], and runs
    [box_nms] on them exactly when [0 < t < 1]; when it does and
    [post > 0], the result is the first [post] rows of every image, so a
    returned result, and the ids, scores and bboxes cut from it, have at
    most [post] rows per image. *)
Theorem nms_gating {tensor} (F : mx tensor) (self : YOLOV3 tensor)
    (t : Q) (topk post : Z) (result_ : dets) :
  let net := set_nms self t topk post in
  let filtered := box_nms F t (1 # 100) topk result_ in
  (~ ((0 < t)%Q /\ (t < 1)%Q) -> nms_stage F net result_ = Ok result_)
  /\ ((0 < t)%Q /\ (t < 1)%Q ->
      (post <= 0 -> nms_stage F net result_ = Ok filtered)
      /\ (0 < post ->
          nms_stage F net result_ = slice_axis1 filtered 0 (Some post)
          /\ (forall r, nms_stage F net result_ = Ok r ->
                 r = map (take (Z.to_nat post)) filtered
                 /\ Forall (fun img => (length img <= Z.to_nat post)%nat) r)
          /\ (Forall (fun img => (Z.to_nat post <= length img)%nat) filtered ->
              nms_stage F net result_
              = Ok (map (take (Z.to_nat post)) filtered))))
  /\ (forall ag x args ids scores bboxes,
        (0 < t)%Q /\ (t < 1)%Q -> 0 < post ->
        is_training ag = false ->
        hybrid_forward F net ag x args = Ok (Detections ids scores bboxes) ->
        Forall (fun img => (length img <= Z.to_nat post)%nat) ids
        /\ Forall (fun img => (length img <= Z.to_nat post)%nat) scores
        /\ Forall (fun img => (length img <= Z.to_nat post)%nat) bboxes).
Proof.
  intros net filtered.
  assert (Hoff : ~ ((0 < t)%Q /\ (t < 1)%Q) ->
                 forall d, nms_stage F net d = Ok d).
  { intros Hn d. unfold nms_stage. cbn.
    destruct (Qltb 0 t && Qltb t 1) eqn:E; [| reflexivity].
    apply nms_on_iff in E. contradiction. }
  assert (Hon : (0 < t)%Q /\ (t < 1)%Q -> 0 < post ->
                forall d, nms_stage F net d
                          = slice_axis1 (box_nms F t (1 # 100) topk d) 0
                                        (Some post)).
  { intros Ht Hp d. unfold nms_stage. cbn.
    rewrite (proj2 (nms_on_iff t) Ht).
    now replace (0 <? post) with true by (symmetry; lia). }
  split; [intros Hn; now apply Hoff |]. split.
  - intros Ht. split; [| intros Hp; split; [now apply Hon | split]].
    + intros Hp. unfold nms_stage. cbn.
      rewrite (proj2 (nms_on_iff t) Ht).
      now replace (0 <? post) with false by (symmetry; lia).
    + intros r Hr. rewrite Hon in Hr by assumption.
      apply slice_axis1_Ok in Hr; [exact Hr | lia].
    + intros Hlong. rewrite Hon by assumption. unfold slice_axis1.
      apply mapM_Ok. intros img Himg.
      pose proof (proj1 (Forall_forall _ _) Hlong img Himg) as Hlen.
      cbn in Hlen.
      destruct (Z.eq_dec (Z.of_nat (length img)) 0) as [H0 | H0]; [lia |].
      rewrite slice_list_wide by lia.
      now rewrite Z.sub_0_r, drop_0.
  - intros ag x args ids scores bboxes Ht Hp Htr Hfw.
    apply hybrid_forward_inference_inv in Hfw
      as (a & r & _ & Hr & [= -> -> ->]); [| exact Htr].
    rewrite Hon in Hr by assumption.
    apply slice_axis1_Ok in Hr as [_ Hr]; [| lia].
    unfold ids_of, scores_of, bboxes_of.
    repeat split; apply Forall_forall; intros img Hin;
      apply list_elem_of_In, in_map_iff in Hin as (img0 & <- & Hin0);
      rewrite length_map;
      apply (proj1 (Forall_forall _ _) Hr img0); now apply list_elem_of_In.
Qed.

Lemma nms_gating_witness :
  nms_stage toy_mx (set_nms toy_net (45 # 100) 400 1)
            [[[0; 1 # 2; 1; 2; 3; 4]; [1; 3 # 5; 1; 2; 3; 4]]]%Q
  = Ok [[[0; 1 # 2; 1; 2; 3; 4]]]%Q
  /\ nms_stage toy_mx (set_nms toy_net 1 400 1)
               [[[0; 1 # 2; 1; 2; 3; 4]; [1; 3 # 5; 1; 2; 3; 4]]]%Q
     = Ok [[[0; 1 # 2; 1; 2; 3; 4]; [1; 3 # 5; 1; 2; 3; 4]]]%Q.
Proof.
  pose (d := [[[0; 1 # 2; 1; 2; 3; 4]; [1; 3 # 5; 1; 2; 3; 4]]]%Q).
  split.
  - destruct (nms_gating toy_mx toy_net (45 # 100) 400 1 d)
      as (_ & Hon & _).
    assert (Ht : (0 < 45 # 100)%Q /\ (45 # 100 < 1)%Q)
      by (split; vm_compute; reflexivity).
    destruct (Hon Ht) as (_ & Hpost).
    destruct (Hpost ltac:(lia)) as (_ & _ & Hfull).
    apply Hfull. repeat constructor.
  - destruct (nms_gating toy_mx toy_net 1 400 1 d) as (Hoff & _).
    apply Hoff. intros [_ H]. vm_compute in H. discriminate H.
Defined.

(** *** Hierarchical class masking in [YOLOOutputV3] *)

Section HierMask.
Variables (levels leafs : list Z) (box_scores : list Q).
Hypothesis Hlevels : levels <> [].
Hypothesis Hleafs : length leafs = length levels.
Hypothesis Hscores : length box_scores = length levels.









End HierMask.


(** Three classes: class 0 is an inner node at level 1, classes 1 and 2 are
    its leaves at level 2. *)
Definition tree_levels : list Z := [1; 2; 2].
Definition tree_leafs : list Z := [0; 1; 1].



Definition inference : autograd :=
  {| is_training := false; is_recording := false |}.


(** The three cases on one image: a leaf passes at level 2; only the inner
    node passes, at level 1; nothing passes. *)
Example mask_box_run :
  mapM (mask_box tree_levels tree_leafs)
       [[9 # 10; 1 # 2; 1 # 5]; [9 # 10; 1 # 10; 1 # 5];
        [1 # 10; 1 # 10; 1 # 10]]
  = Ok [[0 * (9 # 10); 1 * (1 # 2); 0 * (1 # 5)];
        [1 * (9 # 10); 0 * (1 # 10); 0 * (1 # 5)];
        [0 * (1 # 10); 0 * (1 # 10); 0 * (1 # 10)]]%Q.
Proof. vm_compute. reflexivity. Qed.


End Yolo3Spec.

(** ** train_yolov3.py *)

Module TrainDriverSpec.
Import Py PyFacts TrainDriver.






Section MainFacts.
Context {ctx data trained_on names nets : Type}.
Variables
  (contexts : flags -> result (list ctx))
  (get_datasets : flags -> result (data * trained_on))
  (experiment_exists : flags -> bool)
  (save_prefix : flags -> result string)
  (classes : trained_on -> result names)
  (build : bool -> names -> builder_call -> result nets)
  (resume_or_initialize : flags -> nets -> result Z)
  (run_training : flags -> data -> nets -> Z -> string -> result unit).

Local Abbreviation main_ :=
  (main contexts get_datasets experiment_exists save_prefix classes build
        resume_or_initialize run_training).
Local Abbreviation main_body_ :=
  (main_body contexts get_datasets experiment_exists save_prefix classes
             build resume_or_initialize run_training).
Local Abbreviation get_net_ :=
  (get_net (ctx := ctx) classes build resume_or_initialize).



End MainFacts.

(** The default single-frame run, asked to join by max pooling. *)
Definition single_frame_flags : flags :=
  {| window := [1; 1]; dataset := ["voc"%string];
     k_join_type := Some "max"%string; k_join_pos := Some "late"%string;
     block_conv_type := "2"; rnn_pos := None; corr_pos := None;
     num_workers := -1; features_dir := None; network := "darknet53";
     conv_types := [2; 2; 2; 2; 2; 2]; syncbn := false |}.


(** A stand-in for the rest of the program, for running [main]: one cpu
    context, [get_dataset] of this file on the flags, the builder call
    itself as the network, and a training that ends at once. *)
Definition toy_datasets (f : flags)
  : result (TrainData.detection_dataset * TrainData.detection_dataset
            * TrainData.metric * unit) :=
  let* ds := TrainData.get_dataset false false (window f) (dataset f) [] in
  Ok (ds, tt).

Definition toy_main : Z -> flags -> result unit :=
  main (fun _ => Ok [tt]) toy_datasets (fun _ => false)
       (fun _ => Ok "models/experiments/0000"%string)
       (fun _ : unit => Ok tt)
       (fun _ _ call => Ok call)
       (fun _ _ => Ok 0)
       (fun _ _ _ _ _ => Ok tt).


Example main_single_frame_run :
  toy_main 8 single_frame_flags = Ok tt
  /\ get_net (fun _ : unit => Ok tt) (fun _ _ call => Ok call)
             (fun _ _ => Ok 0)
             (set_num_workers (set_no_join single_frame_flags) 8) tt [tt]
     = Ok (call_darknet53
             {| kw_k := 1; kw_k_join_type := None; kw_k_join_pos := None;
                kw_block_conv_type := "2"; kw_rnn_pos := None;
                kw_corr_pos := None |}, 0)
  /\ toy_main 8
       {| window := [1; 1]; dataset := ["foo"%string];
          k_join_type := None; k_join_pos := None;
          block_conv_type := "2"; rnn_pos := None; corr_pos := None;
          num_workers := -1; features_dir := None; network := "darknet53";
          conv_types := [2; 2; 2; 2; 2; 2]; syncbn := false |}
     = Raise NotImplementedError.
Proof. repeat split; vm_compute; reflexivity. Qed.

End TrainDriverSpec.

(** ** detect_yolo3.py *)

Module DetectDriverSpec.
Import Py PyFacts DetectDriver.

Lemma where_ge0_spec (ids : list Q) :
  forall i n, n ∈ where_ge0 i ids ->
              (i <= n)%nat
              /\ exists v, ids !! (n - i)%nat = Some v /\ (0 <= v)%Q.
Proof.
  induction ids as [| v rest IH]; intros i n Hn; simpl in Hn.
  - inversion Hn.
  - assert (Hrest : n ∈ where_ge0 (S i) rest ->
                    (i <= n)%nat
                    /\ exists v0, (v :: rest) !! (n - i)%nat = Some v0
                                  /\ (0 <= v0)%Q).
    { intros H. destruct (IH _ _ H) as (Hle & v0 & Hv0 & Hge).
      split; [lia |]. exists v0. split; [| exact Hge].
      replace (n - i)%nat with (S (n - S i)) by lia. exact Hv0. }
    destruct (Qle_bool 0 v) eqn:Ev; [| now apply Hrest].
    apply elem_of_cons in Hn as [-> | Hn]; [| now apply Hrest].
    split; [lia |]. exists v. rewrite Nat.sub_diag.
    split; [reflexivity | now apply Qle_bool_iff].
Qed.

Lemma where_ge0_bound (ids : list Q) :
  forall i n, n ∈ where_ge0 i ids -> (n < i + length ids)%nat.
Proof.
  intros i n Hn. destruct (where_ge0_spec ids i n Hn) as (Hle & v & Hv & _).
  apply lookup_lt_Some in Hv. lia.
Qed.

Lemma np_take_Forall2 {A} (a : list A) (idx : list nat) (l : list A) :
  np_take a idx = Ok l -> Forall2 (fun i v => a !! i = Some v) idx l.
Proof.
  unfold np_take. revert l. induction idx as [| i idx IH]; intros l; simpl.
  - intros [= <-]. constructor.
  - destruct (a !! i) as [v |] eqn:Ev; simpl; [| discriminate].
    destruct (mapM _ idx) as [vs |]; simpl; [| discriminate].
    intros [= <-]. constructor; [exact Ev | now apply IH].
Qed.

Lemma np_take_Ok {A} (a : list A) (idx : list nat) :
  Forall (fun i => (i < length a)%nat) idx -> exists l, np_take a idx = Ok l.
Proof.
  intros H. unfold np_take.
  destruct (mapM_Forall2
              (fun i => match a !! i with
                        | Some v => Ok v
                        | None => Raise IndexError
                        end) (fun _ _ => True) idx) as (l & Hl & _);
    [| eauto].
  intros i Hi. pose proof (proj1 (Forall_forall _ _) H i Hi) as Hlt.
  destruct (lookup_lt_is_Some_2 a i Hlt) as [v ->]. eauto.
Qed.

Lemma astype_int_nonneg (v : Q) : (0 <= v)%Q -> 0 <= astype_int v.
Proof.
  intros H. unfold astype_int. apply Z.quot_pos; [| lia].
  unfold Qle in H. simpl in H. lia.
Qed.

Section DetectFacts.
Variable sample_path : Z -> string.
Variable len_dataset : Z.
Variable detection_threshold : Q.

(** [det] is what [detect] records for detection [n] of [img]. *)
Definition from_image (shape2_ : Z) (img : image) (det : list Q) : Prop :=
  exists n idv sc bx,
    id img !! n = Some idv /\ score img !! n = Some sc
    /\ box img !! n = Some bx
    /\ (0 <= idv)%Q /\ (detection_threshold < sc)%Q
    /\ det = detection (astype_int idv) sc
               (map (fun v => (clip (inject_Z shape2_) v
                               / inject_Z shape2_)%Q) bx).

Definition boxes_ok (P : string -> list Q -> Prop)
    (boxes : gmap string (list (list Q))) : Prop :=
  forall file l, boxes !! file = Some l -> l <> [] /\ Forall (P file) l.

Lemma record_ok (P : string -> list Q -> Prop) (file : string)
    (boxes : gmap string (list (list Q))) (z : Z * (list Q * Q)) :
  boxes_ok P boxes ->
  ((detection_threshold < z.2.2)%Q -> P file (detection z.1 z.2.2 z.2.1)) ->
  boxes_ok P (record file detection_threshold boxes z).
Proof.
  intros Hok HP. destruct z as [id_ [box_ score_]]. cbn in HP.
  unfold record.
  destruct (Qltb detection_threshold score_) eqn:Et; [| exact Hok].
  apply Qltb_lt in Et. specialize (HP Et).
  destruct (boxes !! file) as [l |] eqn:El; intros file' l' Hl'.
  - destruct (decide (file = file')) as [<- | Hne].
    + rewrite lookup_insert_eq in Hl'. injection Hl' as <-.
      split; [destruct l; discriminate |].
      apply Forall_app. split; [exact (proj2 (Hok _ _ El)) |].
      now constructor.
    + rewrite lookup_insert_ne in Hl' by exact Hne. now apply Hok.
  - destruct (decide (file = file')) as [<- | Hne].
    + rewrite lookup_insert_eq in Hl'. injection Hl' as <-.
      split; [discriminate | now constructor].
    + rewrite lookup_insert_ne in Hl' by exact Hne. now apply Hok.
Qed.

Lemma fold_record_ok (P : string -> list Q -> Prop) (file : string)
    (zs : list (Z * (list Q * Q))) :
  forall boxes,
    boxes_ok P boxes ->
    (forall z, z ∈ zs -> (detection_threshold < z.2.2)%Q ->
               P file (detection z.1 z.2.2 z.2.1)) ->
    boxes_ok P (fold_left (record file detection_threshold) zs boxes).
Proof.
  induction zs as [| z zs IH]; intros boxes Hok HP; simpl; [exact Hok |].
  apply IH.
  - apply record_ok; [exact Hok |]. apply HP. left.
  - intros z' Hz'. apply HP. now right.
Qed.

Lemma detect_image_ok (P : string -> list Q -> Prop) (shape2_ : Z)
    (boxes boxes' : gmap string (list (list Q))) (img : image) :
  boxes_ok P boxes ->
  (forall det, from_image shape2_ img det -> P (sample_path (sidx img)) det) ->
  detect_image sample_path detection_threshold shape2_ boxes img = Ok boxes' ->
  boxes_ok P boxes'.
Proof.
  intros Hok HP. unfold detect_image.
  intros H. apply bind_Ok in H as (box_ & Hbox & H).
  apply bind_Ok in H as (id_ & Hid & H).
  apply bind_Ok in H as (score_ & Hscore & H). injection H as <-.
  apply np_take_Forall2 in Hbox, Hid, Hscore.
  rewrite (map_is_fmap astype_int id_).
  rewrite (map_is_fmap (map (fun v => (v / inject_Z shape2_)%Q)) box_).
  rewrite (map_is_fmap (map (clip (inject_Z shape2_))) (box img)) in Hbox.
  apply fold_record_ok; [exact Hok |].
  intros [i_ [b_ s_]] Hz Hthr. cbn in Hthr |- *.
  apply list_elem_of_lookup in Hz as [j Hj].
  apply lookup_zip_with_Some in Hj as (i0 & bs0 & [= <- <-] & Hi0 & Hbs0).
  apply lookup_zip_with_Some in Hbs0 as (b0 & s0 & [= <- <-] & Hb0 & Hs0).
  apply HP.
  rewrite list_lookup_fmap in Hi0. rewrite list_lookup_fmap in Hb0.
  destruct (id_ !! j) as [idv |] eqn:Eid; [| discriminate].
  destruct (box_ !! j) as [bc |] eqn:Ebox; [| discriminate].
  cbn in Hi0, Hb0. injection Hi0 as <-. injection Hb0 as <-.
  destruct (Forall2_lookup_r _ _ _ _ _ Hid Eid) as (n & Hn & Hidn).
  destruct (Forall2_lookup_r _ _ _ _ _ Hbox Ebox) as (n1 & Hn1 & Hboxn).
  destruct (Forall2_lookup_r _ _ _ _ _ Hscore Hs0) as (n2 & Hn2 & Hscn).
  rewrite Hn in Hn1, Hn2. injection Hn1 as <-. injection Hn2 as <-.
  rewrite list_lookup_fmap in Hboxn.
  destruct (box img !! n) as [bx |] eqn:Ebx; [| discriminate].
  cbn in Hboxn. injection Hboxn as <-.
  assert (Hge : (0 <= idv)%Q).
  { apply list_elem_of_lookup_2 in Hn.
    destruct (where_ge0_spec _ _ _ Hn) as (_ & v & Hv & Hge).
    rewrite Nat.sub_0_r in Hv. congruence. }
  exists n, idv, s_, bx. repeat split; try assumption.
  now rewrite map_map.
Qed.

Lemma detect_images_ok (P : string -> list Q -> Prop) (shape2_ : Z)
    (imgs : list image) :
  forall boxes boxes',
    boxes_ok P boxes ->
    (forall img det, img ∈ imgs -> from_image shape2_ img det ->
                     P (sample_path (sidx img)) det) ->
    detect_images sample_path detection_threshold shape2_ imgs boxes
    = Ok boxes' ->
    boxes_ok P boxes'.
Proof.
  induction imgs as [| img rest IH]; intros boxes boxes' Hok HP; simpl.
  - now intros [= <-].
  - intros H. apply bind_Ok in H as (b1 & Hb1 & H).
    apply (IH b1 boxes'); [| | exact H].
    + apply (detect_image_ok P shape2_ boxes b1 img Hok); [| exact Hb1].
      intros det. apply HP. left.
    + intros img' det Hin. apply HP. now right.
Qed.

Lemma detect_batches_ok (P : string -> list Q -> Prop) (max_do : Z)
    (batches : list batch) :
  forall c boxes boxes',
    boxes_ok P boxes ->
    (forall b img det, b ∈ batches -> img ∈ images b ->
                       from_image (shape2 b) img det ->
                       P (sample_path (sidx img)) det) ->
    detect_batches sample_path detection_threshold max_do batches c boxes
    = Ok boxes' ->
    boxes_ok P boxes'.
Proof.
  induction batches as [| b rest IH]; intros c boxes boxes' Hok HP; simpl.
  - now intros [= <-].
  - intros H. apply bind_Ok in H as (b1 & Hb1 & H).
    assert (Hok1 : boxes_ok P b1).
    { apply (detect_images_ok P (shape2 b) (images b) boxes b1 Hok);
        [| exact Hb1].
      intros img det Hin. apply HP; [left | exact Hin]. }
    destruct (max_do <? c + Z.of_nat (length (images b))).
    + now injection H as <-.
    + apply (IH (c + Z.of_nat (length (images b))) b1 boxes' Hok1);
        [| exact H].
      intros b' img det Hb'. apply HP. now right.
Qed.

(** The network returns as many scores and boxes as ids. *)
Definition well_shaped (batches : list batch) : Prop :=
  Forall (fun b =>
            Forall (fun img => length (score img) = length (id img)
                               /\ length (box img) = length (id img))
                   (images b)) batches.

Lemma detect_image_total (shape2_ : Z)
    (boxes : gmap string (list (list Q))) (img : image) :
  length (score img) = length (id img) ->
  length (box img) = length (id img) ->
  exists boxes',
    detect_image sample_path detection_threshold shape2_ boxes img = Ok boxes'.
Proof.
  intros Hs Hb. unfold detect_image.
  assert (Hidx : Forall (fun i => (i < length (id img))%nat)
                        (where_ge0 0 (id img))).
  { apply Forall_forall. intros i Hi. now apply where_ge0_bound in Hi. }
  destruct (np_take_Ok (map (map (clip (inject_Z shape2_))) (box img))
              (where_ge0 0 (id img))) as [l1 ->].
  { now rewrite length_map, Hb. }
  cbn [bind]. destruct (np_take_Ok (id img) (where_ge0 0 (id img)) Hidx)
    as [l2 ->].
  cbn [bind]. destruct (np_take_Ok (score img) (where_ge0 0 (id img)))
    as [l3 ->]; [now rewrite Hs |].
  cbn [bind]. eauto.
Qed.

Lemma detect_total (batches : list batch) (max_do : Z) :
  well_shaped batches ->
  exists boxes,
    detect sample_path len_dataset batches detection_threshold max_do
    = Ok boxes.
Proof.
  intros Hw. unfold detect.
  generalize (if max_do <? 0 then len_dataset else max_do). intros m.
  generalize 0. generalize (∅ : gmap string (list (list Q))).
  induction Hw as [| b rest Hb Hrest IH]; intros boxes c; simpl; [eauto |].
  assert (Himgs : forall bx, exists b1,
             detect_images sample_path detection_threshold (shape2 b)
                           (images b) bx = Ok b1).
  { induction Hb as [| img imgs [Hs Hbx] Himgs IHi]; intros bx; simpl;
      [eauto |].
    destruct (detect_image_total (shape2 b) bx img Hs Hbx) as [b1 ->].
    cbn [bind]. apply IHi. }
  destruct (Himgs boxes) as [b1 ->]. cbn [bind].
  destruct (m <? c + Z.of_nat (length (images b))); eauto.
Qed.

End DetectFacts.

Lemma clip_range (hi v : Q) :
  (0 <= hi)%Q -> (0 <= clip hi v)%Q /\ (clip hi v <= hi)%Q.
Proof.
  intros Hhi. unfold clip.
  destruct (max_cases v 0) as [[H ->] | [H ->]];
    [destruct (min_cases 0 hi) as [[H' ->] | [H' ->]]
    | destruct (min_cases v hi) as [[H' ->] | [H' ->]]]; lra.
Qed.

Lemma clip_normalised (shape2_ : Z) (v : Q) :
  0 < shape2_ ->
  (0 <= clip (inject_Z shape2_) v / inject_Z shape2_)%Q
  /\ (clip (inject_Z shape2_) v / inject_Z shape2_ <= 1)%Q.
Proof.
  intros Hs.
  assert (Hpos : (0 < inject_Z shape2_)%Q).
  { unfold Qlt, inject_Z. simpl. lia. }
  destruct (clip_range (inject_Z shape2_) v) as [H0 H1]; [lra |].
  split.
  - apply Qle_shift_div_l; [exact Hpos | lra].
  - apply Qle_shift_div_r; [exact Hpos | lra].
Qed.

(** C6.  Every key of the dict that [detect] returns is the path of a
    sample for which at least one detection was recorded, and every
    recorded detection is [class_id, score] followed by the box of some
    detection of that sample, with class id >= 0, score strictly above
    [detection_threshold], and box coordinates clipped to the input data
    shape and divided by it (6 elements for a 4-coordinate box, each
    coordinate in [0, 1] for a positive shape).  [detect] returns whenever
    the network gives as many scores and boxes as ids. *)
Theorem detect_records (sample_path : Z -> string) (len_dataset : Z)
    (batches : list batch) (detection_threshold : Q) (max_do : Z) :
  (forall boxes,
     detect sample_path len_dataset batches detection_threshold max_do
     = Ok boxes ->
     forall file l,
       boxes !! file = Some l ->
       l <> []
       /\ Forall
            (fun det =>
               exists b img n idv sc bx,
                 b ∈ batches /\ img ∈ images b
                 /\ sample_path (sidx img) = file
                 /\ id img !! n = Some idv /\ score img !! n = Some sc
                 /\ box img !! n = Some bx
                 /\ det = [inject_Z (astype_int idv); sc]
                          ++ map (fun v => (clip (inject_Z (shape2 b)) v
                                            / inject_Z (shape2 b))%Q) bx
                 /\ 0 <= astype_int idv
                 /\ (detection_threshold < sc)%Q
                 /\ (length bx = 4%nat -> length det = 6%nat)
                 /\ (0 < shape2 b ->
                     Forall (fun c => (0 <= c)%Q /\ (c <= 1)%Q) (drop 2 det)))
            l)
  /\ (well_shaped batches ->
      exists boxes,
        detect sample_path len_dataset batches detection_threshold max_do
        = Ok boxes).
Proof.
  split; [| apply detect_total].
  intros boxes Hd file l Hl.
  set (P := fun (file : string) (det : list Q) =>
              exists b img, b ∈ batches /\ img ∈ images b
                            /\ sample_path (sidx img) = file
                            /\ from_image detection_threshold (shape2 b)
                                           img det).
  assert (Hok : boxes_ok P boxes).
  { unfold detect in Hd.
    apply (detect_batches_ok sample_path detection_threshold P
             (if max_do <? 0 then len_dataset else max_do) batches
             0 ∅ boxes); [| | exact Hd].
    - intros f l0 H0. rewrite lookup_empty in H0. discriminate H0.
    - intros b img det Hb Himg Hfrom. exists b, img. auto. }
  destruct (Hok file l Hl) as [Hne HF]. split; [exact Hne |].
  apply (Forall_impl _ _ _ HF). intros det (b & img & Hb & Himg & Hfile & Hfrom).
  destruct Hfrom as (n & idv & sc & bx & Hid & Hsc & Hbx & Hge & Hthr & ->).
  exists b, img, n, idv, sc, bx.
  repeat (split; [assumption || reflexivity |]).
  split; [now apply astype_int_nonneg |]. split; [exact Hthr |]. split.
  - intros H4. unfold detection. rewrite length_app, length_map, H4.
    reflexivity.
  - intros Hpos. unfold detection. cbn [app drop].
    apply Forall_forall. intros c Hc.
    apply list_elem_of_In, in_map_iff in Hc as (v & <- & _).
    now apply clip_normalised.
Qed.

(** One batch of one 416-pixel image: a detection of class 3 and a padded
    row of -1. *)
Definition one_batch : list batch :=
  [{| shape2 := 416;
      images := [{| sidx := 0;
                    id := [3; -1]%Q;
                    score := [9 # 10; -1]%Q;
                    box := [[0; 0; 208; 500]%Q; [-1; -1; -1; -1]%Q] |}] |}].

Lemma detect_records_witness :
  exists boxes,
    detect (fun _ => "img0.jpg"%string) 1 one_batch (1 # 2) (-1) = Ok boxes
    /\ forall file l, boxes !! file = Some l -> l <> [].
Proof.
  destruct (detect_records (fun _ => "img0.jpg"%string) 1 one_batch (1 # 2)
              (-1)) as [Hrec Htot].
  destruct Htot as [boxes Hboxes]; [repeat constructor |].
  exists boxes. split; [exact Hboxes |].
  intros file l Hl. exact (proj1 (Hrec boxes Hboxes file l Hl)).
Defined.

Example detect_run :
  exists boxes,
    detect (fun _ => "img0.jpg"%string) 1 one_batch (1 # 2) (-1) = Ok boxes
    /\ boxes !! "img0.jpg"%string
       = Some [[3; 9 # 10; 0 / 416; 0 / 416; 208 / 416; 416 / 416]%Q]
    /\ boxes !! "other.jpg"%string = None.
Proof. eexists. repeat split; vm_compute; reflexivity. Qed.

End DetectDriverSpec.

(** ** datasets/youtubebb.py: labels, grouping, the dataset object *)

Module YouTubeBBDataSpec.
Import Py PyFacts PyStr YouTubeBB YouTubeBBSpec YouTubeBBData.

(** *** [iou] on a box and itself, and on normalised boxes *)





(** In float64, on the same box (0.1, 0.2, 0.5, 0.6). *)
Example iou_f64_self :
  let a := FBox 0x1.999999999999ap-4 0x1.999999999999ap-3 0x1p-1
                0x1.3333333333333p-1 in
  iou_f64 a a = 1%float.
Proof. vm_compute. reflexivity. Qed.

(** A box as [_validate_label] returns it. *)
Definition box_valid (a : box) : Prop :=
  valid_box (b0 a) (b1 a) (b2 a) (b3 a).

(** X2.  On the normalised boxes of this dataset the "+ 1" of the pixel
    convention makes every pair overlap: [iou] is strictly positive for
    any two boxes that [_validate_label] accepts, wherever they lie. *)
Theorem iou_normalised_positive (a b : box) :
  box_valid a -> box_valid b -> (0 < iou a b)%Q.
Proof.
  intros (Ha0 & Ha1 & Ha2 & Ha3) (Hb0 & Hb1 & Hb2 & Hb3).
  assert (Hw : (0 < iw a b)%Q).
  { unfold iw.
    destruct (min_cases (b2 a) (b2 b)) as [[H ->] | [H ->]],
             (max_cases (b0 a) (b0 b)) as [[H' ->] | [H' ->]]; lra. }
  assert (Hh : (0 < ih a b)%Q).
  { unfold ih.
    destruct (min_cases (b3 a) (b3 b)) as [[H ->] | [H ->]],
             (max_cases (b1 a) (b1 b)) as [[H' ->] | [H' ->]]; lra. }
  unfold iou. cbv zeta.
  rewrite (proj2 (Qltb_lt _ _) Hw), (proj2 (Qltb_lt _ _) Hh). simpl.
  destruct (iw_le_width a b) as [Hwa Hwb], (ih_le_height a b) as [Hha Hhb].
  set (w := iw a b) in *. set (h := ih a b) in *.
  set (wa := (b2 a - b0 a + 1)%Q) in *. set (ha := (b3 a - b1 a + 1)%Q) in *.
  set (wb := (b2 b - b0 b + 1)%Q) in *. set (hb := (b3 b - b1 b + 1)%Q) in *.
  assert (Hi : (0 < w * h)%Q) by nra.
  assert (Hb : (w * h <= wb * hb)%Q) by nra.
  assert (Hu : (0 < wa * ha + wb * hb - w * h)%Q) by nra.
  apply Qlt_shift_div_l; [exact Hu | lra].
Qed.

Lemma iou_normalised_positive_witness :
  let a := Box 0%Q 0%Q (1 # 10) (1 # 10) in
  let b := Box (9 # 10) (9 # 10) 1%Q 1%Q in
  box_valid a /\ box_valid b /\ (0 < iou a b)%Q /\ (iou a b == 2 # 119)%Q.
Proof.
  intros a b.
  assert (Ha : box_valid a)
    by (unfold box_valid, valid_box; simpl; repeat split; lra).
  assert (Hb : box_valid b)
    by (unfold box_valid, valid_box; simpl; repeat split; lra).
  split; [exact Ha | split; [exact Hb | split]].
  - exact (iou_normalised_positive a b Ha Hb).
  - vm_compute. reflexivity.
Defined.

(** *** [_load_label]: what the rows of a label are *)

(** [r] is the row that the object [o] of [sample] contributes. *)
Definition label_row (class_ids : list Z) (index_map : gmap Z Z)
    (sid : string) (sample : list obj) (r : list Q) : Prop :=
  exists o c x y x' y',
    o ∈ sample /\ o_cls o ∈ class_ids /\ index_map !! o_cls o = Some c
    /\ o_presence o <> "absent"%string
    /\ _validate_label (o_xmin o) (o_ymin o) (o_xmax o) (o_ymax o) sid
       = Ok (x, y, x', y')
    /\ valid_box x y x' y'
    /\ r = [x; y; x'; y'; inject_Z c; inject_Z (o_trk o)].

Lemma label_row_mono (cids : list Z) (imap : gmap Z Z) (sid : string)
    (s s' : list obj) (r : list Q) :
  (forall o, o ∈ s -> o ∈ s') ->
  label_row cids imap sid s r -> label_row cids imap sid s' r.
Proof.
  intros Hs (o & c & x & y & x' & y' & Ho & H).
  exists o, c, x, y, x', y'. split; [now apply Hs | exact H].
Qed.

Lemma label_row_length (cids : list Z) (imap : gmap Z Z) (sid : string)
    (s : list obj) (r : list Q) :
  label_row cids imap sid s r -> length r = 6%nat.
Proof. intros (o & c & x & y & x' & y' & _ & _ & _ & _ & _ & _ & ->). reflexivity. Qed.

Lemma load_obj_Ok (cids : list Z) (imap : gmap Z Z) (sid : string)
    (label label' : list (list Q)) (o : obj) :
  load_obj cids imap sid label o = Ok label' ->
  label' = label
  \/ exists r, label' = label ++ [r] /\ label_row cids imap sid [o] r.
Proof.
  unfold load_obj.
  destruct (bool_decide (o_cls o ∈ cids)) eqn:Ec; simpl;
    [| intros [= <-]; now left].
  apply bool_decide_eq_true in Ec.
  destruct (imap !! o_cls o) as [c |] eqn:Em; [| discriminate].
  destruct (String.eqb (o_presence o) "absent") eqn:Ep; simpl;
    [intros [= <-]; now left |].
  destruct (_ || _); [intros [= <-]; now left |].
  destruct (_validate_label (o_xmin o) (o_ymin o) (o_xmax o) (o_ymax o) sid)
    as [[[[x y] x'] y'] | e] eqn:Ev.
  - intros [= <-]. right. eexists. split; [reflexivity |].
    exists o, c, x, y, x', y'.
    split; [apply list_elem_of_singleton; reflexivity |].
    split; [exact Ec |]. split; [exact Em |].
    split; [now apply String.eqb_neq |].
    split; [exact Ev |].
    split; [exact (validate_label_Ok _ _ _ _ _ _ _ _ _ Ev) | reflexivity].
  - destruct e; intros [= <-]; now left.
Qed.

(** Nothing but a missing [index_map] entry makes the loop body raise. *)
Lemma load_obj_Raise (cids : list Z) (imap : gmap Z Z) (sid : string)
    (label : list (list Q)) (o : obj) (e : exn) :
  load_obj cids imap sid label o = Raise e ->
  e = KeyError /\ o_cls o ∈ cids /\ imap !! o_cls o = None.
Proof.
  unfold load_obj.
  destruct (bool_decide (o_cls o ∈ cids)) eqn:Ec; simpl; [| discriminate].
  apply bool_decide_eq_true in Ec.
  destruct (imap !! o_cls o) as [c |] eqn:Em;
    [| intros [= <-]; repeat split; assumption].
  destruct (_ || _); [discriminate |].
  destruct (_validate_label (o_xmin o) (o_ymin o) (o_xmax o) (o_ymax o) sid)
    as [[[[x y] x'] y'] | e'] eqn:Ev; [discriminate |].
  apply validate_label_Raise in Ev as [Ev _].
  destruct e'; discriminate.
Qed.


Lemma load_objs_Ok (cids : list Z) (imap : gmap Z Z) (sid : string)
    (sample : list obj) :
  forall label label',
    load_objs cids imap sid label sample = Ok label' ->
    exists new, label' = label ++ new
                /\ Forall (label_row cids imap sid sample) new
                /\ (length new <= length sample)%nat.
Proof.
  induction sample as [| o rest IH]; intros label label'; simpl.
  - intros [= <-]. exists []. rewrite app_nil_r. repeat split; auto.
  - intros H. apply bind_Ok in H as (l1 & H1 & H2).
    apply IH in H2 as (new & -> & Hnew & Hlen).
    assert (Hrest : Forall (label_row cids imap sid (o :: rest)) new).
    { eapply Forall_impl; [exact Hnew |]. intros r.
      apply label_row_mono. intros o' Ho'. now right. }
    apply load_obj_Ok in H1 as [-> | (r & -> & Hr)].
    + exists new. repeat split; [exact Hrest | simpl; lia].
    + exists (r :: new). rewrite <- app_assoc. repeat split.
      * constructor; [| exact Hrest].
        revert Hr. apply label_row_mono. intros o' Ho'.
        apply list_elem_of_singleton in Ho' as ->. left.
      * simpl. lia.
Qed.

Lemma load_objs_Raise (cids : list Z) (imap : gmap Z Z) (sid : string)
    (sample : list obj) :
  forall label e,
    load_objs cids imap sid label sample = Raise e ->
    e = KeyError
    /\ exists o, o ∈ sample /\ o_cls o ∈ cids /\ imap !! o_cls o = None.
Proof.
  induction sample as [| o rest IH]; intros label e; simpl; [discriminate |].
  destruct (load_obj cids imap sid label o) as [l1 | e1] eqn:E1; simpl.
  - intros H. apply IH in H as (-> & o' & Ho' & H).
    split; [reflexivity |]. exists o'. split; [now right | exact H].
  - intros [= <-]. apply load_obj_Raise in E1 as (-> & Hc & Hm).
    split; [reflexivity |]. exists o. split; [left | now split].
Qed.


Lemma load_label_unfold (cids : list Z) (imap : gmap Z Z) (ae : bool)
    (sid : string) (sample : list obj) (label : list (list Q)) :
  load_objs cids imap sid [] sample = Ok label ->
  _load_label cids imap ae sid sample
  = Ok (if ae then match label with [] => [absent_row] | _ => label end
        else label).
Proof.
  intros H. unfold _load_label. rewrite H. simpl.
  destruct ae; simpl; [| reflexivity]. now destruct label.
Qed.

Lemma load_label_shape (cids : list Z) (imap : gmap Z Z) (ae : bool)
    (sid : string) (sample : list obj) (label : list (list Q)) :
  _load_label cids imap ae sid sample = Ok label ->
  exists new,
    load_objs cids imap sid [] sample = Ok new
    /\ label = (if ae then match new with [] => [absent_row] | _ => new end
                else new)
    /\ Forall (label_row cids imap sid sample) new
    /\ (length new <= length sample)%nat.
Proof.
  intros H.
  destruct (load_objs cids imap sid [] sample) as [l0 | e] eqn:E0;
    [| unfold _load_label in H; rewrite E0 in H; discriminate].
  rewrite (load_label_unfold _ _ _ _ _ _ E0) in H. injection H as <-.
  pose proof (load_objs_Ok _ _ _ _ _ _ E0) as (new & -> & Hnew & Hlen).
  exists new. simpl in Hlen. auto.
Qed.

Lemma load_label_six (cids : list Z) (imap : gmap Z Z) (ae : bool)
    (sid : string) (sample : list obj) (label : list (list Q)) :
  _load_label cids imap ae sid sample = Ok label ->
  Forall (fun r => length r = 6%nat) label.
Proof.
  intros H. apply load_label_shape in H as (new & _ & -> & Hnew & _).
  assert (Hsix : Forall (fun r => length r = 6%nat) new).
  { eapply Forall_impl; [exact Hnew |]. intros r. apply label_row_length. }
  destruct ae, new; try exact Hsix. repeat constructor.
Qed.

Lemma load_label_nonempty (cids : list Z) (imap : gmap Z Z)
    (sid : string) (sample : list obj) (label : list (list Q)) :
  _load_label cids imap true sid sample = Ok label -> label <> [].
Proof.
  intros H. apply load_label_shape in H as (new & _ & -> & _).
  destruct new; discriminate.
Qed.

Lemma load_label_origin (cids : list Z) (imap : gmap Z Z) (ae : bool)
    (sid : string) (sample : list obj) (label : list (list Q)) :
  _load_label cids imap ae sid sample = Ok label ->
  Forall (label_row cids imap sid sample) label \/ label = [absent_row].
Proof.
  intros H. apply load_label_shape in H as (new & _ & -> & Hnew & _).
  destruct ae, new; auto.
Qed.

(** X3.  Every label that [_load_label] returns has rows of six entries.
    Either all of them are rows [xmin, ymin, xmax, ymax, class, track] of
    objects of the sample whose class is one of [class_ids], mapped by
    [index_map], that are present, with the box as [_validate_label]
    returned it (so a valid normalised box); there are then no more rows
    than objects.  Or the dataset allows empty labels, no object gave a
    row, and the label is the one padding row of six -1. *)
Theorem load_label_rows (cids : list Z) (imap : gmap Z Z) (ae : bool)
    (sid : string) (sample : list obj) (label : list (list Q)) :
  _load_label cids imap ae sid sample = Ok label ->
  Forall (fun r => length r = 6%nat) label
  /\ ((Forall (label_row cids imap sid sample) label
       /\ (length label <= length sample)%nat
       /\ (ae = true -> label <> []))
      \/ (ae = true /\ label = [absent_row]
          /\ load_objs cids imap sid [] sample = Ok [])).
Proof.
  intros H. split; [exact (load_label_six _ _ _ _ _ _ H) |].
  apply load_label_shape in H as (new & Hrun & -> & Hnew & Hlen).
  destruct ae, new as [| r new'].
  - right. auto.
  - left. repeat split; auto; discriminate.
  - left. repeat split; auto; discriminate.
  - left. repeat split; auto; discriminate.
Qed.

Definition two_objects : list obj :=
  [Obj 1 7 "present" (1 # 10) (1 # 2) (1 # 5) (3 # 5);
   Obj 0 3 "absent" (-1 # 1) (-1 # 1) (-1 # 1) (-1 # 1)].

Lemma load_label_rows_witness :
  _load_label [0; 1] {[ 0 := 0; 1 := 1 ]} true "v,0" two_objects
  = Ok [[1 # 10; 1 # 5; 1 # 2; 3 # 5; 1; 7]%Q]
  /\ Forall (fun r => length r = 6%nat) [[1 # 10; 1 # 5; 1 # 2; 3 # 5; 1; 7]%Q].
Proof.
  assert (H : _load_label [0; 1] {[ 0 := 0; 1 := 1 ]} true "v,0" two_objects
              = Ok [[1 # 10; 1 # 5; 1 # 2; 3 # 5; 1; 7]%Q])
    by (vm_compute; reflexivity).
  split; [exact H |].
  exact (proj1 (load_label_rows _ _ _ _ _ _ H)).
Defined.


(** *** [_load_label] from the csv fields *)


Section FieldFacts.
Variables (py_int : string -> option Z) (py_float : string -> option Q).









End FieldFacts.


(** A reading of the decimal numerals of the csv, for running the loop:
    [-]digits for [int], [-]digits[.digits] for [float]. *)
Fixpoint digits_from (acc : N) (s : string) : option N :=
  match s with
  | EmptyString => Some acc
  | String c rest =>
      let d := Ascii.N_of_ascii c in
      if ((48 <=? d) && (d <=? 57))%N
      then digits_from (10 * acc + (d - 48))%N rest
      else None
  end.

Definition digits (s : string) : option N :=
  match s with
  | EmptyString => None
  | _ => digits_from 0 s
  end.

Definition minus : Ascii.ascii := Ascii.ascii_of_nat 45.
Definition dot : Ascii.ascii := Ascii.ascii_of_nat 46.

(** The sign and the rest of a numeral. *)
Definition signed (s : string) : bool * string :=
  match s with
  | String c rest => if Ascii.eqb c minus then (true, rest) else (false, s)
  | EmptyString => (false, s)
  end.

Definition dec_int (s : string) : option Z :=
  n ← digits (signed s).2;
  Some (if (signed s).1 then - Z.of_N n else Z.of_N n).

Definition dec_float (s : string) : option Q :=
  v ← match split dot (signed s).2 with
      | [whole] => n ← digits whole; Some (inject_Z (Z.of_N n))
      | [whole; frac] =>
          n ← digits whole; f ← digits frac;
          Some (inject_Z (Z.of_N n)
                + (Z.of_N f # Pos.pow 10 (Pos.of_nat (String.length frac))))%Q
      | _ => None
      end;
  Some (Qred (if (signed s).1 then (- v)%Q else v)).

(** Three rows of one frame: a box, a row of an unknown class whose
    coordinates are never read, and a row whose xmin cannot be read. *)
Definition frame_rows : list (list string) :=
  [["1"; "bird"; "7"; "present"; "0.1"; "0.5"; "0.2"; "0.6"];
   ["9"; "cat"; "4"; "present"; "n/a"];
   ["0"; "person"; "3"; "present"; "n/a"; "0.5"; "0.2"; "0.6"]]%string.

Example load_label_fields_run :
  _load_label_fields dec_int dec_float [0; 1] {[ 0 := 0; 1 := 1 ]} true
                     "v,0" (take 2 frame_rows)
  = Ok [[1 # 10; 1 # 5; 1 # 2; 3 # 5; 1; 7]%Q]
  /\ _load_label_fields dec_int dec_float [0; 1] {[ 0 := 0; 1 := 1 ]} true
                        "v,0" frame_rows
     = Raise ValueError
  /\ _load_label_fields dec_int dec_float [0; 1] {[ 0 := 0; 1 := 1 ]} true
                        "v,0" [["1"; "bird"; "7"]]%string
     = Raise IndexError
  /\ _load_label_fields dec_int dec_float [0; 1] {[ 0 := 0 ]} true
                        "v,0" (take 1 frame_rows)
     = Raise KeyError.
Proof. repeat split; vm_compute; reflexivity. Qed.

(** An object that the loop passes over. *)
Definition skipped (cids : list Z) (imap : gmap Z Z) (o : obj) : Prop :=
  o_cls o ∉ cids
  \/ (is_Some (imap !! o_cls o)
      /\ (o_presence o = "absent"%string
          \/ (o_xmin o < 0)%Q \/ (o_xmax o < 0)%Q
          \/ (o_ymin o < 0)%Q \/ (o_ymax o < 0)%Q
          \/ (1 <= o_xmin o)%Q \/ (1 <= o_ymin o)%Q)).

Lemma load_obj_skipped (cids : list Z) (imap : gmap Z Z) (sid : string)
    (label : list (list Q)) (o : obj) :
  skipped cids imap o -> load_obj cids imap sid label o = Ok label.
Proof.
  intros [Hc | ([c Hm] & H)]; unfold load_obj.
  - now rewrite (bool_decide_eq_false_2 _ Hc).
  - destruct (bool_decide (o_cls o ∈ cids)); simpl; [| reflexivity].
    rewrite Hm.
    destruct (String.eqb (o_presence o) "absent") eqn:Ep; simpl;
      [reflexivity |].
    destruct (Qltb (o_xmin o) 0) eqn:E1; simpl; [reflexivity |].
    destruct (Qltb (o_xmax o) 0) eqn:E2; simpl; [reflexivity |].
    destruct (Qltb (o_ymin o) 0) eqn:E3; simpl; [reflexivity |].
    destruct (Qltb (o_ymax o) 0) eqn:E4; simpl; [reflexivity |].
    apply String.eqb_neq in Ep. apply Qltb_ge in E1, E2, E3, E4.
    assert (Hone : (clamped (o_xmin o) == 1)%Q \/ (clamped (o_ymin o) == 1)%Q).
    { destruct H as [H | [H | [H | [H | [H | [H | H]]]]]];
        try contradiction; try lra;
        [left | right]; now apply clamped_one. }
    destruct (validate_label_clamped_one (o_xmin o) (o_ymin o) (o_xmax o)
                (o_ymax o) sid Hone) as [msg ->].
    reflexivity.
Qed.

Lemma load_objs_skipped (cids : list Z) (imap : gmap Z Z) (sid : string)
    (sample : list obj) (label : list (list Q)) :
  Forall (skipped cids imap) sample ->
  load_objs cids imap sid label sample = Ok label.
Proof.
  induction 1 as [| o rest Ho _ IH]; simpl; [reflexivity |].
  now rewrite (load_obj_skipped _ _ sid label _ Ho).
Qed.

(** X5.  When every object of a sample is passed over (its class is not
    one of [class_ids], or it is marked absent, or a coordinate is
    negative, or xmin or ymin is 1 or more, which no clamping repairs),
    the label is empty, or the single padding row of six -1 when the
    dataset allows empty labels. *)
Theorem load_label_all_skipped (cids : list Z) (imap : gmap Z Z) (ae : bool)
    (sid : string) (sample : list obj) :
  Forall (skipped cids imap) sample ->
  _load_label cids imap ae sid sample
  = Ok (if ae then [absent_row] else []).
Proof.
  intros H.
  rewrite (load_label_unfold _ _ _ _ _ [] (load_objs_skipped _ _ _ _ _ H)).
  reflexivity.
Qed.

Definition edge_objects : list obj :=
  [Obj 1 7 "present" 1%Q (3 # 2) (1 # 5) (3 # 5);
   Obj 0 3 "absent" (1 # 10) (1 # 2) (1 # 5) (3 # 5);
   Obj 9 4 "present" (1 # 10) (1 # 2) (1 # 5) (3 # 5)].

Lemma load_label_all_skipped_witness :
  Forall (skipped [0; 1] {[ 0 := 0; 1 := 1 ]}) edge_objects
  /\ _load_label [0; 1] {[ 0 := 0; 1 := 1 ]} false "v,0" edge_objects = Ok []
  /\ _load_label [0; 1] {[ 0 := 0; 1 := 1 ]} true "v,0" edge_objects
     = Ok [absent_row].
Proof.
  assert (H : Forall (skipped [0; 1] {[ 0 := 0; 1 := 1 ]}) edge_objects).
  { constructor; [| constructor; [| constructor; [| constructor]]].
    - right. split; [exists 1; vm_compute; reflexivity |].
      do 5 right. left. simpl. lra.
    - right. split; [exists 0; vm_compute; reflexivity |]. now left.
    - left. simpl. intros Hin.
      repeat (apply elem_of_cons in Hin as [Hin | Hin];
              [discriminate |]).
      inversion Hin. }
  split; [exact H | split].
  - exact (load_label_all_skipped _ _ false "v,0" _ H).
  - exact (load_label_all_skipped _ _ true "v,0" _ H).
Defined.

(** *** [_load_items]: the grouping of the csv rows *)

(** The field [id[n]] of a row that is long enough. *)
Definition field (id : list string) (n : nat) : string :=
  default EmptyString (id !! n).

Definition row_vid (clips : bool) (id : row) : string :=
  if clips then
    String.append (field id 0) (String.append ","
      (String.append (field id 2) (String.append "," (field id 4))))
  else field id 0.

Definition row_frame (id : row) : string := field id 1.

Definition row_kept (ae : bool) (id : row) : bool :=
  ae || negb (String.eqb (field id 5) "absent").

(** [videos[vid]], and the rows under [videos[vid][frame]] (none when a
    key is missing). *)
Fixpoint video_get {V} (videos : videos_of V) (vid : string)
  : option (gmap string V) :=
  match videos with
  | [] => None
  | (v, m) :: rest => if String.eqb v vid then Some m else video_get rest vid
  end.

Definition stored (videos : videos_of (list row)) (vid frame : string)
  : list row :=
  match video_get videos vid with
  | Some m => default [] (m !! frame)
  | None => []
  end.

(** The rows of [ids] that belong under [videos[vid][frame]]. *)
Definition rows_of (clips ae : bool) (ids : list row) (vid frame : string)
  : list row :=
  map (drop 2)
      (List.filter (fun id => row_kept ae id
                              && String.eqb (row_vid clips id) vid
                              && String.eqb (row_frame id) frame) ids).

(** The dict invariant: video ids are keys (no duplicates), and no video
    and no frame is there without a row. *)
Definition videos_inv (videos : videos_of (list row)) : Prop :=
  NoDup (map fst videos)
  /\ forall vid m, video_get videos vid = Some m ->
       m <> ∅ /\ forall f l, m !! f = Some l -> l <> [].

Lemma index_field (id : row) (n : nat) :
  (n < length id)%nat -> index id (Z.of_nat n) = Ok (field id n).
Proof.
  intros Hn. destruct (lookup_lt_is_Some_2 id n Hn) as [s Hs].
  unfold field. rewrite Hs. simpl.
  apply index_Ok; [lia | now rewrite Nat2Z.id].
Qed.

Lemma load_row_long (clips ae : bool) (videos : videos_of (list row))
    (e : Z) (id : row) :
  (6 <= length id)%nat ->
  load_row clips ae (videos, e) id
  = Ok (if row_kept ae id
        then (add_row videos (row_vid clips id) (row_frame id) (drop 2 id), e)
        else (videos, e + 1)).
Proof.
  intros Hlen. unfold load_row, row_kept, row_vid, row_frame.
  change 5 with (Z.of_nat 5). change 0 with (Z.of_nat 0).
  change 2 with (Z.of_nat 2). change 4 with (Z.of_nat 4).
  change 1 with (Z.of_nat 1) at 2.
  rewrite !index_field by lia.
  destruct ae; simpl.
  - destruct clips; simpl; reflexivity.
  - destruct (String.eqb (field id 5) "absent"); simpl; [reflexivity |].
    destruct clips; simpl; reflexivity.
Qed.

Lemma video_get_add_row (videos : videos_of (list row))
    (v f v' : string) (r : row) :
  video_get (add_row videos v f r) v'
  = if String.eqb v v' then
      Some (match video_get videos v with
            | Some m => match m !! f with
                        | Some l => <[f := l ++ [r]]> m
                        | None => <[f := [r]]> m
                        end
            | None => {[ f := [r] ]}
            end)
    else video_get videos v'.
Proof.
  induction videos as [| [v0 m0] rest IH]; simpl.
  - destruct (String.eqb v v'); reflexivity.
  - destruct (String.eqb v0 v) eqn:E0; simpl.
    + apply String.eqb_eq in E0 as ->. destruct (String.eqb v v'); reflexivity.
    + rewrite IH. destruct (String.eqb v v') eqn:E1; [| reflexivity].
      apply String.eqb_eq in E1 as <-. now rewrite E0.
Qed.

Lemma stored_add_row (videos : videos_of (list row))
    (v f v' f' : string) (r : row) :
  stored (add_row videos v f r) v' f'
  = if String.eqb v v' && String.eqb f f'
    then stored videos v f ++ [r]
    else stored videos v' f'.
Proof.
  unfold stored. rewrite video_get_add_row.
  destruct (String.eqb v v') eqn:Ev; simpl; [| reflexivity].
  apply String.eqb_eq in Ev as <-.
  destruct (String.eqb f f') eqn:Ef.
  - apply String.eqb_eq in Ef as <-.
    destruct (video_get videos v) as [m |]; simpl.
    + destruct (m !! f) as [l |] eqn:El; simpl;
        now rewrite lookup_insert_eq.
    + now rewrite lookup_singleton_eq.
  - apply String.eqb_neq in Ef.
    destruct (video_get videos v) as [m |]; simpl.
    + destruct (m !! f) as [l |]; now rewrite lookup_insert_ne.
    + now rewrite lookup_singleton_ne.
Qed.

Lemma video_get_None {V} (videos : videos_of V) (vid : string) :
  video_get videos vid = None <-> vid ∉ map fst videos.
Proof.
  induction videos as [| [v0 m0] rest IH]; simpl.
  - split; [intros _ H; inversion H | reflexivity].
  - destruct (String.eqb v0 vid) eqn:E.
    + apply String.eqb_eq in E as ->.
      split; [discriminate | intros H; exfalso; apply H; left].
    + apply String.eqb_neq in E. rewrite IH, not_elem_of_cons.
      split; [intros H; split; [congruence | exact H] | intros [_ H]; exact H].
Qed.

Lemma add_row_keys (videos : videos_of (list row)) (v f : string) (r : row) :
  map fst (add_row videos v f r)
  = if bool_decide (v ∈ map fst videos) then map fst videos
    else map fst videos ++ [v].
Proof.
  induction videos as [| [v0 m0] rest IH].
  - rewrite bool_decide_eq_false_2; [reflexivity | intros H; inversion H].
  - cbn [add_row]. destruct (String.eqb v0 v) eqn:E; cbn [map fst].
    + apply String.eqb_eq in E as ->.
      rewrite bool_decide_eq_true_2; [reflexivity | left].
    + apply String.eqb_neq in E. rewrite IH.
      destruct (bool_decide (v ∈ map fst rest)) eqn:Er.
      * apply bool_decide_eq_true in Er.
        rewrite bool_decide_eq_true_2; [reflexivity | now right].
      * apply bool_decide_eq_false in Er.
        rewrite bool_decide_eq_false_2; [reflexivity |].
        rewrite not_elem_of_cons. split; [congruence | exact Er].
Qed.

Lemma add_row_inv (videos : videos_of (list row)) (v f : string) (r : row) :
  videos_inv videos -> videos_inv (add_row videos v f r).
Proof.
  intros [Hnd Hne]. split.
  - rewrite add_row_keys.
    destruct (bool_decide (v ∈ map fst videos)) eqn:E; [exact Hnd |].
    apply bool_decide_eq_false in E.
    apply NoDup_app. split; [exact Hnd | split].
    + intros x Hx Hx'. apply list_elem_of_singleton in Hx' as ->. now apply E.
    + apply NoDup_singleton.
  - intros vid m. rewrite video_get_add_row.
    destruct (String.eqb v vid) eqn:Ev; [| apply Hne].
    intros [= <-].
    destruct (video_get videos v) as [m0 |] eqn:Em.
    + destruct (Hne v m0 Em) as [_ Hl].
      destruct (m0 !! f) as [l0 |] eqn:El; (split; [apply insert_non_empty |]);
        intros f' l'; (destruct (decide (f = f')) as [<- | Hf];
          [rewrite lookup_insert_eq; intros [= <-]
          | rewrite lookup_insert_ne by exact Hf; apply Hl]).
      * now destruct l0.
      * discriminate.
    + split; [apply insert_non_empty |].
      intros f' l'. destruct (decide (f = f')) as [<- | Hf].
      * rewrite lookup_singleton_eq. intros [= <-]. discriminate.
      * rewrite lookup_singleton_ne by exact Hf. discriminate.
Qed.

Lemma load_rows_spec (clips ae : bool) (ids : list row) :
  Forall (fun id => (6 <= length id)%nat) ids ->
  forall videos e, videos_inv videos ->
    exists videos',
      load_rows clips ae ids (videos, e)
      = Ok (videos',
            e + Z.of_nat (length (List.filter
                                    (fun id => negb (row_kept ae id)) ids)))
      /\ videos_inv videos'
      /\ forall vid frame,
           stored videos' vid frame
           = stored videos vid frame ++ rows_of clips ae ids vid frame.
Proof.
  induction 1 as [| id ids Hid _ IH]; intros videos e Hinv.
  - exists videos. simpl. rewrite Z.add_0_r.
    split; [reflexivity | split; [exact Hinv |]].
    intros vid frame. unfold rows_of. simpl. now rewrite app_nil_r.
  - cbn [load_rows]. rewrite (load_row_long _ _ _ _ _ Hid).
    cbn [bind]. unfold rows_of. cbn [List.filter].
    destruct (row_kept ae id) eqn:Ek; cbn [negb].
    + destruct (IH (add_row videos (row_vid clips id) (row_frame id)
                            (drop 2 id)) e
                   (add_row_inv _ _ _ _ Hinv)) as (videos' & Hrun & Hinv' & Hst).
      exists videos'. split; [exact Hrun | split; [exact Hinv' |]].
      intros vid frame. rewrite Hst, stored_add_row. unfold rows_of.
      cbn [andb].
      destruct (String.eqb (row_vid clips id) vid) eqn:Ev; cbn [andb];
        [| reflexivity].
      destruct (String.eqb (row_frame id) frame) eqn:Ef; [| reflexivity].
      apply String.eqb_eq in Ev as <-. apply String.eqb_eq in Ef as <-.
      cbn [map]. now rewrite <- app_assoc.
    + destruct (IH videos (e + 1) Hinv) as (videos' & Hrun & Hinv' & Hst).
      exists videos'. cbn [length].
      replace (e + Z.of_nat (S (length (List.filter
                 (fun id0 => negb (row_kept ae id0)) ids))))
        with (e + 1 + Z.of_nat (length (List.filter
                 (fun id0 => negb (row_kept ae id0)) ids))) by lia.
      split; [exact Hrun | split; [exact Hinv' |]].
      intros vid frame. now rewrite Hst.
Qed.

Lemma videos_inv_nil : videos_inv [].
Proof. split; [constructor | intros vid m H; discriminate H]. Qed.

(** X6.  Grouping the csv rows.  When every row has its six leading
    fields, the loop of [_load_items] over the rows returns, and the list
    under [videos[vid][frame]] is exactly the rows (from their third field
    on) whose video id and frame id are [vid] and [frame], in csv order,
    without the rows marked absent when the dataset does not allow empty
    labels.  The video id is the youtube id, or with [clips] the three
    fields youtube id, class id and object id joined by commas.  No video
    id occurs twice, and a frame is a key only where it has a row. *)
Theorem load_rows_groups (clips ae : bool) (ids : list row) :
  Forall (fun id => (6 <= length id)%nat) ids ->
  exists videos empty,
    load_rows clips ae ids ([], 0) = Ok (videos, empty)
    /\ NoDup (map fst videos)
    /\ (forall vid frame,
          stored videos vid frame = rows_of clips ae ids vid frame)
    /\ (forall vid m frame,
          video_get videos vid = Some m ->
          (is_Some (m !! frame) <-> rows_of clips ae ids vid frame <> [])).
Proof.
  intros Hlen.
  destruct (load_rows_spec clips ae ids Hlen [] 0 videos_inv_nil)
    as (videos & Hrun & [Hnd Hne] & Hst).
  exists videos, (0 + Z.of_nat (length (List.filter
                                    (fun id => negb (row_kept ae id)) ids))).
  split; [exact Hrun | split; [exact Hnd | split]].
  - intros vid frame. now rewrite Hst.
  - intros vid m frame Hm.
    specialize (Hst vid frame). unfold stored in Hst. rewrite Hm in Hst.
    simpl in Hst. rewrite <- Hst. destruct (Hne vid m Hm) as [_ Hl].
    destruct (m !! frame) as [l |] eqn:El; simpl.
    + split; [intros _; exact (Hl frame l El) | eauto].
    + split; [intros [x Hx]; discriminate Hx | congruence].
Qed.

Definition csv_rows : list row :=
  [["vidA"; "1000"; "0"; "person"; "0"; "present"; "0.1"; "0.5"; "0.2"; "0.6"];
   ["vidA"; "1000"; "1"; "bird"; "0"; "present"; "0.3"; "0.4"; "0.3"; "0.4"];
   ["vidA"; "2000"; "0"; "person"; "0"; "absent"; "-1"; "-1"; "-1"; "-1"];
   ["vidB"; "1000"; "0"; "person"; "1"; "present"; "0.2"; "0.7"; "0.1"; "0.9"];
   ["vidA"; "3000"; "0"; "person"; "0"; "present"; "0.1"; "0.5"; "0.2"; "0.6"]].

Lemma csv_rows_long : Forall (fun id : row => (6 <= length id)%nat) csv_rows.
Proof. repeat constructor; simpl; lia. Qed.

Lemma load_rows_groups_witness :
  exists videos empty,
    load_rows false false csv_rows ([], 0) = Ok (videos, empty)
    /\ NoDup (map fst videos)
    /\ stored videos "vidA" "1000"
       = [["0"; "person"; "0"; "present"; "0.1"; "0.5"; "0.2"; "0.6"];
          ["1"; "bird"; "0"; "present"; "0.3"; "0.4"; "0.3"; "0.4"]]
    /\ stored videos "vidA" "2000" = [].
Proof.
  destruct (load_rows_groups false false csv_rows csv_rows_long)
    as (videos & empty & Hrun & Hnd & Hst & _).
  exists videos, empty. split; [exact Hrun |].
  split; [exact Hnd | split; rewrite Hst; vm_compute; reflexivity].
Defined.

(** X7.  With [allow_empty] unset, the rows marked absent are counted in
    [empty] and dropped: the counter ends at the number of absent rows,
    and no stored row has the presence field 'absent'. *)
Theorem load_rows_drops_absent (clips : bool) (ids : list row)
    (videos : videos_of (list row)) (empty : Z) :
  Forall (fun id => (6 <= length id)%nat) ids ->
  load_rows clips false ids ([], 0) = Ok (videos, empty) ->
  empty = Z.of_nat (length (List.filter
                              (fun id => String.eqb (field id 5) "absent")
                              ids))
  /\ forall vid frame r,
       r ∈ stored videos vid frame -> r !! 3%nat <> Some "absent"%string.
Proof.
  intros Hlen Hrun.
  destruct (load_rows_spec clips false ids Hlen [] 0 videos_inv_nil)
    as (videos' & Hrun' & _ & Hst).
  pose proof (eq_trans (eq_sym Hrun) Hrun') as Heq.
  injection Heq as -> ->.
  split.
  - rewrite Z.add_0_l. do 2 f_equal. apply filter_ext. intros id.
    unfold row_kept. simpl. now rewrite negb_involutive.
  - intros vid frame r. rewrite Hst. unfold stored at 1. simpl.
    unfold rows_of. intros Hr.
    apply list_elem_of_In, in_map_iff in Hr as (id & <- & Hid).
    apply filter_In in Hid as [Hin Hk].
    apply andb_true_iff in Hk as [Hk _]. apply andb_true_iff in Hk as [Hk _].
    unfold row_kept in Hk. simpl in Hk. apply negb_true_iff in Hk.
    apply String.eqb_neq in Hk. rewrite lookup_drop. simpl.
    unfold field in Hk. intros H5. rewrite H5 in Hk. now apply Hk.
Qed.

Lemma load_rows_drops_absent_witness :
  exists videos,
    load_rows false false csv_rows ([], 0) = Ok (videos, 1)
    /\ forall vid frame r,
         r ∈ stored videos vid frame -> r !! 3%nat <> Some "absent"%string.
Proof.
  destruct (load_rows_spec false false csv_rows csv_rows_long [] 0
              videos_inv_nil) as (videos & Hrun & _).
  exists videos. split; [exact Hrun |].
  exact (proj2 (load_rows_drops_absent false csv_rows videos _
                  csv_rows_long Hrun)).
Defined.

(** *** [_load_items]: keeping a part of the frames *)

Lemma sorted_keys_NoDup {V} (m : gmap string V) : NoDup (sorted_keys m).
Proof.
  unfold sorted_keys. rewrite merge_sort_Permutation.
  apply (NoDup_fst_map_to_list m).
Qed.

(** [range(0, n, s)] for a stride of at least one: the multiples of [s]
    below [n]. *)
Lemma range_stride (n : nat) (s : Z) :
  1 <= s ->
  exists cnt : nat,
    range 0 (Z.of_nat n) s
    = Ok (map (fun k : nat => Z.of_nat k * s) (seq 0 cnt))
    /\ forall k : nat, (k < cnt)%nat <-> Z.of_nat k * s < Z.of_nat n.
Proof.
  intros Hs. exists (Z.to_nat ((Z.of_nat n + s - 1) / s)). split.
  - unfold range, range_len.
    destruct (s =? 0) eqn:E0; [lia |].
    destruct (0 <? s) eqn:E1; [| lia].
    replace (Z.of_nat n - 0 + s - 1) with (Z.of_nat n + s - 1) by lia.
    rewrite Z.max_r by (apply Z.div_pos; lia).
    reflexivity.
  - intros k.
    pose proof (Z.mul_div_le (Z.of_nat n + s - 1) s ltac:(lia)) as Hle.
    pose proof (Z.div_pos (Z.of_nat n + s - 1) s ltac:(lia) ltac:(lia)) as Hp.
    split; intros H.
    + assert (Z.of_nat k + 1 <= (Z.of_nat n + s - 1) / s) by lia. nia.
    + assert (Hd : (Z.of_nat k * s + s) / s <= (Z.of_nat n + s - 1) / s)
        by (apply Z.div_le_mono; lia).
      replace (Z.of_nat k * s + s) with ((Z.of_nat k + 1) * s) in Hd by ring.
      rewrite Z.div_mul in Hd by lia. lia.
Qed.

(** The stride that [thin_video] hands to [range] for a video of [n]
    frames, when it hands one. *)
Definition stride_of (fa : frames_arg) (n : nat) : option Z :=
  match fa with
  | FramesBelow s => Some s
  | FramesAbove g => Some (g n)
  | _ => None
  end.

Lemma thin_video_strided {V} (fa : frames_arg) (s : Z) (m : gmap string V) :
  stride_of fa (length (sorted_keys m)) = Some s -> 1 <= s ->
  exists cnt : nat,
    (forall k : nat, (k < cnt)%nat
                     <-> Z.of_nat k * s < Z.of_nat (length (sorted_keys m)))
    /\ thin_video fa m
       = Ok (filter
               (fun kv : string * V =>
                  bool_decide
                    (kv.1 ∈ map (fun k : nat =>
                                   default EmptyString
                                     (sorted_keys m !! Z.to_nat (Z.of_nat k * s)))
                                (seq 0 cnt)) = true) m).
Proof.
  intros Hst Hs.
  destruct (range_stride (length (sorted_keys m)) s Hs) as (cnt & Hr & Hc).
  exists cnt. split; [exact Hc |].
  assert (Hm : mapM (index (sorted_keys m))
                    (map (fun k : nat => Z.of_nat k * s) (seq 0 cnt))
               = Ok (map (fun k : nat =>
                            default EmptyString
                              (sorted_keys m !! Z.to_nat (Z.of_nat k * s)))
                         (seq 0 cnt))).
  { rewrite <- (map_map (fun k : nat => Z.of_nat k * s)
                  (fun i : Z => default EmptyString
                                  (sorted_keys m !! Z.to_nat i))).
    apply mapM_Ok. intros i Hi.
    apply list_elem_of_In, in_map_iff in Hi as (k & <- & Hk).
    apply in_seq in Hk. assert (Hk' : (k < cnt)%nat) by lia.
    apply Hc in Hk'.
    destruct (lookup_lt_is_Some_2 (sorted_keys m)
                (Z.to_nat (Z.of_nat k * s))) as [f Hf]; [lia |].
    rewrite Hf. simpl. apply index_Ok; [lia | exact Hf]. }
  unfold thin_video.
  destruct fa as [| s0 | g |]; simpl in Hst; try discriminate;
    injection Hst as <-; rewrite Hr; cbn [bind]; rewrite Hm; reflexivity.
Qed.

(** X8.  Thinning a video with a stride [s >= 1] (the value of
    [int(1 / frames)], or of [int(math.ceil(n / frames))]) returns, never
    changes the rows of a frame, and keeps exactly the frames whose
    position in the sorted list of frame ids is a multiple of [s]; in
    particular the first frame of the sorted list always stays. *)
Theorem thin_video_stride {V} (fa : frames_arg) (s : Z) (m : gmap string V) :
  stride_of fa (length (sorted_keys m)) = Some s -> 1 <= s ->
  exists m',
    thin_video fa m = Ok m'
    /\ m' ⊆ m
    /\ forall (i : nat) (f : string),
         sorted_keys m !! i = Some f ->
         (m' !! f = m !! f <-> (Z.of_nat i) mod s = 0)
         /\ (m' !! f = None <-> (Z.of_nat i) mod s <> 0).
Proof.
  intros Hst Hs.
  destruct (thin_video_strided fa s m Hst Hs) as (cnt & Hc & Hrun).
  eexists. split; [exact Hrun | split; [apply map_filter_subseteq |]].
  intros i f Hi.
  pose proof (lookup_lt_Some _ _ _ Hi) as Hlt.
  assert (Hin : is_Some (m !! f))
    by (apply sorted_keys_elem, list_elem_of_lookup; eauto).
  destruct Hin as [v Hv].
  set (kept := map (fun k : nat =>
                      default EmptyString
                        (sorted_keys m !! Z.to_nat (Z.of_nat k * s)))
                   (seq 0 cnt)).
  assert (Hkept : f ∈ kept <-> Z.of_nat i mod s = 0).
  { unfold kept. rewrite list_elem_of_In, in_map_iff. split.
    - intros (k & Hk & Hkin). apply in_seq in Hkin.
      assert (Hk' : (k < cnt)%nat) by lia. apply Hc in Hk'.
      destruct (lookup_lt_is_Some_2 (sorted_keys m)
                  (Z.to_nat (Z.of_nat k * s))) as [f' Hf']; [lia |].
      rewrite Hf' in Hk. simpl in Hk. subst f'.
      pose proof (NoDup_lookup _ _ _ _ (sorted_keys_NoDup m) Hi Hf') as Heq.
      replace (Z.of_nat i) with (Z.of_nat k * s) by lia.
      apply Z.mod_mul. lia.
    - intros Hmod. exists (Z.to_nat (Z.of_nat i / s)).
      pose proof (Z.div_mod (Z.of_nat i) s ltac:(lia)) as Hd.
      pose proof (Z.div_pos (Z.of_nat i) s ltac:(lia) ltac:(lia)) as Hp.
      assert (Heq : Z.of_nat (Z.to_nat (Z.of_nat i / s)) * s = Z.of_nat i)
        by (rewrite Z2Nat.id by lia; lia).
      split.
      + rewrite Heq, Nat2Z.id, Hi. reflexivity.
      + apply in_seq. split; [lia |]. simpl. apply Hc. lia. }
  split.
  - rewrite Hv. rewrite map_lookup_filter_Some. simpl. rewrite <- Hkept.
    rewrite bool_decide_eq_true. tauto.
  - rewrite map_lookup_filter_None. simpl. split.
    + intros [H | H]; [congruence |].
      intros Hmod. apply Hkept in Hmod.
      apply (H v Hv). now apply bool_decide_eq_true.
    + intros Hmod. right. intros v' _ Hb. apply bool_decide_eq_true in Hb.
      now apply Hmod, Hkept.
Qed.

Definition five_frames : gmap string Z :=
  {[ "a" := 1; "b" := 2; "c" := 3; "d" := 4; "e" := 5 ]}.

Lemma thin_video_stride_witness :
  exists m',
    thin_video (FramesBelow 2) five_frames = Ok m'
    /\ m' ⊆ five_frames
    /\ m' !! "a" = Some 1 /\ m' !! "b" = None /\ m' !! "c" = Some 3.
Proof.
  destruct (thin_video_stride (FramesBelow 2) 2 five_frames eq_refl
              ltac:(lia)) as (m' & Hrun & Hsub & Hpos).
  assert (Hs : sorted_keys five_frames = ["a"; "b"; "c"; "d"; "e"])
    by (vm_compute; reflexivity).
  exists m'. split; [exact Hrun | split; [exact Hsub |]].
  assert (Ha : sorted_keys five_frames !! 0%nat = Some "a")
    by (rewrite Hs; reflexivity).
  assert (Hb : sorted_keys five_frames !! 1%nat = Some "b")
    by (rewrite Hs; reflexivity).
  assert (Hc : sorted_keys five_frames !! 2%nat = Some "c")
    by (rewrite Hs; reflexivity).
  split; [| split].
  - rewrite (proj2 (proj1 (Hpos _ _ Ha)) eq_refl). reflexivity.
  - apply (proj2 (Hpos _ _ Hb)). vm_compute. discriminate.
  - rewrite (proj2 (proj1 (Hpos _ _ Hc)) eq_refl). reflexivity.
Defined.

Lemma thin_video_subseteq {V} (fa : frames_arg) (m m' : gmap string V) :
  thin_video fa m = Ok m' -> m' ⊆ m.
Proof.
  unfold thin_video. intros H. apply bind_Ok in H as (fr & _ & H).
  injection H as <-. apply map_filter_subseteq.
Qed.

Lemma thin_video_all {V} (fa : frames_arg) (m : gmap string V) :
  stride_of fa (length (sorted_keys m)) = None -> thin_video fa m = Ok m.
Proof.
  intros Hst. unfold thin_video.
  assert (Hf : filter (fun kv : string * V =>
                         bool_decide (kv.1 ∈ sorted_keys m) = true) m = m).
  { apply map_filter_id. intros f v Hv. simpl. apply bool_decide_eq_true.
    apply sorted_keys_elem. eauto. }
  destruct fa; simpl in Hst; try discriminate; simpl; now rewrite Hf.
Qed.

(** X9.  Thinning the whole dict keeps the videos and their order, and
    only ever removes frames: each video's new dict is contained in its
    old one.  With [frames == 1] nothing is touched. *)
Theorem thin_only_removes {V} (fa : frames_arg) (videos videos' : videos_of V) :
  thin fa videos = Ok videos' ->
  map fst videos' = map fst videos
  /\ Forall2 (fun v' v : string * gmap string V => v'.2 ⊆ v.2) videos' videos
  /\ (fa = FramesOne -> videos' = videos).
Proof.
  intros H.
  assert (Hgen : forall vs vs',
             mapM (fun v : string * gmap string V =>
                     let* m := thin_video fa v.2 in Ok (v.1, m)) vs = Ok vs' ->
             map fst vs' = map fst vs
             /\ Forall2 (fun v' v : string * gmap string V => v'.2 ⊆ v.2)
                        vs' vs).
  { induction vs as [| [vid m] vs IH]; intros vs'; simpl.
    - intros [= <-]. split; [reflexivity | constructor].
    - intros Hm. apply bind_Ok in Hm as (v1 & H1 & Hm).
      apply bind_Ok in Hm as (vs1 & H2 & Hm). injection Hm as <-.
      apply bind_Ok in H1 as (m1 & H1 & Hv). injection Hv as <-.
      destruct (IH vs1 H2) as [Hk Hs]. simpl. split; [now f_equal |].
      constructor; [exact (thin_video_subseteq _ _ _ H1) | exact Hs]. }
  destruct fa; simpl in H;
    try (destruct (Hgen _ _ H) as [Hk Hs];
         split; [exact Hk | split; [exact Hs | discriminate]]).
  injection H as <-. split; [reflexivity | split; [| reflexivity]].
  apply Forall2_same_length_lookup. split; [reflexivity |].
  intros i v v' Hv Hv'. rewrite Hv in Hv'. now injection Hv' as <-.
Qed.

Lemma thin_only_removes_witness :
  exists videos',
    thin (FramesBelow 2) [("v", five_frames)] = Ok videos'
    /\ map fst videos' = ["v"]
    /\ Forall2 (fun v' v : string * gmap string Z => v'.2 ⊆ v.2)
               videos' [("v", five_frames)].
Proof.
  destruct (thin_video_strided (FramesBelow 2) 2 five_frames eq_refl
              ltac:(lia)) as (cnt & _ & Hrun).
  set (m' := filter _ five_frames) in Hrun.
  assert (H : thin (FramesBelow 2) [("v", five_frames)] = Ok [("v", m')])
    by (unfold thin; cbn [mapM bind fst snd]; rewrite Hrun; reflexivity).
  exists [("v", m')]. split; [exact H |].
  destruct (thin_only_removes _ _ _ H) as (Hk & Hs & _).
  split; [exact Hk | exact Hs].
Defined.

(** *** Sample ids and the image path *)

Fixpoint has_char (c : Ascii.ascii) (s : string) : bool :=
  match s with
  | EmptyString => false
  | String c' s' => Ascii.eqb c' c || has_char c s'
  end.

Lemma split_not_nil (sep : Ascii.ascii) (s : string) : split sep s <> [].
Proof.
  induction s as [| c s IH]; simpl; [discriminate |].
  destruct (Ascii.eqb c sep); [discriminate |].
  destruct (split sep s); [contradiction | discriminate].
Qed.

Lemma split_no_sep (sep : Ascii.ascii) (s : string) :
  has_char sep s = false -> split sep s = [s].
Proof.
  induction s as [| c s IH]; simpl; [reflexivity |].
  destruct (Ascii.eqb c sep); simpl; [discriminate |].
  intros H. now rewrite (IH H).
Qed.

Lemma split_app (sep : Ascii.ascii) (a b : string) :
  split sep (String.append a (String sep b)) = split sep a ++ split sep b.
Proof.
  induction a as [| c a IH]; simpl.
  - now rewrite Ascii.eqb_refl.
  - destruct (Ascii.eqb c sep); [now rewrite IH |].
    rewrite IH. pose proof (split_not_nil sep a) as Hne.
    destruct (split sep a); [contradiction | reflexivity].
Qed.

Lemma index_head {A} (x : A) (l : list A) : index (x :: l) 0 = Ok x.
Proof. apply index_Ok; [lia | reflexivity]. Qed.

Lemma index_last {A} (l : list A) (x : A) : index (l ++ [x]) (-1) = Ok x.
Proof.
  unfold index. rewrite length_app. simpl length.
  replace (-1 <? 0) with true by reflexivity.
  assert (E : (0 <=? -1 + Z.of_nat (length l + 1))
              && (-1 + Z.of_nat (length l + 1) <? Z.of_nat (length l + 1))
              = true).
  { apply andb_true_iff; split; [apply Z.leb_le | apply Z.ltb_lt]; lia. }
  rewrite E.
  replace (Z.to_nat (-1 + Z.of_nat (length l + 1))) with (length l) by lia.
  now rewrite list_lookup_middle.
Qed.

Lemma img_path_args_key (vid frame : string) :
  has_char comma frame = false ->
  img_path_args (sample_key vid frame)
  = Ok (hd EmptyString (split comma vid), frame).
Proof.
  intros Hf. unfold img_path_args, sample_key.
  change (String.append "," frame) with (String comma frame).
  rewrite split_app, (split_no_sep comma frame Hf).
  rewrite index_last.
  pose proof (split_not_nil comma vid) as Hne.
  destruct (split comma vid) as [| w ws]; [contradiction |].
  cbn [app hd]. rewrite index_head. reflexivity.
Qed.

(** X10.  The image of a frame sample.  [_load_items] names a sample
    [vid_id + ',' + frame_id]; [__getitem__] splits that id at the commas
    and fills the path with the first and the last field.  When the frame
    id holds no comma the last field is the frame id again; when the
    youtube id holds none the first field is the youtube id, both with the
    video id of a whole video and with the three-field video id of a
    clip. *)
Theorem img_path_round_trip (yid frame : string) :
  has_char comma yid = false -> has_char comma frame = false ->
  img_path_args (sample_key yid frame) = Ok (yid, frame)
  /\ forall cls obj_id,
       img_path_args
         (sample_key (String.append yid (String.append ","
                        (String.append cls (String.append "," obj_id))))
                     frame)
       = Ok (yid, frame).
Proof.
  intros Hy Hf. split.
  - rewrite (img_path_args_key _ _ Hf), (split_no_sep comma yid Hy).
    reflexivity.
  - intros cls obj_id. rewrite (img_path_args_key _ _ Hf).
    change (String.append ","
              (String.append cls (String.append "," obj_id)))
      with (String comma (String.append cls (String.append "," obj_id))).
    rewrite split_app, (split_no_sep comma yid Hy). reflexivity.
Qed.

Lemma img_path_round_trip_witness :
  img_path_args (sample_key "AAB6lO-XiKE" "238000")
  = Ok ("AAB6lO-XiKE"%string, "238000"%string)
  /\ img_path_args (sample_key "AAB6lO-XiKE,0,1" "238000")
     = Ok ("AAB6lO-XiKE"%string, "238000"%string).
Proof.
  destruct (img_path_round_trip "AAB6lO-XiKE" "238000" eq_refl eq_refl)
    as [H1 H2].
  split; [exact H1 | exact (H2 "0"%string "1"%string)].
Defined.

(** *** The dataset object: [__init__], [_load_label], [__getitem__] *)

Definition has_sample {V} (self : YouTubeBBDetection V) (sid : string)
  : Prop :=
  match _samples self with
  | FrameSamples fr => is_Some (fr !! sid)
  | VideoSamples vs => is_Some (vs !! sid)
  end.

(** The sample ids are the keys of the samples, sorted, each once. *)
Definition wf_dataset {V} (self : YouTubeBBDetection V) : Prop :=
  Sorted str_le (_sample_ids self)
  /\ NoDup (_sample_ids self)
  /\ forall sid, sid ∈ _sample_ids self <-> has_sample self sid.

Lemma load_items_shape {V} (videos : bool) (ws step : Z)
    (vs : videos_of V) (loaded : items V) :
  _load_items videos ws step vs = Ok loaded ->
  (videos = true /\ loaded = Videos vs)
  \/ (videos = false
      /\ exists w, loaded = Frames w (all_frames vs)
                   /\ (is_Some w <-> 1 < ws)).
Proof.
  unfold _load_items. destruct videos; [intros [= <-]; now left |].
  intros H. right. split; [reflexivity |].
  apply bind_Ok in H as (w & Hw & H). injection H as <-.
  exists w. split; [reflexivity |].
  destruct (1 <? ws) eqn:E.
  - apply bind_Ok in Hw as (w' & _ & Hw). injection Hw as <-.
    split; [intros _; lia | eauto].
  - injection Hw as <-. split; [intros [x Hx]; discriminate Hx | lia].
Qed.

(** X11.  What [__init__] establishes.  It refuses anything but one
    split.  Otherwise the object it builds holds videos exactly when
    [videos] was asked for; it allows empty labels whenever [videos] is
    set or the window is larger than one, whatever [allow_empty] said;
    it has windows exactly for a dataset of frames with a window larger
    than one; and its sample ids are the keys of its samples, sorted,
    without repetition. *)
Theorem init_establishes {V} (splits : list string)
    (allow_empty videos clips : bool) (index_map_ : option (gmap Z Z))
    (frames : frames_arg) (inference : bool) (window_size window_step : Z)
    (class_ids_ : list Z) (num_class : nat) (grouped : videos_of V)
    (self : YouTubeBBDetection V) :
  YouTubeBBDetection_init splits allow_empty videos clips index_map_ frames
    inference window_size window_step class_ids_ num_class grouped = Ok self ->
  length splits = 1%nat
  /\ _videos self = videos
  /\ _allow_empty self = (videos || (1 <? window_size) || allow_empty)
  /\ (is_Some (_windows self) <-> videos = false /\ 1 < window_size)
  /\ wf_dataset self.
Proof.
  unfold YouTubeBBDetection_init.
  destruct (length splits =? 1)%nat eqn:Es; simpl; [| discriminate].
  apply Nat.eqb_eq in Es. intros H.
  apply bind_Ok in H as (loaded & Hl & H).
  unfold _load_items_grouped in Hl. apply bind_Ok in Hl as (vs & _ & Hl).
  assert (Hae : (if videos || (1 <? window_size) then true else allow_empty)
                = videos || (1 <? window_size) || allow_empty)
    by (destruct videos, (1 <? window_size), allow_empty; reflexivity).
  apply load_items_shape in Hl as [[-> ->] | (-> & w & -> & Hw)];
    injection H as <-; simpl; unfold _videos, wf_dataset, has_sample; simpl.
  - split; [exact Es | split; [reflexivity | split; [reflexivity | split]]].
    + split; [intros [x Hx]; discriminate Hx | intros [Hf _]; discriminate Hf].
    + split; [apply sorted_keys_sorted | split; [apply sorted_keys_NoDup |]].
      intros sid. apply sorted_keys_elem.
  - split; [exact Es | split; [reflexivity | split; [exact Hae | split]]].
    + rewrite Hw. tauto.
    + split; [apply sorted_keys_sorted | split; [apply sorted_keys_NoDup |]].
      intros sid. apply sorted_keys_elem.
Qed.

Definition toy_grouped : videos_of (list obj) :=
  [("v", {[ "1000" := two_objects; "2000" := edge_objects ]})].

Definition toy_init (allow_empty : bool) (window_size : Z)
  : result (YouTubeBBDetection (list obj)) :=
  YouTubeBBDetection_init ["train"] allow_empty false false None FramesOne
    false window_size 1 [0; 1] 2 toy_grouped.

Lemma init_establishes_witness :
  exists self,
    toy_init false 3 = Ok self
    /\ _allow_empty self = true
    /\ _sample_ids self = ["v,1000"; "v,2000"]
    /\ wf_dataset self.
Proof.
  destruct (toy_init false 3) as [self |] eqn:E; [| vm_compute in E; discriminate E].
  exists self. split; [reflexivity |].
  destruct (init_establishes _ _ _ _ _ _ _ _ _ _ _ _ _ E)
    as (_ & _ & Hae & _ & Hwf).
  split; [exact Hae | split; [| exact Hwf]].
  vm_compute in E. injection E as <-. reflexivity.
Defined.

(** *** The default [index_map] *)






(** *** Labels through the dataset object *)

Lemma index_in_range {A} (l : list A) (i : Z) :
  - Z.of_nat (length l) <= i < Z.of_nat (length l) ->
  exists a, index l i = Ok a /\ a ∈ l.
Proof.
  intros Hi. unfold index.
  set (n := Z.of_nat (length l)) in *.
  set (j := if i <? 0 then i + n else i).
  assert (Hj : 0 <= j < n) by (unfold j; destruct (i <? 0) eqn:E; lia).
  assert (E : (0 <=? j) && (j <? n) = true)
    by (apply andb_true_iff; split; [apply Z.leb_le | apply Z.ltb_lt]; lia).
  rewrite E.
  destruct (lookup_lt_is_Some_2 l (Z.to_nat j)) as [a Ha]; [unfold n in Hj; lia |].
  rewrite Ha. exists a. split; [reflexivity |].
  apply list_elem_of_lookup. eauto.
Qed.

Lemma load_label_at_frames (self : YouTubeBBDetection (list obj))
    (fr : gmap string (list obj)) (i : nat) (sid : string)
    (sample : list obj) (frame : option string) :
  _samples self = FrameSamples fr ->
  _sample_ids self !! i = Some sid -> fr !! sid = Some sample ->
  _load_label_at self (Z.of_nat i) frame
  = _load_label (class_ids self) (index_map self) (_allow_empty self)
                sid sample.
Proof.
  intros Hs Hi Hf. unfold _load_label_at.
  rewrite (index_Ok _ (Z.of_nat i) sid) by (try lia; now rewrite Nat2Z.id).
  cbn [bind]. rewrite Hs, Hf. reflexivity.
Qed.

Lemma load_label_at_Raise (self : YouTubeBBDetection (list obj)) (idx : Z)
    (frame : option string) (e : exn) :
  - len self <= idx < len self ->
  _load_label_at self idx frame = Raise e ->
  e = KeyError \/ e = AssertionError "".
Proof.
  intros Hi. unfold _load_label_at.
  destruct (index_in_range (_sample_ids self) idx Hi) as (sid & -> & _).
  cbn [bind].
  destruct (_samples self) as [fr | vs].
  - destruct (fr !! sid) as [sample |]; cbn [bind];
      [| intros [= <-]; now left].
    intros H. left. unfold _load_label in H.
    destruct (load_objs (class_ids self) (index_map self) sid [] sample)
      as [l0 | e0] eqn:E0; cbn [bind] in H.
    + destruct (_allow_empty self && _); discriminate H.
    + injection H as <-. exact (proj1 (load_objs_Raise _ _ _ _ _ _ E0)).
  - destruct (vs !! sid) as [video |]; cbn [bind];
      [| intros [= <-]; now left].
    destruct frame as [f |]; cbn [bind]; [| intros [= <-]; now right].
    destruct (video !! f) as [sample |]; cbn [bind];
      [| intros [= <-]; now left].
    intros H. left. unfold _load_label in H.
    destruct (load_objs (class_ids self) (index_map self) sid [] sample)
      as [l0 | e0] eqn:E0; cbn [bind] in H.
    + destruct (_allow_empty self && _); discriminate H.
    + injection H as <-. exact (proj1 (load_objs_Raise _ _ _ _ _ _ E0)).
Qed.

Lemma load_label_at_Ok (self : YouTubeBBDetection (list obj)) (idx : Z)
    (frame : option string) (label : list (list Q)) :
  _load_label_at self idx frame = Ok label ->
  exists sid sample,
    _load_label (class_ids self) (index_map self) (_allow_empty self)
                sid sample = Ok label.
Proof.
  unfold _load_label_at. intros H.
  apply bind_Ok in H as (sid & _ & H). apply bind_Ok in H as (sample & _ & H).
  eauto.
Qed.

Lemma but_last_length {A} (l : list A) (n : nat) :
  length l = S n -> length (but_last l) = n.
Proof. intros H. unfold but_last. rewrite length_take, H. lia. Qed.

Lemma img_path_args_Ok (sid : string) :
  exists p, img_path_args sid = Ok p.
Proof.
  unfold img_path_args.
  pose proof (split_not_nil comma sid) as Hne.
  assert (Hlen : 0 < Z.of_nat (length (split comma sid)))
    by (destruct (split comma sid); [contradiction | simpl; lia]).
  destruct (index_in_range (split comma sid) 0 ltac:(lia)) as (a & -> & _).
  destruct (index_in_range (split comma sid) (-1) ltac:(lia)) as (b & -> & _).
  cbn [bind]. eauto.
Qed.

(** The window part of [__getitem__]. *)
Definition getitem_window (self : YouTubeBBDetection (list obj))
    (frames : gmap string (list obj)) (idx : Z) : result unit :=
  if 1 <? _window_size self then
    match _windows self with
    | None => Raise TypeError
    | Some windows =>
        let* sample_id := index (_sample_ids self) idx in
        match windows !! sample_id with
        | None => Raise KeyError
        | Some window => window_paths frames window
        end
    end
  else Ok tt.

Lemma window_paths_Ok {V} (frames : gmap string (list V))
    (window : list string) :
  window_paths frames window = Ok tt
  <-> forall sid, sid ∈ window ->
        exists rows, frames !! sid = Some rows /\ (2 <= length rows)%nat.
Proof.
  induction window as [| sid rest IH]; simpl.
  - split; [intros _ sid H; inversion H | reflexivity].
  - destruct (frames !! sid) as [rows |] eqn:Ef.
    + unfold format_path. destruct (length rows <? 2)%nat eqn:El; cbn [bind].
      * apply Nat.ltb_lt in El. split; [discriminate |].
        intros H. destruct (H sid ltac:(left)) as (rows' & Hr & Hlen).
        rewrite Ef in Hr. injection Hr as <-. lia.
      * apply Nat.ltb_ge in El. rewrite IH. split.
        -- intros H sid' Hin. apply elem_of_cons in Hin as [-> | Hin];
             [eauto | now apply H].
        -- intros H sid' Hin. apply H. now right.
    + split; [discriminate |].
      intros H. destruct (H sid ltac:(left)) as (rows' & Hr & _).
      rewrite Ef in Hr. discriminate Hr.
Qed.

Lemma getitem_label_Ok (self : YouTubeBBDetection (list obj)) (idx : Z)
    (l : list (list Q)) :
  getitem_label self idx = Ok l ->
  exists label fr,
    _samples self = FrameSamples fr
    /\ _load_label_at self idx None = Ok label /\ label <> []
    /\ l = map but_last label
    /\ getitem_window self fr idx = Ok tt.
Proof.
  unfold getitem_label. intros H.
  apply bind_Ok in H as (sid & _ & H).
  destruct (_samples self) as [fr | vs].
  - destruct (fr !! sid); [| discriminate H].
    apply bind_Ok in H as (p & _ & H). apply bind_Ok in H as (label & Hl & H).
    apply bind_Ok in H as (l' & Hl' & H).
    apply bind_Ok in H as ([] & Hw & H). injection H as <-.
    destruct label as [| r label]; [discriminate Hl' |]. injection Hl' as <-.
    exists (r :: label), fr.
    split; [reflexivity | split; [exact Hl | split; [discriminate |]]].
    split; [reflexivity | exact Hw].
  - destruct (vs !! sid); discriminate H.
Qed.

(** X13.  The label that [__getitem__] hands out, [label[:, :-1]].  When
    it is returned it is never empty and every row has the five entries
    [xmin, ymin, xmax, ymax, class] (the track id is cut off).  On a
    dataset without a window that allows empty labels the slicing cannot
    fail: for an index within range no [IndexError] is raised.  With a
    window, [__getitem__] builds the path of every frame of the window
    from the annotation rows of that frame, and returns only if each of
    these frames has at least two rows. *)
Theorem getitem_label_rows (self : YouTubeBBDetection (list obj)) (idx : Z) :
  (forall l, getitem_label self idx = Ok l ->
             l <> [] /\ Forall (fun r => length r = 5%nat) l)
  /\ (_allow_empty self = true -> _window_size self <= 1 ->
      - len self <= idx < len self ->
      getitem_label self idx <> Raise IndexError)
  /\ (1 < _window_size self ->
      forall l, getitem_label self idx = Ok l ->
        exists fr windows sid window,
          _samples self = FrameSamples fr /\ _windows self = Some windows
          /\ index (_sample_ids self) idx = Ok sid
          /\ windows !! sid = Some window
          /\ forall sid', sid' ∈ window ->
                exists rows, fr !! sid' = Some rows
                             /\ (2 <= length rows)%nat).
Proof.
  split; [| split].
  - intros l H.
    apply getitem_label_Ok in H as (label & fr & _ & Hl & Hne & -> & _).
    split; [destruct label; [contradiction | discriminate] |].
    apply load_label_at_Ok in Hl as (sid & sample & Hl).
    apply load_label_six in Hl. rename Hl into Hsix.
    apply List.Forall_map. eapply Forall_impl; [exact Hsix |].
    intros r' Hr'. now apply but_last_length.
  - intros Hae Hws Hi H. unfold getitem_label in H.
    destruct (index_in_range (_sample_ids self) idx Hi) as (sid & Hsid & _).
    rewrite Hsid in H. cbn [bind] in H.
    destruct (_samples self) as [fr | vs].
    + destruct (fr !! sid); [| discriminate H].
      destruct (img_path_args_Ok sid) as [p Hp]. rewrite Hp in H.
      cbn [bind] in H.
      replace (1 <? _window_size self) with false in H
        by (symmetry; apply Z.ltb_ge; exact Hws).
      destruct (_load_label_at self idx None) as [label | e] eqn:El;
        cbn [bind] in H.
      * destruct label as [| r label]; [| discriminate H].
        apply load_label_at_Ok in El as (sid' & sample & El).
        rewrite Hae in El. now apply load_label_nonempty in El.
      * injection H as ->.
        destruct (load_label_at_Raise _ _ _ _ Hi El) as [He | He];
          discriminate He.
    + destruct (vs !! sid); discriminate H.
  - intros Hws l H.
    apply getitem_label_Ok in H as (label & fr & Hs & _ & _ & _ & Hw).
    unfold getitem_window in Hw.
    replace (1 <? _window_size self) with true in Hw
      by (symmetry; apply Z.ltb_lt; exact Hws).
    destruct (_windows self) as [windows |]; [| discriminate Hw].
    destruct (index (_sample_ids self) idx) as [sid |] eqn:Ei;
      cbn [bind] in Hw; [| discriminate Hw].
    destruct (windows !! sid) as [window |] eqn:Ew; [| discriminate Hw].
    exists fr, windows, sid, window.
    split; [exact Hs | split; [reflexivity | split; [reflexivity |]]].
    split; [exact Ew |]. now apply window_paths_Ok.
Qed.

Definition toy_set (allow_empty : bool) : YouTubeBBDetection (list obj) :=
  {| _clips := false; _frames := FramesOne; _inference := false;
     _allow_empty := allow_empty; _window_size := 1; _window_step := 1;
     _windows := None; class_ids := [0; 1];
     index_map := default_index_map [0; 1] 2;
     _samples := FrameSamples {[ "v,1000" := two_objects;
                                 "v,2000" := edge_objects ]};
     _sample_ids := ["v,1000"; "v,2000"] |}.

Lemma toy_set_init (allow_empty : bool) :
  toy_init allow_empty 1 = Ok (toy_set allow_empty).
Proof. destruct allow_empty; reflexivity. Qed.

Lemma getitem_label_rows_witness :
  getitem_label (toy_set true) 0 = Ok [[1 # 10; 1 # 5; 1 # 2; 3 # 5; 1]%Q]
  /\ getitem_label (toy_set true) 1 = Ok [[-1; -1; -1; -1; -1]%Q]
  /\ getitem_label (toy_set true) 1 <> Raise IndexError.
Proof.
  split; [vm_compute; reflexivity | split; [vm_compute; reflexivity |]].
  apply (proj1 (proj2 (getitem_label_rows (toy_set true) 1)));
    [reflexivity | simpl; lia |].
  unfold len. simpl. lia.
Defined.

(** Two frames of one video with one annotated object each, behind a
    window of three frames: the label of the first frame is loaded, and
    then the path of the first frame of its window cannot be built from
    the single row. *)
Definition single_rows : videos_of (list obj) :=
  [("v", {[ "1000" := take 1 two_objects; "2000" := take 1 two_objects ]})].

Example getitem_window_index_error :
  exists self,
    YouTubeBBDetection_init ["train"] false false false None FramesOne
      false 3 1 [0; 1] 2 single_rows = Ok self
    /\ len self = 2 /\ _allow_empty self = true
    /\ _load_label_at self 0 None = Ok [[1 # 10; 1 # 5; 1 # 2; 3 # 5; 1; 7]%Q]
    /\ getitem_label self 0 = Raise IndexError.
Proof.
  eexists. split; [vm_compute; reflexivity |].
  repeat split; vm_compute; reflexivity.
Qed.

(** The same window over frames with two and three rows is built. *)
Example getitem_window_run :
  exists self,
    toy_init false 3 = Ok self
    /\ getitem_label self 0 = Ok [[1 # 10; 1 # 5; 1 # 2; 3 # 5; 1]%Q].
Proof. eexists. split; vm_compute; reflexivity. Qed.

(** X14.  On a dataset of frames that does not allow empty labels,
    [__getitem__] fails on a sample all of whose objects are passed over
    (see [skipped]): the label array is empty, so it has one axis only and
    [label[:, :-1]] raises [IndexError]. *)
Theorem getitem_label_index_error (self : YouTubeBBDetection (list obj))
    (fr : gmap string (list obj)) (i : nat) (sid : string)
    (sample : list obj) :
  _samples self = FrameSamples fr -> _allow_empty self = false ->
  _sample_ids self !! i = Some sid -> fr !! sid = Some sample ->
  Forall (skipped (class_ids self) (index_map self)) sample ->
  getitem_label self (Z.of_nat i) = Raise IndexError.
Proof.
  intros Hs Hae Hi Hf Hsk. unfold getitem_label.
  rewrite (index_Ok _ (Z.of_nat i) sid) by (try lia; now rewrite Nat2Z.id).
  cbn [bind]. rewrite Hs, Hf.
  destruct (img_path_args_Ok sid) as [p ->]. cbn [bind].
  rewrite (load_label_at_frames self fr i sid sample None Hs Hi Hf).
  rewrite (load_label_unfold _ _ _ _ _ []
             (load_objs_skipped _ _ _ _ _ Hsk)).
  rewrite Hae. reflexivity.
Qed.

Lemma getitem_label_index_error_witness :
  getitem_label (toy_set false) 1 = Raise IndexError.
Proof.
  apply (getitem_label_index_error (toy_set false)
           {[ "v,1000" := two_objects; "v,2000" := edge_objects ]}
           1 "v,2000" edge_objects); try reflexivity.
  constructor; [| constructor; [| constructor; [| constructor]]].
  - right. split; [exists 1; vm_compute; reflexivity |].
    do 5 right. left. simpl. lra.
  - right. split; [exists 0; vm_compute; reflexivity |]. now left.
  - left. simpl. intros Hin.
    repeat (apply elem_of_cons in Hin as [Hin | Hin]; [discriminate |]).
    inversion Hin.
Defined.

(** *** [build_coco_json] *)

(** The annotation [a] is what the loop body makes of the label row
    [box]. *)
Definition box_ann (box : list Q) (a : coco_annotation) : Prop :=
  exists v0 v1 v2 v3 v4 rest,
    box = v0 :: v1 :: v2 :: v3 :: v4 :: rest
    /\ ann_bbox a = [int_ v0; int_ v1; int_ v2 - int_ v0; int_ v3 - int_ v1]
    /\ ann_area a = (int_ v2 - int_ v0) * (int_ v3 - int_ v1)
    /\ ann_category_id a = int_ v4.

Lemma index_nth_Ok {A} (l : list A) (n : nat) (a : A) :
  index l (Z.of_nat n) = Ok a -> l !! n = Some a.
Proof.
  unfold index.
  destruct (Z.of_nat n <? 0) eqn:E; [apply Z.ltb_lt in E; lia |].
  destruct ((0 <=? Z.of_nat n) && (Z.of_nat n <? Z.of_nat (length l)));
    [| discriminate].
  rewrite Nat2Z.id. destruct (l !! n); [now intros [= ->] | discriminate].
Qed.

Lemma coco_box_Ok (sid : string) (anns anns' : list coco_annotation)
    (box : list Q) :
  coco_box sid anns box = Ok anns' ->
  exists a, anns' = anns ++ [a]
            /\ ann_id a = Z.of_nat (length anns)
            /\ ann_image_id a = sid /\ ann_iscrowd a = 0
            /\ box_ann box a.
Proof.
  unfold coco_box. intros H.
  apply bind_Ok in H as (v0 & H0 & H). apply bind_Ok in H as (v1 & H1 & H).
  apply bind_Ok in H as (v2 & H2 & H). apply bind_Ok in H as (v3 & H3 & H).
  apply bind_Ok in H as (v4 & H4 & H). injection H as <-.
  apply (index_nth_Ok box 0) in H0. apply (index_nth_Ok box 1) in H1.
  apply (index_nth_Ok box 2) in H2. apply (index_nth_Ok box 3) in H3.
  apply (index_nth_Ok box 4) in H4.
  eexists. split; [reflexivity |]. simpl.
  split; [reflexivity | split; [reflexivity | split; [reflexivity |]]].
  destruct box as [| w0 [| w1 [| w2 [| w3 [| w4 rest]]]]]; try discriminate.
  simpl in H0, H1, H2, H3, H4.
  injection H0 as ->. injection H1 as ->. injection H2 as ->.
  injection H3 as ->. injection H4 as ->.
  exists v0, v1, v2, v3, v4, rest. simpl. auto.
Qed.

Lemma coco_boxes_Ok (sid : string) (label : list (list Q)) :
  forall anns anns',
    coco_boxes sid anns label = Ok anns' ->
    exists new,
      anns' = anns ++ new
      /\ Forall2 box_ann label new
      /\ forall (k : nat) a,
           new !! k = Some a ->
           ann_id a = Z.of_nat (length anns + k)
           /\ ann_image_id a = sid /\ ann_iscrowd a = 0.
Proof.
  induction label as [| box label IH]; intros anns anns'; simpl.
  - intros [= <-]. exists []. rewrite app_nil_r.
    split; [reflexivity | split; [constructor |]].
    intros k a Hk. discriminate Hk.
  - intros H. apply bind_Ok in H as (anns1 & H1 & H).
    apply coco_box_Ok in H1 as (a0 & -> & Hid & Him & Hcr & Hbox).
    apply IH in H as (new & -> & Hnew & Hk).
    exists (a0 :: new). rewrite <- app_assoc. simpl.
    split; [reflexivity | split; [now constructor |]].
    intros [| k] a Ha; simpl in Ha.
    + injection Ha as <-. rewrite Nat.add_0_r. auto.
    + destruct (Hk k a Ha) as (Hid' & H'). split; [| exact H'].
      rewrite Hid', length_app. simpl. f_equal. lia.
Qed.

(** The loop invariant of [build_coco_json]. *)
Definition coco_inv
    (st : list coco_image * gset string * list coco_annotation) : Prop :=
  NoDup (map img_id st.1.1)
  /\ (forall s, s ∈ st.1.2 <-> s ∈ map img_id st.1.1)
  /\ forall (i : nat) a,
       st.2 !! i = Some a ->
       ann_id a = Z.of_nat i /\ ann_image_id a ∈ st.1.2 /\ ann_iscrowd a = 0.

Lemma coco_samples_inv (self : YouTubeBBDetection (list obj))
    (idxs : list Z) :
  forall st st',
    coco_inv st -> coco_samples self idxs st = Ok st' ->
    coco_inv st'
    /\ (forall s, s ∈ st.1.2 -> s ∈ st'.1.2)
    /\ (forall idx, idx ∈ idxs ->
          exists sid, index (_sample_ids self) idx = Ok sid /\ sid ∈ st'.1.2)
    /\ (forall a, a ∈ st'.2 ->
          a ∈ st.2
          \/ exists idx label box,
               _load_label_at self idx None = Ok label
               /\ box ∈ label /\ box_ann box a).
Proof.
  induction idxs as [| idx idxs IH]; intros [[imgs dn] anns] st' Hinv; simpl.
  - intros [= <-]. split; [exact Hinv | split; [auto | split]].
    + intros idx Hidx. inversion Hidx.
    + intros a Ha. now left.
  - intros H. apply bind_Ok in H as (sid & Hsid & H).
    set (st1 := if bool_decide (sid ∈ dn) then (imgs, dn)
                else (imgs ++ [{| img_file_name := sid; img_id := sid |}],
                      {[ sid ]} ∪ dn)) in *.
    destruct st1 as [imgs1 dn1] eqn:E1.
    apply bind_Ok in H as (label & Hlabel & H).
    apply bind_Ok in H as (anns1 & Hanns & H).
    destruct Hinv as (Hnd & Hdn & Hann). simpl in Hnd, Hdn, Hann.
    assert (Hsub : forall s, s ∈ dn -> s ∈ dn1).
    { intros s Hs. unfold st1 in E1.
      destruct (bool_decide (sid ∈ dn)); injection E1 as <- <-;
        [exact Hs | apply elem_of_union; right; exact Hs]. }
    assert (Hin1 : sid ∈ dn1).
    { unfold st1 in E1. destruct (bool_decide (sid ∈ dn)) eqn:Ed;
        injection E1 as <- <-;
        [now apply bool_decide_eq_true in Ed
        | apply elem_of_union; left; now apply elem_of_singleton]. }
    apply coco_boxes_Ok in Hanns as (new & -> & Hnew & Hk).
    assert (Hinv1 : coco_inv (imgs1, dn1, anns ++ new)).
    { unfold coco_inv. simpl. unfold st1 in E1.
      destruct (bool_decide (sid ∈ dn)) eqn:Ed; injection E1 as <- <-.
      - split; [exact Hnd | split; [exact Hdn |]].
        intros i a Hi. apply lookup_app_Some in Hi as [Hi | [Hge Hi]].
        + exact (Hann i a Hi).
        + destruct (Hk _ a Hi) as (Hid & Him & Hcr).
          split; [rewrite Hid; f_equal; lia | split; [| exact Hcr]].
          rewrite Him. now apply bool_decide_eq_true in Ed.
      - apply bool_decide_eq_false in Ed.
        rewrite map_app. simpl. split; [| split].
        + apply NoDup_app. split; [exact Hnd | split].
          * intros x Hx Hx'. apply list_elem_of_singleton in Hx' as ->.
            apply Ed, Hdn, Hx.
          * apply NoDup_singleton.
        + intros s. rewrite elem_of_union, elem_of_singleton,
            elem_of_app, list_elem_of_singleton, Hdn. tauto.
        + intros i a Hi. apply lookup_app_Some in Hi as [Hi | [Hge Hi]].
          * destruct (Hann i a Hi) as (Hid & Him & Hcr).
            split; [exact Hid | split; [| exact Hcr]].
            apply elem_of_union. right. exact Him.
          * destruct (Hk _ a Hi) as (Hid & Him & Hcr).
            split; [rewrite Hid; f_equal; lia | split; [| exact Hcr]].
            rewrite Him. apply elem_of_union. left.
            now apply elem_of_singleton. }
    destruct (IH _ _ Hinv1 H) as (Hinv' & Hmono & Hidx & Horigin).
    simpl in Hmono, Horigin.
    split; [exact Hinv' | split; [| split]].
    + intros s Hs. simpl in Hs. apply Hmono, Hsub, Hs.
    + intros idx' Hidx'. apply elem_of_cons in Hidx' as [-> | Hidx'].
      * exists sid. split; [exact Hsid | apply Hmono, Hin1].
      * apply Hidx, Hidx'.
    + intros a Ha. destruct (Horigin a Ha) as [Hold | Hnew'];
        [| now right].
      apply elem_of_app in Hold as [Hold | Hold]; [now left |].
      right. apply list_elem_of_lookup in Hold as [k Hka].
      destruct (Forall2_lookup_r _ _ _ _ _ Hnew Hka) as (box & Hbox & Hba).
      exists idx, label, box.
      split; [exact Hlabel | split; [| exact Hba]].
      apply list_elem_of_lookup. eauto.
Qed.

Lemma coco_inv_init : coco_inv ([], ∅, []).
Proof.
  unfold coco_inv. simpl. split; [constructor | split].
  - intros s. split; intros H;
      [apply elem_of_empty in H; contradiction | inversion H].
  - intros i a H. discriminate H.
Qed.

(** X15.  The object that [build_coco_json] dumps is a consistent COCO
    index: annotation ids count 0, 1, 2, ... in list order (so they are
    unique), every annotation points to an image that is listed, no image
    id is listed twice, every sample of the dataset is listed as an image
    even when it has no annotation, and category ids are the positions of
    the class names. *)
Theorem coco_json_consistent (self : YouTubeBBDetection (list obj))
    (classes wn_classes : list string) (j : coco_json) :
  build_coco_json self classes wn_classes = Ok j ->
  (forall (i : nat) a,
     annotations j !! i = Some a ->
     ann_id a = Z.of_nat i /\ ann_iscrowd a = 0
     /\ exists im, im ∈ images j /\ img_id im = ann_image_id a)
  /\ NoDup (map img_id (images j))
  /\ (forall sid, sid ∈ _sample_ids self -> sid ∈ map img_id (images j))
  /\ (forall (i : nat) c,
        categories j !! i = Some c ->
        cat_id c = Z.of_nat i /\ classes !! i = Some (cat_name c)
        /\ wn_classes !! i = Some (cat_wnid c)).
Proof.
  unfold build_coco_json. unfold len. rewrite range_count. cbn [bind].
  intros H. apply bind_Ok in H as (st & Hst & H). injection H as <-. simpl.
  destruct (coco_samples_inv self _ _ _ coco_inv_init Hst)
    as ((Hnd & Hdn & Hann) & _ & Hidx & _).
  split; [| split; [exact Hnd | split]].
  - intros i a Hi. destruct (Hann i a Hi) as (Hid & Him & Hcr).
    split; [exact Hid | split; [exact Hcr |]].
    apply Hdn, list_elem_of_In, in_map_iff in Him as (im & Heq & Hin).
    exists im. split; [now apply list_elem_of_In | exact Heq].
  - intros sid Hsid. apply list_elem_of_lookup in Hsid as [i Hi].
    destruct (Hidx (Z.of_nat i)) as (sid' & Hs' & Hd').
    { apply list_elem_of_In, in_map. apply in_seq.
      pose proof (lookup_lt_Some _ _ _ Hi). lia. }
    apply index_nth_Ok in Hs'. rewrite Hi in Hs'. injection Hs' as <-.
    now apply Hdn.
  - intros i c Hi. apply list_lookup_imap_Some in Hi as ([cn wn] & Hz & ->).
    simpl. apply lookup_zip_with_Some in Hz as (x & y & Hxy & Hx & Hy).
    injection Hxy as <- <-. auto.
Qed.

Lemma coco_json_consistent_witness :
  exists j,
    build_coco_json (toy_set true) ["person"; "bird"] ["n1"; "n2"] = Ok j
    /\ map ann_id (annotations j) = [0; 1]
    /\ map img_id (images j) = ["v,1000"; "v,2000"]
    /\ NoDup (map img_id (images j)).
Proof.
  destruct (build_coco_json (toy_set true) ["person"; "bird"] ["n1"; "n2"])
    as [j |] eqn:E; [| vm_compute in E; discriminate E].
  exists j. split; [reflexivity |].
  destruct (coco_json_consistent _ _ _ _ E) as (_ & Hnd & _).
  split; [| split; [| exact Hnd]];
    vm_compute in E; injection E as <-; reflexivity.
Defined.

(** [int()] on the values that a label holds. *)
Lemma int_inject (z : Z) : int_ (inject_Z z) = z.
Proof. unfold int_. simpl. apply Z.quot_1_r. Qed.

Lemma int_unit_low (v : Q) : (0 <= v)%Q -> (v < 1)%Q -> int_ v = 0.
Proof.
  unfold Qle, Qlt, int_. simpl. intros H0 H1.
  apply Z.quot_small. lia.
Qed.

Lemma int_unit_high (v : Q) :
  (0 < v)%Q -> (v <= 1)%Q -> int_ v = 0 \/ int_ v = 1.
Proof.
  unfold Qle, Qlt, int_. simpl. intros H0 H1.
  destruct (Z.eq_dec (Qnum v) (Z.pos (Qden v))) as [-> | Hne].
  - right. apply Z.quot_same. lia.
  - left. apply Z.quot_small. lia.
Qed.

(** X16.  The boxes in the dumped index are the normalised coordinates
    truncated to integers.  So every annotation is either the padding row
    (category -1, box [-1, -1, 0, 0], area 0) or has the box [0, 0, w, h]
    with [w] and [h] each 0 or 1, 1 only where the box reaches the right
    or the lower border, and the area [w * h]. *)
Theorem coco_json_boxes (self : YouTubeBBDetection (list obj))
    (classes wn_classes : list string) (j : coco_json) :
  build_coco_json self classes wn_classes = Ok j ->
  forall a, a ∈ annotations j ->
    (ann_category_id a = -1 /\ ann_bbox a = [-1; -1; 0; 0] /\ ann_area a = 0)
    \/ exists w h,
         ann_bbox a = [0; 0; w; h] /\ ann_area a = w * h
         /\ (w = 0 \/ w = 1) /\ (h = 0 \/ h = 1).
Proof.
  unfold build_coco_json. unfold len. rewrite range_count. cbn [bind].
  intros H. apply bind_Ok in H as (st & Hst & H). injection H as <-. simpl.
  destruct (coco_samples_inv self _ _ _ coco_inv_init Hst)
    as (_ & _ & _ & Horigin).
  intros a Ha. destruct (Horigin a Ha) as [Hnil | (idx & label & box & Hl & Hb & Hba)];
    [inversion Hnil |].
  apply load_label_at_Ok in Hl as (sid & sample & Hl).
  destruct Hba as (v0 & v1 & v2 & v3 & v4 & rest & -> & Hbb & Har & Hcat).
  apply load_label_origin in Hl as [Hrows | ->].
  - right. rewrite Forall_forall in Hrows.
    destruct (Hrows _ Hb)
      as (o & c & x & y & x' & y' & _ & _ & _ & _ & _ & Hv & Heq).
    injection Heq as -> -> -> -> _ _.
    destruct Hv as ((Hx0 & Hx1) & (Hy0 & Hy1) & (Hx & Hx') & (Hy & Hy')).
    rewrite (int_unit_low x Hx0 Hx1), (int_unit_low y Hy0 Hy1) in Hbb, Har.
    rewrite !Z.sub_0_r in Hbb, Har.
    exists (int_ x'), (int_ y').
    split; [exact Hbb | split; [exact Har | split]];
      apply int_unit_high; lra.
  - left. apply list_elem_of_singleton in Hb.
    unfold absent_row in Hb. injection Hb as -> -> -> -> -> _.
    rewrite !int_inject in Hbb, Har, Hcat. auto.
Qed.

Lemma coco_json_boxes_witness :
  exists j,
    build_coco_json (toy_set true) ["person"; "bird"] ["n1"; "n2"] = Ok j
    /\ map ann_bbox (annotations j) = [[0; 0; 0; 0]; [-1; -1; 0; 0]]
    /\ forall a, a ∈ annotations j ->
         (ann_category_id a = -1 /\ ann_bbox a = [-1; -1; 0; 0]
          /\ ann_area a = 0)
         \/ exists w h,
              ann_bbox a = [0; 0; w; h] /\ ann_area a = w * h
              /\ (w = 0 \/ w = 1) /\ (h = 0 \/ h = 1).
Proof.
  destruct (build_coco_json (toy_set true) ["person"; "bird"] ["n1"; "n2"])
    as [j |] eqn:E; [| vm_compute in E; discriminate E].
  exists j. split; [reflexivity |].
  split; [| exact (coco_json_boxes _ _ _ _ E)].
  vm_compute in E. injection E as <-. reflexivity.
Defined.

(** X17.  On a dataset of videos with at least one video,
    [build_coco_json] does not get past its first sample: it calls
    [_load_label] without a frame, which the assertion
    [frame is not None] refuses. *)
Theorem coco_json_videos (self : YouTubeBBDetection (list obj))
    (classes wn_classes : list string) :
  _videos self = true -> wf_dataset self -> _sample_ids self <> [] ->
  build_coco_json self classes wn_classes = Raise (AssertionError "").
Proof.
  intros Hv (_ & _ & Hkeys) Hne. unfold build_coco_json, len.
  rewrite range_count. cbn [bind].
  destruct (_sample_ids self) as [| sid ids] eqn:Eids; [contradiction |].
  cbn [length seq map coco_samples]. change (Z.of_nat 0) with 0.
  assert (Hidx : index (sid :: ids) 0 = Ok sid) by apply index_head.
  rewrite Eids, Hidx. cbn [bind].
  assert (Hl : _load_label_at self 0 None = Raise (AssertionError "")).
  { unfold _load_label_at. rewrite Eids, Hidx. cbn [bind].
    unfold _videos in Hv. specialize (Hkeys sid). unfold has_sample in Hkeys.
    destruct (_samples self) as [fr | vs]; [discriminate Hv |].
    destruct (proj1 Hkeys) as [video Hvideo]; [left |].
    rewrite Hvideo. reflexivity. }
  destruct (bool_decide (sid ∈ (∅ : gset string))); rewrite Hl; reflexivity.
Qed.

Definition toy_videos : YouTubeBBDetection (list obj) :=
  {| _clips := false; _frames := FramesOne; _inference := false;
     _allow_empty := true; _window_size := 1; _window_step := 1;
     _windows := None; class_ids := [0; 1];
     index_map := default_index_map [0; 1] 2;
     _samples := VideoSamples {[ "v" := {[ "1000" := two_objects;
                                            "2000" := edge_objects ]} ]};
     _sample_ids := ["v"] |}.

Lemma toy_videos_init :
  YouTubeBBDetection_init ["train"] false true false None FramesOne
    false 1 1 [0; 1] 2 toy_grouped = Ok toy_videos.
Proof. reflexivity. Qed.

Lemma coco_json_videos_witness :
  build_coco_json toy_videos ["person"; "bird"] ["n1"; "n2"]
  = Raise (AssertionError "").
Proof.
  apply coco_json_videos; [reflexivity | | discriminate].
  split; [repeat constructor | split].
  - apply NoDup_singleton.
  - intros sid. unfold has_sample. simpl.
    rewrite list_elem_of_singleton. split.
    + intros ->. rewrite lookup_singleton_eq. eauto.
    + intros [m Hm]. apply lookup_singleton_Some in Hm as [Hm _].
      now symmetry.
Defined.

End YouTubeBBDataSpec.

(** ** detect_yolo3.py: the class map and the image limit *)

Module DetectToolsSpec.
Import Py PyFacts DetectDriver DetectTools.

(** The entry [m] of the class map for the class [c]. *)
Definition class_entry (toc : list string) (c : string) (m : Z) : Prop :=
  (m = -1 /\ c ∉ toc)
  \/ exists i : nat,
       m = Z.of_nat i /\ toc !! i = Some c
       /\ forall j : nat, (j < i)%nat -> toc !! j <> Some c.

Lemma index_of_first (c : string) (l : list string) :
  c ∈ l ->
  exists i : nat,
    index_of c l = Ok (Z.of_nat i) /\ l !! i = Some c
    /\ forall j : nat, (j < i)%nat -> l !! j <> Some c.
Proof.
  induction l as [| x l IH]; intros Hc; [inversion Hc |]. simpl.
  destruct (String.eqb x c) eqn:E.
  - apply String.eqb_eq in E as ->. exists 0%nat.
    split; [reflexivity | split; [reflexivity |]]. intros j Hj. lia.
  - apply String.eqb_neq in E.
    apply elem_of_cons in Hc as [-> | Hc]; [contradiction |].
    destruct (IH Hc) as (i & Hi & Hl & Hfirst).
    exists (S i). rewrite Hi. simpl.
    split; [f_equal; lia | split; [exact Hl |]].
    intros [| j] Hj; simpl; [congruence | apply Hfirst; lia].
Qed.

Lemma get_class_map_entries (toc eoc : list string) :
  exists cm, get_class_map toc eoc = Ok cm /\ Forall2 (class_entry toc) eoc cm.
Proof.
  unfold get_class_map. apply mapM_Forall2. intros c _.
  destruct (bool_decide (c ∈ toc)) eqn:E.
  - apply bool_decide_eq_true in E.
    destruct (index_of_first c toc E) as (i & Hi & Hl & Hfirst).
    exists (Z.of_nat i). split; [exact Hi |]. right. eauto.
  - apply bool_decide_eq_false in E. exists (-1).
    split; [reflexivity |]. now left.
Qed.

(** X18.  [get_class_map] never raises (the membership test guards the
    [index] call) and returns one entry per class of the evaluation set:
    -1 for a class the training set does not have, otherwise the first
    position of that class among the training classes. *)
Theorem get_class_map_spec (toc eoc : list string) :
  exists cm,
    get_class_map toc eoc = Ok cm
    /\ length cm = length eoc
    /\ Forall2 (class_entry toc) eoc cm.
Proof.
  destruct (get_class_map_entries toc eoc) as (cm & Hrun & Hcm).
  exists cm. split; [exact Hrun | split; [| exact Hcm]].
  symmetry. exact (Forall2_length _ _ _ Hcm).
Qed.

Example get_class_map_run :
  get_class_map ["n01"; "n02"; "n03"] ["n03"; "n09"; "n01"] = Ok [2; -1; 0].
Proof. reflexivity. Qed.

(** X19.  Evaluating on the classes trained on: when no class name is
    listed twice, the class map is the identity [0, 1, ..., n-1]. *)
Theorem get_class_map_same (l : list string) :
  NoDup l -> get_class_map l l = Ok (map Z.of_nat (seq 0 (length l))).
Proof.
  intros Hnd. destruct (get_class_map_entries l l) as (cm & -> & Hcm).
  f_equal. apply list_eq_same_length with (length l).
  - now rewrite length_map, length_seq.
  - symmetry. exact (Forall2_length _ _ _ Hcm).
  - intros k m m' Hk Hm Hm'.
    destruct (Forall2_lookup_r _ _ _ _ _ Hcm Hm) as (c & Hc & He).
    change (map Z.of_nat (seq 0 (length l)))
      with (Z.of_nat <$> seq 0 (length l)) in Hm'.
    rewrite list_lookup_fmap, lookup_seq_lt in Hm' by exact Hk.
    simpl in Hm'. injection Hm' as <-.
    destruct He as [[_ Hnot] | (i & -> & Hi & _)].
    + exfalso. apply Hnot. apply list_elem_of_lookup. eauto.
    + f_equal. exact (NoDup_lookup _ _ _ _ Hnd Hi Hc).
Qed.

Lemma get_class_map_same_witness :
  get_class_map ["n01"; "n02"; "n03"] ["n01"; "n02"; "n03"] = Ok [0; 1; 2].
Proof.
  apply (get_class_map_same ["n01"; "n02"; "n03"]).
  repeat (apply NoDup_cons; split;
          [intros H; repeat (apply elem_of_cons in H as [H | H];
                             [discriminate H |]); inversion H |]).
  apply NoDup_nil. exact I.
Defined.

(** *** [detect]: the limit [max_do] *)

Section DetectLimit.
Variable sample_path : Z -> string.

(** The number of images in a list of batches. *)
Definition seen (batches : list batch) : Z :=
  fold_right (fun b n => Z.of_nat (length (images b)) + n) 0 batches.

Lemma seen_nonneg (batches : list batch) : 0 <= seen batches.
Proof. induction batches as [| b l IH]; simpl; lia. Qed.

(** X20.  [detect] checks [max_do] only after a whole batch: once the
    images seen exceed [max_do], the batch that crossed the limit is
    still recorded in full and every later batch is left out. *)
Theorem detect_stops_at_max_do (detection_threshold : Q) (max_do : Z)
    (pre post : list batch) (b : batch) :
  forall (c : Z) (boxes : gmap string (list (list Q))),
    max_do < c + seen (pre ++ [b]) ->
    detect_batches sample_path detection_threshold max_do
                   (pre ++ b :: post) c boxes
    = detect_batches sample_path detection_threshold max_do
                     (pre ++ [b]) c boxes.
Proof.
  induction pre as [| p pre IH]; intros c boxes Hc; simpl in *.
  - destruct (detect_images sample_path detection_threshold (shape2 b)
                (images b) boxes) as [boxes' | e]; simpl; [| reflexivity].
    destruct (max_do <? c + Z.of_nat (length (images b))) eqn:E;
      [reflexivity |].
    apply Z.ltb_ge in E. lia.
  - destruct (detect_images sample_path detection_threshold (shape2 p)
                (images p) boxes) as [boxes' | e]; simpl; [| reflexivity].
    destruct (max_do <? c + Z.of_nat (length (images p))); [reflexivity |].
    apply IH. lia.
Qed.

End DetectLimit.

Definition image_of (i : Z) : image :=
  {| sidx := i; id := [3]%Q; score := [9 # 10]%Q;
     box := [[0; 0; 208; 500]%Q] |}.

Definition three_batches : list batch :=
  [{| shape2 := 416; images := [image_of 0; image_of 1] |};
   {| shape2 := 416; images := [image_of 2; image_of 3] |};
   {| shape2 := 416; images := [image_of 4; image_of 5] |}].

Lemma detect_stops_at_max_do_witness :
  detect_batches (fun i => if i <? 3 then "a" else "b") (1 # 2) 3
                 three_batches 0 ∅
  = detect_batches (fun i => if i <? 3 then "a" else "b") (1 # 2) 3
                   (take 2 three_batches) 0 ∅.
Proof.
  apply (detect_stops_at_max_do (fun i => if i <? 3 then "a" else "b")
           (1 # 2) 3
           [{| shape2 := 416; images := [image_of 0; image_of 1] |}]
           [{| shape2 := 416; images := [image_of 4; image_of 5] |}]
           {| shape2 := 416; images := [image_of 2; image_of 3] |} 0 ∅).
  simpl. lia.
Defined.

End DetectToolsSpec.

(** ** train_yolov3.py: checkpoints and the learning-rate schedule *)

Module TrainLoopSpec.
Import Py PyFacts TrainLoop.

(** [range(a, b, 1)] is [a, a+1, ..., b-1]. *)
Lemma range_step1 (a b : Z) :
  range a b 1 = Ok (map (fun k : nat => a + Z.of_nat k) (seq 0 (Z.to_nat (b - a)))).
Proof.
  unfold range, range_len. simpl.
  replace ((b - a + 1 - 1) / 1) with (b - a) by (rewrite Z.div_1_r; lia).
  f_equal.
  replace (Z.to_nat (Z.max 0 (b - a))) with (Z.to_nat (b - a)) by lia.
  apply map_ext. intros k. lia.
Qed.

Lemma elem_of_range_step1 (a b d : Z) :
  d ∈ map (fun k : nat => a + Z.of_nat k) (seq 0 (Z.to_nat (b - a)))
  <-> a <= d < b.
Proof.
  rewrite list_elem_of_In, in_map_iff. split.
  - intros (k & <- & Hk). apply in_seq in Hk. lia.
  - intros Hd. exists (Z.to_nat (d - a)). split; [lia |].
    apply in_seq. lia.
Qed.

Lemma remove_epochs_files (ds : list Z) (st : checkpoints) (d : Z) :
  d ∈ epoch_params (fold_left remove_epoch ds st)
  <-> d ∈ epoch_params st /\ d ∉ ds.
Proof.
  revert st. induction ds as [| d0 ds IH]; intros st; simpl.
  - split; [intros H; split; [exact H | intros H'; inversion H'] | tauto].
  - rewrite IH. simpl. rewrite elem_of_difference, elem_of_singleton,
      not_elem_of_cons. tauto.
Qed.

Lemma remove_epochs_best (ds : list Z) (st : checkpoints) :
  best_map (fold_left remove_epoch ds st) = best_map st
  /\ best_params (fold_left remove_epoch ds st) = best_params st
  /\ best_map_log (fold_left remove_epoch ds st) = best_map_log st.
Proof.
  revert st. induction ds as [| d0 ds IH]; intros st; simpl; [auto |].
  destruct (IH (remove_epoch st d0)) as (H1 & H2 & H3). auto.
Qed.

(** The first step of [save_params]: the best map so far. *)
Definition note_best (st : checkpoints) (current_map : float) (epoch : Z)
  : checkpoints :=
  if (best_map st <? current_map)%float then
    {| best_map := current_map; best_params := Some epoch;
       best_map_log := best_map_log st ++ [(epoch, current_map)];
       epoch_params := epoch_params st |}
  else st.

Lemma note_best_files (st : checkpoints) (m : float) (e : Z) :
  epoch_params (note_best st m e) = epoch_params st.
Proof. unfold note_best. now destruct (best_map st <? m)%float. Qed.

(** [save_params] always returns. *)
Lemma save_params_Ok (st : checkpoints) (m : float) (e si : Z) :
  exists st',
    save_params st m e si = Ok st'
    /\ best_map st' = best_map (note_best st m e)
    /\ best_params st' = best_params (note_best st m e)
    /\ best_map_log st' = best_map_log (note_best st m e)
    /\ forall d,
         d ∈ epoch_params st'
         <-> (d ∈ epoch_params st
              \/ (d = e /\ (si < 0 \/ (0 < si /\ e mod si = 0))))
             /\ ~ (si < 0 /\ e mod (- si) = 0
                   /\ Z.max 0 (e + si + 1) <= d < e).
Proof.
  unfold save_params. fold (note_best st m e).
  set (st0 := note_best st m e).
  assert (Hf0 : epoch_params st0 = epoch_params st) by apply note_best_files.
  destruct (0 <? si) eqn:Epos.
  - apply Z.ltb_lt in Epos.
    replace (si <? 0) with false by (symmetry; apply Z.ltb_ge; lia).
    simpl.
    destruct (e mod si =? 0) eqn:Em.
    + apply Z.eqb_eq in Em. eexists. split; [reflexivity |]. simpl.
      split; [reflexivity | split; [reflexivity | split; [reflexivity |]]].
      intros d. rewrite elem_of_union, elem_of_singleton, Hf0.
      intuition lia.
    + apply Z.eqb_neq in Em. exists st0. split; [reflexivity |].
      split; [reflexivity | split; [reflexivity | split; [reflexivity |]]].
      intros d. rewrite Hf0. intuition lia.
  - apply Z.ltb_ge in Epos. cbn [andb].
    destruct (si <? 0) eqn:Eneg.
    + apply Z.ltb_lt in Eneg.
      destruct (e mod - si =? 0) eqn:Em.
      * apply Z.eqb_eq in Em. rewrite range_step1. cbn [bind].
        eexists. split; [reflexivity |].
        destruct (remove_epochs_best
                    (map (fun k : nat => Z.max 0 (e + si + 1) + Z.of_nat k)
                         (seq 0 (Z.to_nat (e - Z.max 0 (e + si + 1)))))
                    (save_epoch st0 e)) as (H1 & H2 & H3).
        rewrite H1, H2, H3. simpl.
        split; [reflexivity | split; [reflexivity | split; [reflexivity |]]].
        intros d. rewrite remove_epochs_files, elem_of_range_step1. simpl.
        rewrite elem_of_union, elem_of_singleton, Hf0.
        intuition lia.
      * apply Z.eqb_neq in Em. eexists. split; [reflexivity |]. simpl.
        split; [reflexivity | split; [reflexivity | split; [reflexivity |]]].
        intros d. rewrite elem_of_union, elem_of_singleton, Hf0.
        intuition lia.
    + apply Z.ltb_ge in Eneg. exists st0. split; [reflexivity |].
      split; [reflexivity | split; [reflexivity | split; [reflexivity |]]].
      intros d. rewrite Hf0. intuition lia.
Qed.

Lemma save_epochs_Ok (si : Z) (cm : Z -> float) (es : list Z) :
  forall st, exists st', save_epochs si cm es st = Ok st'.
Proof.
  induction es as [| e es IH]; intros st; simpl; [eauto |].
  destruct (save_params_Ok st (cm e) e si) as (st1 & -> & _). cbn [bind].
  apply IH.
Qed.

Lemma save_epochs_positive (n : Z) (cm : Z -> float) (es : list Z) :
  0 < n ->
  forall st st',
    save_epochs n cm es st = Ok st' ->
    forall d, d ∈ epoch_params st'
              <-> d ∈ epoch_params st \/ (d ∈ es /\ d mod n = 0).
Proof.
  intros Hn. induction es as [| e es IH]; intros st st'; simpl.
  - intros [= <-] d. split; [now left | intros [H | [H _]]; [exact H | inversion H]].
  - destruct (save_params_Ok st (cm e) e n) as (st1 & -> & _ & _ & _ & Hf).
    cbn [bind]. intros H d. rewrite (IH _ _ H d), Hf, elem_of_cons.
    split.
    + intros [[[H1 | [-> [H1 | [_ H1]]]] _] | [H1 H2]]; try lia; auto.
    + intros [H1 | [[-> | H1] H2]].
      * left. split; [now left | lia].
      * left. split; [right; split; [reflexivity | right; now split] | lia].
      * right. now split.
Qed.

(** X21.  Checkpoints with a positive [save_interval].  Over the epochs
    that the training loop runs, [start_epoch] to [epochs] inclusive,
    [save_params] always returns and writes a parameter file for exactly
    the epochs divisible by the interval; it removes none. *)
Theorem checkpoints_positive_interval (start_epoch epochs n : Z)
    (cm : Z -> float) (st : checkpoints) :
  0 < n ->
  exists st',
    train_checkpoints start_epoch epochs n cm st = Ok st'
    /\ forall d, d ∈ epoch_params st'
                 <-> d ∈ epoch_params st
                     \/ (start_epoch <= d <= epochs /\ d mod n = 0).
Proof.
  intros Hn. unfold train_checkpoints. rewrite range_step1. cbn [bind].
  destruct (save_epochs_Ok n cm
              (map (fun k : nat => start_epoch + Z.of_nat k)
                   (seq 0 (Z.to_nat (epochs + 1 - start_epoch)))) st)
    as [st' Hrun].
  exists st'. split; [exact Hrun |].
  intros d. rewrite (save_epochs_positive n cm _ Hn _ _ Hrun d),
    elem_of_range_step1.
  split; (intros [H | [H1 H2]]; [now left | right; split; [lia | exact H2]]).
Qed.

Definition fresh : checkpoints :=
  {| best_map := 0%float; best_params := None; best_map_log := [];
     epoch_params := ∅ |}.

Lemma checkpoints_positive_interval_witness :
  exists st',
    train_checkpoints 0 20 10 (fun _ => 0%float) fresh = Ok st'
    /\ (10 ∈ epoch_params st') /\ ~ (11 ∈ epoch_params st').
Proof.
  destruct (checkpoints_positive_interval 0 20 10 (fun _ => 0%float) fresh
              ltac:(lia)) as (st' & Hrun & Hf).
  exists st'. split; [exact Hrun | split].
  - apply Hf. right. split; [lia | reflexivity].
  - intros H. apply Hf in H as [H | [_ H]];
      [apply elem_of_empty in H; exact H | discriminate H].
Defined.

(** *** A negative [save_interval] *)

(** The parameter files left after epoch [e] of a run that started at
    epoch [s], with the interval [-n]: the multiples of [n], and the
    epochs after the last multiple of [n]. *)
Definition kept_files (s n e d : Z) : Prop :=
  s <= d <= e /\ (d mod n = 0 \/ e - e mod n < d).

Lemma mod_pred_nonzero (n e : Z) :
  0 < n -> e mod n <> 0 -> (e - 1) mod n = e mod n - 1.
Proof.
  intros Hn He. pose proof (Z.mod_pos_bound e n Hn) as Hb.
  pose proof (Z.div_mod e n ltac:(lia)) as Hd.
  symmetry. apply (Z.mod_unique (e - 1) n (e / n)); lia.
Qed.

Lemma mod_pred_zero (n e : Z) :
  0 < n -> e mod n = 0 -> (e - 1) mod n = n - 1.
Proof.
  intros Hn He. pose proof (Z.div_mod e n ltac:(lia)) as Hd.
  symmetry. apply (Z.mod_unique (e - 1) n (e / n - 1)); lia.
Qed.

Lemma multiples_apart (n d e : Z) :
  0 < n -> d mod n = 0 -> e mod n = 0 -> d < e -> d <= e - n.
Proof.
  intros Hn Hd He Hlt.
  pose proof (Z.div_mod d n ltac:(lia)) as Hdd.
  pose proof (Z.div_mod e n ltac:(lia)) as Hde.
  assert (d / n < e / n) by nia. nia.
Qed.

Lemma save_negative_step (s n e : Z) (st : checkpoints) (m : float) :
  0 < n -> 0 <= s -> s <= e ->
  (forall d, d ∈ epoch_params st <-> kept_files s n (e - 1) d) ->
  exists st',
    save_params st m e (- n) = Ok st'
    /\ forall d, d ∈ epoch_params st' <-> kept_files s n e d.
Proof.
  intros Hn Hs Hse Hprev.
  destruct (save_params_Ok st m e (- n)) as (st' & Hrun & _ & _ & _ & Hf).
  exists st'. split; [exact Hrun |].
  intros d. rewrite Hf, Hprev, Z.opp_involutive. unfold kept_files.
  destruct (Z.eq_dec (e mod n) 0) as [Hm | Hm].
  - rewrite (mod_pred_zero n e Hn Hm), Hm.
    split.
    + intros [[(Hr & Hk) | (-> & _)] Hnot].
      * split; [lia |]. left. destruct Hk as [Hk | Hk]; [exact Hk |].
        exfalso. apply Hnot. lia.
      * split; [lia | now left].
    + intros (Hr & [Hk | Hk]); [| lia].
      destruct (Z.eq_dec d e) as [-> | Hne].
      * split; [right; split; [reflexivity | left; lia] | lia].
      * assert (Hle : d <= e - n)
          by (apply multiples_apart; [lia | exact Hk | exact Hm | lia]).
        split; [left; split; [lia | now left] | lia].
  - rewrite (mod_pred_nonzero n e Hn Hm).
    pose proof (Z.mod_pos_bound e n Hn) as Hb.
    split.
    + intros [[(Hr & Hk) | (-> & _)] _].
      * split; [lia |]. destruct Hk as [Hk | Hk]; [now left | right; lia].
      * split; [lia | right; lia].
    + intros (Hr & Hk). split; [| tauto].
      destruct (Z.eq_dec d e) as [-> | Hne].
      * right. split; [reflexivity | left; lia].
      * left. split; [lia |].
        destruct Hk as [Hk | Hk]; [now left | right; lia].
Qed.

Lemma save_epochs_negative (s n : Z) (cm : Z -> float) :
  0 < n -> 0 <= s ->
  forall (k : nat) (a : Z) (st : checkpoints),
    s <= a ->
    (forall d, d ∈ epoch_params st <-> kept_files s n (a - 1) d) ->
    exists st',
      save_epochs (- n) cm
                  (map (fun i : nat => a + Z.of_nat i) (seq 0 k)) st = Ok st'
      /\ forall d, d ∈ epoch_params st'
                   <-> kept_files s n (a + Z.of_nat k - 1) d.
Proof.
  intros Hn Hs. induction k as [| k IH]; intros a st Ha Hprev.
  - exists st. split; [reflexivity |]. intros d.
    replace (a + Z.of_nat 0 - 1) with (a - 1) by lia. apply Hprev.
  - cbn [seq map save_epochs]. replace (a + Z.of_nat 0) with a by lia.
    destruct (save_negative_step s n a st (cm a) Hn Hs Ha Hprev)
      as (st1 & -> & H1).
    cbn [bind]. rewrite <- seq_shift, map_map.
    destruct (IH (a + 1) st1 ltac:(lia)) as (st' & Hrun & H').
    { intros d. replace (a + 1 - 1) with a by lia. apply H1. }
    exists st'. split.
    + rewrite <- Hrun. f_equal. apply map_ext. intros i. lia.
    + intros d. rewrite H'.
      replace (a + 1 + Z.of_nat k - 1) with (a + Z.of_nat (S k) - 1) by lia.
      reflexivity.
Qed.

(** X22.  Checkpoints with a negative [save_interval], [-n].  A run of
    the training loop from [start_epoch >= 0] to [epochs] that starts
    without parameter files writes a file in every epoch and, whenever
    the epoch is a multiple of [n], deletes the files of the [n - 1]
    epochs before it.  What is left at the end is the files of the
    multiples of [n] and of the epochs after the last multiple: so at
    most [n - 1] files are ever kept beside the ones wanted. *)
Theorem checkpoints_negative_interval (start_epoch epochs n : Z)
    (cm : Z -> float) (st : checkpoints) :
  0 < n -> 0 <= start_epoch -> epoch_params st = ∅ ->
  exists st',
    train_checkpoints start_epoch epochs (- n) cm st = Ok st'
    /\ forall d,
         d ∈ epoch_params st'
         <-> start_epoch <= d <= epochs
             /\ (d mod n = 0 \/ epochs - epochs mod n < d).
Proof.
  intros Hn Hs Hempty. unfold train_checkpoints. rewrite range_step1.
  cbn [bind].
  destruct (save_epochs_negative start_epoch n cm Hn Hs
              (Z.to_nat (epochs + 1 - start_epoch)) start_epoch st
              ltac:(lia)) as (st' & Hrun & Hf).
  { intros d. rewrite Hempty. unfold kept_files.
    split; [intros H; apply elem_of_empty in H; contradiction | lia]. }
  exists st'. split; [exact Hrun |].
  intros d. rewrite Hf. unfold kept_files.
  destruct (Z_lt_le_dec epochs start_epoch) as [Hlt | Hle].
  - split; intros [H _]; lia.
  - replace (start_epoch + Z.of_nat (Z.to_nat (epochs + 1 - start_epoch)) - 1)
      with epochs by lia.
    reflexivity.
Qed.

Lemma checkpoints_negative_interval_witness :
  exists st',
    train_checkpoints 0 23 (- 10) (fun _ => 0%float) fresh = Ok st'
    /\ 20 ∈ epoch_params st' /\ 22 ∈ epoch_params st'
    /\ ~ (19 ∈ epoch_params st').
Proof.
  destruct (checkpoints_negative_interval 0 23 10 (fun _ => 0%float) fresh
              ltac:(lia) ltac:(lia) eq_refl) as (st' & Hrun & Hf).
  exists st'. split; [exact Hrun | split; [| split]].
  - apply Hf. split; [lia | left; reflexivity].
  - apply Hf. split; [lia | right; reflexivity].
  - intros H. apply Hf in H as [_ [H | H]]; [discriminate H |].
    revert H. vm_compute. intros H. discriminate H.
Defined.

(** *** The best map *)

(** Binary64's [<] is a strict order, and nothing is below a nan. *)
Lemma SFltb_irrefl (x : spec_float) : SFltb x x = false.
Proof.
  unfold SFltb, SFcompare.
  destruct x as [s | s | | s m e]; try destruct s; try reflexivity;
    rewrite Z.compare_refl, Pos.compare_cont_refl; reflexivity.
Qed.

Ltac lex_order ex ey ez mx my mz :=
  destruct (Z.compare_spec ex ey), (Z.compare_spec ey ez),
           (Z.compare_spec ex ez); try lia; try discriminate;
    try reflexivity; subst;
  change (Pos.compare_cont Eq mx my) with (Pos.compare mx my);
  change (Pos.compare_cont Eq my mz) with (Pos.compare my mz);
  change (Pos.compare_cont Eq mx mz) with (Pos.compare mx mz);
  destruct (Pos.compare_spec mx my), (Pos.compare_spec my mz),
           (Pos.compare_spec mx mz); try lia; try discriminate;
    try reflexivity.

Lemma SFltb_trans (x y z : spec_float) :
  SFltb x y = true -> SFltb y z = true -> SFltb x z = true.
Proof.
  unfold SFltb, SFcompare.
  destruct x as [sx | sx | | sx mx ex], y as [sy | sy | | sy my ey],
           z as [sz | sz | | sz mz ez];
    try destruct sx; try destruct sy; try destruct sz;
    try discriminate; try reflexivity;
    lex_order ex ey ez mx my mz.
Qed.

Lemma SFltb_not_nan (x y : spec_float) :
  SFltb x y = true -> SFeqb y y = true.
Proof.
  unfold SFltb, SFeqb, SFcompare.
  destruct x as [sx | sx | | sx mx ex], y as [sy | sy | | sy my ey];
    try destruct sx; try destruct sy; try discriminate; try reflexivity;
    intros _; rewrite Z.compare_refl, Pos.compare_cont_refl; reflexivity.
Qed.

Lemma ltb_irrefl (x : float) : (x <? x)%float = false.
Proof. rewrite ltb_spec. apply SFltb_irrefl. Qed.

Lemma ltb_trans (x y z : float) :
  (x <? y)%float = true -> (y <? z)%float = true -> (x <? z)%float = true.
Proof. rewrite !ltb_spec. apply SFltb_trans. Qed.

Lemma ltb_not_nan (x y : float) :
  (x <? y)%float = true -> PrimFloat.is_nan y = false.
Proof.
  rewrite ltb_spec. intros H. unfold PrimFloat.is_nan.
  rewrite FloatAxioms.eqb_spec, (SFltb_not_nan _ _ H). reflexivity.
Qed.

(** What is not below the smaller is not below the larger. *)
Lemma ltb_false_up (x y z : float) :
  (x <? z)%float = false -> (x <? y)%float = true ->
  (y <? z)%float = false.
Proof.
  intros Hxz Hxy. destruct (y <? z)%float eqn:Hyz; [| reflexivity].
  now rewrite (ltb_trans x y z Hxy Hyz) in Hxz.
Qed.

Lemma note_best_cases (st : checkpoints) (m : float) (e : Z) :
  ((best_map st <? m)%float = false /\ note_best st m e = st)
  \/ ((best_map st <? m)%float = true
      /\ best_map (note_best st m e) = m
      /\ best_params (note_best st m e) = Some e
      /\ best_map_log (note_best st m e) = best_map_log st ++ [(e, m)]).
Proof.
  unfold note_best. destruct (best_map st <? m)%float; [right | left]; auto.
Qed.

(** X23.  The best map.  Whatever the interval, a run of [save_params]
    over a list of epochs returns; [best_map] is never replaced by a
    smaller value, and at the end no epoch of the run has a map greater
    than it, in the sense of Python's [>] on floats.  Either it is
    unchanged, and then so are [_best.params] and the log, or it is the
    map of an epoch of the run that beat the initial best: that map is
    not a nan, that epoch's parameters are the ones in [_best.params],
    and its line is the last of the log. *)
Theorem best_map_is_max (si : Z) (cm : Z -> float) (es : list Z)
    (st : checkpoints) :
  exists st',
    save_epochs si cm es st = Ok st'
    /\ (best_map st' <? best_map st)%float = false
    /\ (forall e, e ∈ es -> (best_map st' <? cm e)%float = false)
    /\ ((best_map st' = best_map st /\ best_params st' = best_params st
         /\ best_map_log st' = best_map_log st)
        \/ exists e log,
             e ∈ es /\ best_map st' = cm e /\ best_params st' = Some e
             /\ (best_map st <? cm e)%float = true
             /\ PrimFloat.is_nan (cm e) = false
             /\ best_map_log st' = log ++ [(e, cm e)]).
Proof.
  revert st. induction es as [| e es IH]; intros st.
  - exists st. simpl. split; [reflexivity | split; [apply ltb_irrefl | split]].
    + intros e He. inversion He.
    + left. auto.
  - simpl.
    destruct (save_params_Ok st (cm e) e si) as (st1 & -> & Hb & Hp & Hl & _).
    cbn [bind].
    destruct (IH st1) as (st' & Hrun & Hle & Hall & Hlast).
    exists st'. split; [exact Hrun |].
    (* how the first epoch moved the best map *)
    assert (Hfirst :
      ((best_map st <? cm e)%float = false /\ best_map st1 = best_map st
       /\ best_params st1 = best_params st
       /\ best_map_log st1 = best_map_log st)
      \/ ((best_map st <? cm e)%float = true /\ best_map st1 = cm e
          /\ best_params st1 = Some e
          /\ best_map_log st1 = best_map_log st ++ [(e, cm e)])).
    { destruct (note_best_cases st (cm e) e)
        as [[Hn Hsame] | (Hlt & Hm & Hpe & Hlog)].
      - left. rewrite Hb, Hp, Hl, Hsame. auto.
      - right. rewrite Hb, Hp, Hl, Hm, Hpe, Hlog. auto. }
    (* how the rest of the run moved it *)
    assert (Hrest : best_map st' = best_map st1
                    \/ (best_map st1 <? best_map st')%float = true).
    { destruct Hlast as [(H1 & _) | (e' & log & _ & H1 & _ & H3 & _)];
        [now left | right; now rewrite H1]. }
    split; [| split].
    + destruct (best_map st' <? best_map st)%float eqn:E; [| reflexivity].
      exfalso.
      destruct Hfirst as [(_ & Hs & _) | (Hlt & Hs & _)].
      * rewrite Hs in Hle. congruence.
      * rewrite Hs in Hle.
        rewrite (ltb_trans _ _ _ E Hlt) in Hle. discriminate Hle.
    + intros e' He'. apply elem_of_cons in He' as [-> | He'];
        [| now apply Hall].
      assert (H1 : (best_map st1 <? cm e)%float = false).
      { destruct Hfirst as [(Hn & Hs & _) | (_ & Hs & _)];
          rewrite Hs; [exact Hn | apply ltb_irrefl]. }
      destruct Hrest as [-> | Hup]; [exact H1 |].
      exact (ltb_false_up _ _ _ H1 Hup).
    + destruct Hlast
        as [(H1 & H2 & H3) | (e' & log & He' & H1 & H2 & H3 & H4 & H5)].
      * destruct Hfirst as [(_ & Hs & Hps & Hls) | (Hlt & Hs & Hps & Hls)].
        -- left. rewrite H1, H2, H3, Hs, Hps, Hls. auto.
        -- right. exists e, (best_map_log st).
           split; [left |].
           rewrite H1, H2, H3, Hs, Hps, Hls.
           repeat split; try assumption.
           exact (ltb_not_nan _ _ Hlt).
      * right. exists e', log. split; [now right |].
        split; [exact H1 | split; [exact H2 | split]]; [| auto].
        destruct Hfirst as [(_ & Hs & _) | (Hlt & Hs & _)].
        -- now rewrite <- Hs.
        -- rewrite Hs in H3. exact (ltb_trans _ _ _ Hlt H3).
Qed.

(** A run in which the second epoch has no map: the nan is passed over,
    and the third epoch still has to beat the first. *)
Example best_map_run :
  exists st',
    save_epochs 1 (fun e => if e =? 1 then nan
                            else if e =? 2 then 0x1.6p-1%float
                                 else 0x1p-1%float)
                [0; 1; 2] fresh
    = Ok st'
    /\ best_map st' = 0x1.6p-1%float /\ best_params st' = Some 2
    /\ best_map_log st' = [(0, 0x1p-1%float); (2, 0x1.6p-1%float)].
Proof. eexists. split; [vm_compute; reflexivity |]. repeat split. Qed.

(** *** The decay epochs when training is resumed *)

Section LrDecayFacts.
Context {num : Type} (mul : num -> num -> num).

Lemma decay_loop_spec (lr_decay : num) (s w : Z) (es : list Z) :
  forall lr tmp,
    decay_loop mul lr_decay s w es lr tmp
    = (Nat.iter (length (List.filter (fun e => e <=? s) es))
                (fun x => mul x lr_decay) lr,
       tmp ++ map (fun e => e - s - w)
                  (List.filter (fun e => negb (e <=? s)) es)).
Proof.
  induction es as [| e es IH]; intros lr tmp; simpl.
  - now rewrite app_nil_r.
  - destruct (e <=? s); simpl.
    + rewrite IH. f_equal. symmetry.
      exact (Nat.iter_succ_r (length (List.filter (fun e0 => e0 <=? s) es))
                             (fun x => mul x lr_decay) lr).
    + rewrite IH. f_equal. now rewrite <- app_assoc.
Qed.

(** X24.  Resuming the learning-rate schedule.  With the decay epochs
    given as a list ([lr_decay_period] not positive), [train] multiplies
    the learning rate by [lr_decay] once for every decay epoch that is
    not after [start_epoch], and keeps the other decay epochs in their
    order, each counted from [start_epoch + warmup_epochs].  When every
    decay epoch is still ahead the learning rate is untouched. *)
Theorem resume_decay_spec (period epochs : Z) (es : list Z)
    (lr lr_decay : num) (s w : Z) :
  period <= 0 ->
  resume_decay mul period epochs es lr lr_decay s w
  = Ok (Nat.iter (length (List.filter (fun e => e <=? s) es))
                 (fun x => mul x lr_decay) lr,
        map (fun e => e - s - w) (List.filter (fun e => negb (e <=? s)) es))
  /\ (Forall (fun e => s < e) es ->
      resume_decay mul period epochs es lr lr_decay s w
      = Ok (lr, map (fun e => e - s - w) es)).
Proof.
  intros Hp. unfold resume_decay.
  replace (0 <? period) with false by (symmetry; apply Z.ltb_ge; lia).
  cbn [bind]. rewrite decay_loop_spec. split; [reflexivity |].
  intros Hall.
  assert (Hnone : List.filter (fun e => e <=? s) es = []).
  { induction Hall as [| e l He _ IH]; simpl; [reflexivity |].
    replace (e <=? s) with false by (symmetry; apply Z.leb_gt; lia).
    exact IH. }
  assert (Hkeep : List.filter (fun e => negb (e <=? s)) es = es).
  { induction Hall as [| e l He _ IH]; simpl; [reflexivity |].
    replace (e <=? s) with false by (symmetry; apply Z.leb_gt; lia).
    simpl. f_equal. apply IH.
    simpl in Hnone.
    replace (e <=? s) with false in Hnone
      by (symmetry; apply Z.leb_gt; lia).
    exact Hnone. }
  rewrite Hnone, Hkeep. reflexivity.
Qed.

End LrDecayFacts.

Lemma resume_decay_spec_witness :
  resume_decay Qmult 0 200 [160; 180] (1 # 1000) (1 # 10) 170 2
  = Ok (Qmult (1 # 1000) (1 # 10), [8]).
Proof.
  exact (proj1 (resume_decay_spec Qmult 0 200 [160; 180] (1 # 1000) (1 # 10)
                  170 2 ltac:(lia))).
Defined.

End TrainLoopSpec.

(** ** models/definitions/yolo/yolo3.py: [reset_class] *)

Module Yolo3ResetSpec.
Import Py PyFacts DetectTools DetectToolsSpec Yolo3Reset.

(** *** Dicts *)

(** [d.get(k)] *)
Fixpoint dict_get (d : list (Z * Z)) (k : Z) : option Z :=
  match d with
  | [] => None
  | (k0, v0) :: d' => if k0 =? k then Some v0 else dict_get d' k
  end.

Lemma dict_get_set (d : list (Z * Z)) (k v k' : Z) :
  dict_get (dict_set d k v) k' = if k =? k' then Some v else dict_get d k'.
Proof.
  induction d as [| [k0 v0] d IH]; simpl; [reflexivity |].
  destruct (k0 =? k) eqn:E; simpl.
  - apply Z.eqb_eq in E as ->. now destruct (k =? k').
  - rewrite IH. destruct (k =? k') eqn:E'; [| reflexivity].
    apply Z.eqb_eq in E' as <-. now rewrite E.
Qed.

Lemma dict_set_key_elem (d : list (Z * Z)) (k v x : Z) :
  x ∈ map fst (dict_set d k v) -> x = k \/ x ∈ map fst d.
Proof.
  induction d as [| [k0 v0] d IH]; cbn [dict_set].
  - cbn [map fst]. intros H. apply list_elem_of_singleton in H. now left.
  - destruct (k0 =? k); cbn [map fst]; rewrite !elem_of_cons.
    + intros [H | H]; right; [now left | now right].
    + intros [H | H]; [right; now left |].
      destruct (IH H) as [H' | H']; [now left | right; now right].
Qed.

Lemma dict_set_keys (d : list (Z * Z)) (k v : Z) :
  NoDup (map fst d) -> NoDup (map fst (dict_set d k v)).
Proof.
  induction d as [| [k0 v0] d IH]; cbn [dict_set]; intros Hnd.
  - cbn [map fst]. apply NoDup_singleton.
  - cbn [map fst] in Hnd. apply NoDup_cons in Hnd as [Hk0 Hnd].
    destruct (k0 =? k) eqn:E; cbn [map fst].
    + apply NoDup_cons. split; assumption.
    + apply Z.eqb_neq in E. apply NoDup_cons. split; [| now apply IH].
      intros H. apply dict_set_key_elem in H as [H | H];
        [congruence | contradiction].
Qed.

Lemma dict_elem_get (d : list (Z * Z)) (k v : Z) :
  NoDup (map fst d) -> ((k, v) ∈ d <-> dict_get d k = Some v).
Proof.
  induction d as [| [k0 v0] d IH]; cbn [map fst dict_get]; intros Hnd.
  - split; [intros H; inversion H | discriminate].
  - apply NoDup_cons in Hnd as [Hk0 Hnd]. rewrite elem_of_cons.
    destruct (k0 =? k) eqn:E.
    + apply Z.eqb_eq in E as ->. split.
      * intros [[= ->] | H]; [reflexivity |].
        exfalso. apply Hk0. apply list_elem_of_In, in_map_iff.
        exists (k, v). split; [reflexivity | now apply list_elem_of_In].
      * intros [= ->]. now left.
    + apply Z.eqb_neq in E. rewrite <- (IH Hnd). split.
      * intros [[= -> ->] | H]; [contradiction | exact H].
      * intros H. now right.
Qed.

(** *** [list.index] *)

Lemma index_of_absent (c : string) (l : list string) :
  c ∉ l -> index_of c l = Raise ValueError.
Proof.
  induction l as [| x l IH]; intros Hc; simpl; [reflexivity |].
  apply not_elem_of_cons in Hc as [Hne Hc].
  rewrite (proj2 (String.eqb_neq x c)) by congruence.
  now rewrite (IH Hc).
Qed.

Lemma index_of_Ok (c : string) (l : list string) (z : Z) :
  index_of c l = Ok z ->
  0 <= z < Z.of_nat (length l) /\ l !! Z.to_nat z = Some c.
Proof.
  intros H. destruct (decide (c ∈ l)) as [Hin | Hout].
  - destruct (index_of_first c l Hin) as (i & Hi & Hl & _).
    rewrite Hi in H. injection H as <-. rewrite Nat2Z.id.
    pose proof (lookup_lt_Some _ _ _ Hl). split; [lia | exact Hl].
  - rewrite (index_of_absent c l Hout) in H. discriminate H.
Qed.

Lemma index_of_Raise (c : string) (l : list string) (e : exn) :
  index_of c l = Raise e -> e = ValueError /\ c ∉ l.
Proof.
  intros H. destruct (decide (c ∈ l)) as [Hin | Hout].
  - destruct (index_of_first c l Hin) as (i & Hi & _).
    rewrite Hi in H. discriminate H.
  - rewrite (index_of_absent c l Hout) in H. injection H as <-. now split.
Qed.

Lemma index_of_same (c c' : string) (l : list string) (z : Z) :
  index_of c l = Ok z -> index_of c' l = Ok z -> c = c'.
Proof.
  intros H H'. apply index_of_Ok in H as [_ H]. apply index_of_Ok in H' as [_ H'].
  congruence.
Qed.

(** *** [YOLOV3.reset_class] with a list of names *)

(** Every entry of the map joins the positions of one name. *)
Definition same_name (classes old_classes : list string) (d : list (Z * Z))
  : Prop :=
  forall k v, dict_get d k = Some v ->
    exists x, index_of x classes = Ok k /\ index_of x old_classes = Ok v.

Lemma resolve_names_spec (classes old_classes names : list string) :
  forall m0,
    NoDup (map fst m0) -> same_name classes old_classes m0 ->
    exists d,
      resolve_names classes old_classes names m0 = Ok d
      /\ NoDup (map fst d)
      /\ forall k v,
           dict_get d k = Some v
           <-> dict_get m0 k = Some v
               \/ exists x, x ∈ names /\ index_of x classes = Ok k
                            /\ index_of x old_classes = Ok v.
Proof.
  induction names as [| x names IH]; intros m0 Hnd Hsame.
  - exists m0. split; [reflexivity | split; [exact Hnd |]].
    intros k v. split; [now left | intros [H | (x & Hx & _)]];
      [exact H | inversion Hx].
  - cbn [resolve_names].
    destruct (index_of x classes) as [ni | e1] eqn:E1; cbn [bind].
    + destruct (index_of x old_classes) as [oi | e2] eqn:E2; cbn [bind].
      * destruct (IH (dict_set m0 ni oi)) as (d & Hrun & Hnd' & Hd).
        { now apply dict_set_keys. }
        { intros k v. rewrite dict_get_set.
          destruct (ni =? k) eqn:E; [| apply Hsame].
          apply Z.eqb_eq in E as <-. intros [= <-]. eauto. }
        exists d. split; [exact Hrun | split; [exact Hnd' |]].
        intros k v. rewrite Hd, dict_get_set. split.
        -- intros [H | (y & Hy & H)].
           ++ destruct (ni =? k) eqn:E; [| now left].
              apply Z.eqb_eq in E as <-. injection H as <-.
              right. exists x. split; [left | now split].
           ++ right. exists y. split; [now right | exact H].
        -- intros [H | (y & Hy & Hk & Hv)].
           ++ destruct (ni =? k) eqn:E; [| now left].
              apply Z.eqb_eq in E as <-. left. f_equal.
              destruct (Hsame _ _ H) as (y & Hy1 & Hy2).
              rewrite (index_of_same _ _ _ _ E1 Hy1) in E2. congruence.
           ++ apply elem_of_cons in Hy as [-> | Hy].
              ** left. rewrite Hk in E1. injection E1 as <-.
                 rewrite Z.eqb_refl. congruence.
              ** right. exists y. now split.
      * apply index_of_Raise in E2 as [-> Hout].
        destruct (IH m0 Hnd Hsame) as (d & Hrun & Hnd' & Hd).
        exists d. split; [exact Hrun | split; [exact Hnd' |]].
        intros k v. rewrite Hd. split.
        -- intros [H | (y & Hy & H)]; [now left |].
           right. exists y. split; [now right | exact H].
        -- intros [H | (y & Hy & Hk & Hv)]; [now left |].
           apply elem_of_cons in Hy as [-> | Hy].
           ++ apply index_of_Ok in Hv as [_ Hv]. exfalso. apply Hout.
              apply list_elem_of_lookup. eauto.
           ++ right. exists y. now split.
    + apply index_of_Raise in E1 as [-> Hout].
      destruct (IH m0 Hnd Hsame) as (d & Hrun & Hnd' & Hd).
      exists d. split; [exact Hrun | split; [exact Hnd' |]].
      intros k v. rewrite Hd. split.
      * intros [H | (y & Hy & H)]; [now left |].
        right. exists y. split; [now right | exact H].
      * intros [H | (y & Hy & Hk & Hv)]; [now left |].
        apply elem_of_cons in Hy as [-> | Hy].
        -- apply index_of_Ok in Hk as [_ Hk]. exfalso. apply Hout.
           apply list_elem_of_lookup. eauto.
        -- right. exists y. now split.
Qed.

Lemma resolve_list_aux (classes old_classes names : list string) :
  exists d,
    resolve_reuse classes old_classes (ReuseList names) = Ok (Some d)
    /\ NoDup (map fst d)
    /\ forall k v,
         (k, v) ∈ d
         <-> exists x, x ∈ names /\ index_of x classes = Ok k
                      /\ index_of x old_classes = Ok v.
Proof.
  destruct (resolve_names_spec classes old_classes names [])
    as (d & Hrun & Hnd & Hd).
  { constructor. }
  { intros k v H. discriminate H. }
  exists d. unfold resolve_reuse. rewrite Hrun. cbn [bind].
  split; [reflexivity | split; [exact Hnd |]].
  intros k v. rewrite (dict_elem_get d k v Hnd), Hd. split.
  - intros [H | H]; [discriminate H | exact H].
  - intros H. now right.
Qed.

(** X25.  [reset_class] with a list of names.  The names are resolved
    without an exception; the map handed to the output layers has an
    entry exactly for the listed names that are both a new and an old
    class, from the (first) position of the name among the new classes to
    its position among the old ones.  So weights are only ever reused
    between classes of the same name, and both positions are within
    range. *)
Theorem reset_class_list (classes old_classes names : list string) :
  exists d,
    resolve_reuse classes old_classes (ReuseList names) = Ok (Some d)
    /\ NoDup (map fst d)
    /\ (forall k v,
          (k, v) ∈ d
          <-> exists x, x ∈ names /\ index_of x classes = Ok k
                       /\ index_of x old_classes = Ok v)
    /\ forall k v,
         (k, v) ∈ d ->
         0 <= k < Z.of_nat (length classes)
         /\ 0 <= v < Z.of_nat (length old_classes)
         /\ exists x, classes !! Z.to_nat k = Some x
                      /\ old_classes !! Z.to_nat v = Some x.
Proof.
  destruct (resolve_list_aux classes old_classes names)
    as (d & Hrun & Hnd & Hd).
  exists d. split; [exact Hrun | split; [exact Hnd | split; [exact Hd |]]].
  intros k v Hkv. apply Hd in Hkv as (x & _ & Hk & Hv).
  apply index_of_Ok in Hk as [Hk1 Hk2]. apply index_of_Ok in Hv as [Hv1 Hv2].
  split; [exact Hk1 | split; [exact Hv1 | eauto]].
Qed.

Example reset_class_list_run :
  resolve_reuse ["person"; "dog"] ["cat"; "dog"; "person"]
                (ReuseList ["person"; "horse"; "dog"])
  = Ok (Some [(0, 2); (1, 1)]).
Proof. reflexivity. Qed.

(** *** [YOLOV3.reset_class] with a dict *)

Lemma resolve_ref_Ok (names : list string) (r : cls_ref) (z : Z) :
  resolve_ref names r = Ok z -> 0 <= z < Z.of_nat (length names).
Proof.
  destruct r as [s | i]; simpl.
  - intros H. exact (proj1 (index_of_Ok _ _ _ H)).
  - destruct (i <? 0) eqn:E1; simpl; [discriminate |].
    destruct (Z.of_nat (length names) <=? i) eqn:E2; [discriminate |].
    intros [= <-]. apply Z.ltb_ge in E1. apply Z.leb_gt in E2. lia.
Qed.

Lemma resolve_ref_Raise (names : list string) (r : cls_ref) (e : exn) :
  resolve_ref names r = Raise e -> e = ValueError.
Proof.
  destruct r as [s | i]; simpl.
  - intros H. exact (proj1 (index_of_Raise _ _ _ H)).
  - destruct ((i <? 0) || (Z.of_nat (length names) <=? i));
      [now intros [= <-] | discriminate].
Qed.

(** An item of the dict that cannot be resolved. *)
Definition unresolved (classes old_classes : list string)
    (kv : cls_ref * cls_ref) : Prop :=
  (exists e, resolve_ref classes kv.1 = Raise e)
  \/ (exists e, resolve_ref old_classes kv.2 = Raise e).

Lemma resolve_items_cases (classes old_classes : list string)
    (items : list (cls_ref * cls_ref)) :
  forall ks vs,
    (exists rk rv,
       resolve_items classes old_classes items ks vs = Ok (ks ++ rk, vs ++ rv)
       /\ Forall2 (fun kv k => resolve_ref classes kv.1 = Ok k) items rk
       /\ Forall2 (fun kv v => resolve_ref old_classes kv.2 = Ok v) items rv)
    \/ (resolve_items classes old_classes items ks vs = Raise ValueError
        /\ exists kv, kv ∈ items /\ unresolved classes old_classes kv).
Proof.
  induction items as [| [k v] items IH]; intros ks vs.
  - left. exists [], []. simpl. rewrite !app_nil_r.
    split; [reflexivity | split; constructor].
  - cbn [resolve_items].
    destruct (resolve_ref old_classes v) as [v' | e] eqn:Ev; cbn [bind].
    + destruct (resolve_ref classes k) as [k' | e] eqn:Ek; cbn [bind].
      * destruct (IH (ks ++ [k']) (vs ++ [v']))
          as [(rk & rv & Hrun & Hk & Hv) | (Hrun & kv & Hin & Hun)].
        -- left. exists (k' :: rk), (v' :: rv).
           rewrite <- !app_assoc in Hrun.
           split; [exact Hrun | split; now constructor].
        -- right. split; [exact Hrun |]. exists kv. split; [now right | exact Hun].
      * right. rewrite (resolve_ref_Raise _ _ _ Ek).
        split; [reflexivity |]. exists (k, v). split; [left |].
        left. simpl. eauto.
    + right. rewrite (resolve_ref_Raise _ _ _ Ev).
      split; [reflexivity |]. exists (k, v). split; [left |].
      right. simpl. eauto.
Qed.

Lemma dict_zip_fold (kvs : list (Z * Z)) :
  forall d0,
    NoDup (map fst d0) ->
    NoDup (map fst (fold_left (fun d (kv : Z * Z) => dict_set d kv.1 kv.2)
                              kvs d0))
    /\ forall k v,
         dict_get (fold_left (fun d (kv : Z * Z) => dict_set d kv.1 kv.2)
                             kvs d0) k = Some v ->
         dict_get d0 k = Some v \/ (k, v) ∈ kvs.
Proof.
  induction kvs as [| [k1 v1] kvs IH]; intros d0 Hnd; simpl.
  - split; [exact Hnd | intros k v H; now left].
  - destruct (IH (dict_set d0 k1 v1) (dict_set_keys _ _ _ Hnd)) as [Hnd' Hd].
    split; [exact Hnd' |].
    intros k v H. apply Hd in H as [H | H]; [| right; now right].
    rewrite dict_get_set in H. destruct (k1 =? k) eqn:E; [| now left].
    apply Z.eqb_eq in E as <-. injection H as <-. right. left.
Qed.

Lemma resolve_dict_aux (classes old_classes : list string)
    (items : list (cls_ref * cls_ref)) :
  (exists d,
     resolve_reuse classes old_classes (ReuseDict items) = Ok (Some d)
     /\ Forall (fun kv => ~ unresolved classes old_classes kv) items
     /\ NoDup (map fst d)
     /\ forall k v,
          (k, v) ∈ d ->
          0 <= k < Z.of_nat (length classes)
          /\ 0 <= v < Z.of_nat (length old_classes)
          /\ exists kv, kv ∈ items /\ resolve_ref classes kv.1 = Ok k
                        /\ resolve_ref old_classes kv.2 = Ok v)
  \/ (resolve_reuse classes old_classes (ReuseDict items) = Raise ValueError
      /\ exists kv, kv ∈ items /\ unresolved classes old_classes kv).
Proof.
  unfold resolve_reuse.
  destruct (resolve_items_cases classes old_classes items [] [])
    as [(rk & rv & Hrun & Hk & Hv) | (Hrun & Hun)].
  - left. rewrite Hrun. cbn [bind app fst snd].
    destruct (dict_zip_fold (zip rk rv) [] ltac:(constructor)) as [Hnd Hd].
    exists (dict_zip rk rv).
    split; [reflexivity | split; [| split; [exact Hnd |]]].
    + apply Forall_forall. intros kv Hin [[e He] | [e He]];
        apply list_elem_of_lookup in Hin as [i Hi].
      * destruct (Forall2_lookup_l _ _ _ _ _ Hk Hi) as (k & _ & Hok).
        congruence.
      * destruct (Forall2_lookup_l _ _ _ _ _ Hv Hi) as (v & _ & Hok).
        congruence.
    + intros k v Hkv. apply (dict_elem_get _ _ _ Hnd) in Hkv.
      apply Hd in Hkv as [Hkv | Hkv]; [discriminate Hkv |].
      apply list_elem_of_lookup in Hkv as [i Hi].
      apply lookup_zip_with_Some in Hi as (k' & v' & Heq & Hki & Hvi).
      injection Heq as <- <-.
      destruct (Forall2_lookup_r _ _ _ _ _ Hk Hki) as (kv & Hkv & Hok).
      destruct (Forall2_lookup_r _ _ _ _ _ Hv Hvi) as (kv' & Hkv' & Hok').
      rewrite Hkv in Hkv'. injection Hkv' as <-.
      split; [exact (resolve_ref_Ok _ _ _ Hok) |].
      split; [exact (resolve_ref_Ok _ _ _ Hok') |].
      exists kv. split; [apply list_elem_of_lookup; eauto | now split].
  - right. rewrite Hrun. cbn [bind]. split; [reflexivity | exact Hun].
Qed.

(** X26.  [reset_class] with a dict.  The only exception is a
    [ValueError], raised exactly when some key or value of the dict is a
    name that is not a class name or an index out of range (keys are
    checked against the new names, values against the old ones).
    Otherwise the map handed to the output layers has no key twice and
    every entry of it comes from an item of the dict and lies within
    range: the key below the number of new classes, the value below the
    number of old ones, neither negative. *)
Theorem reset_class_dict (classes old_classes : list string)
    (items : list (cls_ref * cls_ref)) :
  (forall e, resolve_reuse classes old_classes (ReuseDict items) = Raise e ->
             e = ValueError)
  /\ ((exists e, resolve_reuse classes old_classes (ReuseDict items) = Raise e)
      <-> exists kv, kv ∈ items /\ unresolved classes old_classes kv)
  /\ forall r,
       resolve_reuse classes old_classes (ReuseDict items) = Ok r ->
       exists d,
         r = Some d /\ NoDup (map fst d)
         /\ forall k v,
              (k, v) ∈ d ->
              0 <= k < Z.of_nat (length classes)
              /\ 0 <= v < Z.of_nat (length old_classes)
              /\ exists kv, kv ∈ items /\ resolve_ref classes kv.1 = Ok k
                            /\ resolve_ref old_classes kv.2 = Ok v.
Proof.
  destruct (resolve_dict_aux classes old_classes items)
    as [(d & Hrun & Hall & Hnd & Hd) | (Hrun & Hun)]; rewrite Hrun.
  - split; [discriminate | split; [split |]].
    + intros [e He]. discriminate He.
    + intros (kv & Hin & Hkv). exfalso.
      rewrite Forall_forall in Hall. exact (Hall kv Hin Hkv).
    + intros r [= <-]. exists d. auto.
  - split; [now intros e [= <-] | split; [split |]].
    + intros _. exact Hun.
    + intros _. eauto.
    + discriminate.
Qed.

Example reset_class_dict_run :
  resolve_reuse ["person"; "dog"] ["cat"; "dog"; "person"]
                (ReuseDict [(ByName "person", ByIndex 2);
                            (ByIndex 1, ByName "dog")])
  = Ok (Some [(0, 2); (1, 1)])
  /\ resolve_reuse ["person"; "dog"] ["cat"; "dog"; "person"]
                   (ReuseDict [(ByName "person", ByIndex 3)])
     = Raise ValueError.
Proof. split; reflexivity. Qed.

(** *** [YOLOOutputV3.reset_class]: the rows that are copied *)

Lemma row_in_range (A n i j : Z) :
  0 <= i < A -> 0 <= j < n -> 0 <= i * n + j < A * n.
Proof. intros Hi Hj. nia. Qed.

Lemma decomp_unique (n i j i' j' : Z) :
  0 <= j < n -> 0 <= j' < n -> i * n + j = i' * n + j' -> i = i' /\ j = j'.
Proof.
  intros Hj Hj' H.
  destruct (Z.lt_trichotomy i i') as [Hlt | [-> | Hgt]]; [nia | lia | nia].
Qed.

Section CopyFacts.
Context {W : Type}.
Variable outside_get : list W -> Z -> result W.
Variable outside_set : list W -> Z -> W -> result (list W).
Variable outside_slice : list W -> Z -> Z -> result (list W).
Variable outside_set_slice : list W -> Z -> Z -> list W -> result (list W).

Lemma in_range_true (i n : Z) :
  0 <= i < n -> (0 <=? i) && (i <? n) = true.
Proof.
  intros H. apply andb_true_iff. split; [apply Z.leb_le | apply Z.ltb_lt]; lia.
Qed.

Lemma nd_get_in (a : list W) (i : Z) :
  0 <= i < Z.of_nat (length a) ->
  exists w, a !! Z.to_nat i = Some w /\ nd_get outside_get a i = Ok w.
Proof.
  intros Hi. unfold nd_get. rewrite (in_range_true _ _ Hi).
  destruct (lookup_lt_is_Some_2 a (Z.to_nat i)) as [w Hw]; [lia |].
  exists w. now rewrite Hw.
Qed.

Lemma nd_set_in (a : list W) (i : Z) (w : W) :
  0 <= i < Z.of_nat (length a) ->
  nd_set outside_set a i w = Ok (<[Z.to_nat i := w]> a).
Proof. intros Hi. unfold nd_set. now rewrite (in_range_true _ _ Hi). Qed.

Lemma slice_range_true (b e n : Z) :
  0 <= b -> b <= e -> e <= n -> (0 <=? b) && (b <=? e) && (e <=? n) = true.
Proof.
  intros H1 H2 H3. rewrite !andb_true_iff.
  repeat split; apply Z.leb_le; lia.
Qed.

Lemma nd_slice_in (a : list W) (b e : Z) :
  0 <= b -> b <= e -> e <= Z.of_nat (length a) ->
  nd_slice outside_slice a b e
  = Ok (take (Z.to_nat (e - b)) (drop (Z.to_nat b) a)).
Proof.
  intros H1 H2 H3. unfold nd_slice.
  now rewrite (slice_range_true _ _ _ H1 H2 H3).
Qed.

Lemma nd_set_slice_in (a : list W) (b e : Z) (v : list W) :
  0 <= b -> b <= e -> e <= Z.of_nat (length a) ->
  Z.of_nat (length v) = e - b ->
  nd_set_slice outside_set_slice a b e v
  = Ok (take (Z.to_nat b) a ++ v ++ drop (Z.to_nat e) a).
Proof.
  intros H1 H2 H3 H4. unfold nd_set_slice.
  rewrite (slice_range_true _ _ _ H1 H2 H3).
  now rewrite (proj2 (Z.eqb_eq _ _) H4).
Qed.

(** The sizes: [nc] new and [oc] old classes, [A] anchors, and arrays
    with one row per anchor and prediction. *)
Variables nc oc A np op : Z.
Variables old new0 : list W.
Hypothesis Hnc : 0 <= nc.
Hypothesis Hoc : 0 <= oc.
Hypothesis Hnp : np = 1 + 4 + nc.
Hypothesis Hop : op = 1 + 4 + oc.
Hypothesis Hold : Z.of_nat (length old) = A * op.
Hypothesis Hnew : Z.of_nat (length new0) = A * np.

(** The row of the new array for anchor [i] and prediction [j], and the
    row of the old one. *)
Definition new_row (i j : Z) : nat := Z.to_nat (i * np + j).
Definition old_row (i j : Z) : nat := Z.to_nat (i * op + j).

Lemma copy_anchor_rows (k v i : Z) (new : list W) :
  0 <= k < nc -> 0 <= v < oc -> 0 <= i < A ->
  length new = length new0 ->
  exists out,
    copy_anchor outside_get outside_set outside_slice outside_set_slice
                np op k v old new i = Ok out
    /\ length out = length new0
    /\ forall i' j,
         0 <= i' < A -> 0 <= j < np ->
         out !! new_row i' j
         = if bool_decide (i' = i /\ j < 5) then old !! old_row i j
           else if bool_decide (i' = i /\ j = 5 + k)
                then old !! old_row i (5 + v)
                else new !! new_row i' j.
Proof.
  intros Hk Hv Hi Hlen. unfold copy_anchor.
  pose proof (row_in_range A op i (1 + 4 + v) Hi ltac:(lia)) as Hsrc.
  pose proof (row_in_range A np i (1 + 4 + k) Hi ltac:(lia)) as Hdst.
  pose proof (row_in_range A op i 0 Hi ltac:(lia)) as Hs0.
  pose proof (row_in_range A op i 4 Hi ltac:(lia)) as Hs4.
  pose proof (row_in_range A np i 0 Hi ltac:(lia)) as Hd0.
  pose proof (row_in_range A np i 4 Hi ltac:(lia)) as Hd4.
  destruct (nd_get_in old (1 + 4 + v + i * op) ltac:(lia)) as (w & Hw & ->).
  cbn [bind].
  rewrite nd_set_in by lia. cbn [bind].
  rewrite nd_slice_in by lia. cbn [bind].
  set (new1 := <[Z.to_nat (1 + 4 + k + i * np) := w]> new).
  set (ws := take (Z.to_nat (1 + 4 + i * op - i * op))
                  (drop (Z.to_nat (i * op)) old)).
  assert (Hlen1 : length new1 = length new0)
    by (unfold new1; now rewrite length_insert).
  assert (Hws : length ws = 5%nat).
  { unfold ws. rewrite length_take, length_drop. lia. }
  rewrite nd_set_slice_in by lia.
  eexists. split; [reflexivity |].
  assert (Htk : length (take (Z.to_nat (i * np)) new1) = Z.to_nat (i * np))
    by (rewrite length_take; lia).
  split.
  { rewrite !length_app, Htk, Hws, length_drop. lia. }
  intros i' j Hi' Hj. unfold new_row, old_row.
  pose proof (row_in_range A np i' j Hi' Hj) as Hr.
  destruct (Z.lt_trichotomy i' i) as [Hlt | [-> | Hgt]].
  - (* a row before the anchor *)
    rewrite bool_decide_eq_false_2 by lia.
    rewrite bool_decide_eq_false_2 by lia.
    rewrite lookup_app_l by (rewrite Htk; nia).
    rewrite lookup_take_lt by nia.
    unfold new1. rewrite list_lookup_insert_ne by nia. reflexivity.
  - destruct (Z_lt_le_dec j 5) as [Hj5 | Hj5].
    + (* one of the five leading rows of the anchor *)
      rewrite bool_decide_eq_true_2 by lia.
      rewrite lookup_app_r by (rewrite Htk; lia).
      rewrite Htk. rewrite lookup_app_l by (rewrite Hws; lia).
      unfold ws. rewrite lookup_take_lt by lia. rewrite lookup_drop.
      f_equal. lia.
    + (* a class row of the anchor *)
      rewrite bool_decide_eq_false_2 by lia.
      rewrite lookup_app_r by (rewrite Htk; lia).
      rewrite Htk. rewrite lookup_app_r by (rewrite Hws; lia).
      rewrite Hws, lookup_drop.
      replace (Z.to_nat (1 + 4 + i * np)
               + (Z.to_nat (i * np + j) - Z.to_nat (i * np) - 5))%nat
        with (Z.to_nat (i * np + j)) by lia.
      unfold new1.
      destruct (Z.eq_dec j (5 + k)) as [-> | Hne].
      * rewrite bool_decide_eq_true_2 by lia.
        replace (Z.to_nat (i * np + (5 + k)))
          with (Z.to_nat (1 + 4 + k + i * np)) by lia.
        rewrite list_lookup_insert_eq by lia.
        rewrite <- Hw. f_equal. lia.
      * rewrite bool_decide_eq_false_2 by lia.
        rewrite list_lookup_insert_ne by lia. reflexivity.
  - (* a row after the anchor *)
    rewrite bool_decide_eq_false_2 by lia.
    rewrite bool_decide_eq_false_2 by lia.
    rewrite lookup_app_r by (rewrite Htk; nia).
    rewrite Htk. rewrite lookup_app_r by (rewrite Hws; nia).
    rewrite Hws, lookup_drop.
    replace (Z.to_nat (1 + 4 + i * np)
             + (Z.to_nat (i' * np + j) - Z.to_nat (i * np) - 5))%nat
      with (Z.to_nat (i' * np + j)) by nia.
    unfold new1. rewrite list_lookup_insert_ne by nia. reflexivity.
Qed.

(** The mapping [d] that is copied: no key twice, no negative entry. *)
Variable d : list (Z * Z).
Hypothesis Hd_keys : NoDup (map fst d).
Hypothesis Hd_pos : forall k v, (k, v) ∈ d -> 0 <= k /\ 0 <= v.

(** An entry of [d] that is used: it passes the range check. *)
Definition used (k v : Z) : Prop := (k, v) ∈ d /\ k < nc /\ v < oc.

(** The old row that the row for prediction [j] of anchor [i] takes its
    value from, once it is written. *)
Definition source (i j : Z) : option W :=
  if j <? 5 then old !! old_row i j
  else match dict_get d (j - 5) with
       | Some v => old !! old_row i (5 + v)
       | None => None
       end.

(** The loop invariant: the rows in [P] hold their source, the others
    are as the new predictor was initialised. *)
Definition copied (P : Z -> Z -> Prop) (out : list W) : Prop :=
  length out = length new0
  /\ forall i j,
       0 <= i < A -> 0 <= j < np ->
       (P i j -> out !! new_row i j = source i j)
       /\ (~ P i j -> out !! new_row i j = new0 !! new_row i j).

Lemma copy_anchor_inv (k v i : Z) (P : Z -> Z -> Prop) (new : list W) :
  used k v -> 0 <= i < A -> copied P new ->
  exists out,
    copy_anchor outside_get outside_set outside_slice outside_set_slice
                np op k v old new i = Ok out
    /\ copied (fun i' j => P i' j \/ (i' = i /\ (j < 5 \/ j = 5 + k))) out.
Proof.
  intros (Hin & Hk & Hv) Hi [Hlen Hrows].
  destruct (Hd_pos _ _ Hin) as [Hk0 Hv0].
  destruct (copy_anchor_rows k v i new ltac:(lia) ltac:(lia) Hi Hlen)
    as (out & Hrun & Hlen' & Hout).
  exists out. split; [exact Hrun | split; [exact Hlen' |]].
  intros i' j Hi' Hj. rewrite (Hout i' j Hi' Hj).
  destruct (Hrows i' j Hi' Hj) as [Hyes Hno].
  destruct (bool_decide (i' = i /\ j < 5)) eqn:E1.
  - apply bool_decide_eq_true in E1 as [-> Hj5]. split; [| tauto].
    intros _. unfold source.
    now rewrite (proj2 (Z.ltb_lt _ _) Hj5).
  - apply bool_decide_eq_false in E1.
    destruct (bool_decide (i' = i /\ j = 5 + k)) eqn:E2.
    + apply bool_decide_eq_true in E2 as [-> ->]. split; [| tauto].
      intros _. unfold source.
      rewrite (proj2 (Z.ltb_ge _ _)) by lia.
      replace (5 + k - 5) with k by lia.
      now rewrite (proj1 (dict_elem_get d k v Hd_keys) Hin).
    + apply bool_decide_eq_false in E2. split.
      * intros [HP | H]; [now apply Hyes | exfalso; lia].
      * intros H. apply Hno. tauto.
Qed.

Lemma copy_anchors_inv (k v : Z) (idxs : list Z) :
  used k v -> Forall (fun i => 0 <= i < A) idxs ->
  forall (P : Z -> Z -> Prop) (new : list W),
    copied P new ->
    exists out,
      copy_anchors outside_get outside_set outside_slice outside_set_slice
                   np op k v old idxs new = Ok out
      /\ copied (fun i j => P i j \/ (i ∈ idxs /\ (j < 5 \/ j = 5 + k))) out.
Proof.
  intros Hu Hall. induction Hall as [| i idxs Hi _ IH]; intros P new Hc.
  - exists new. split; [reflexivity |].
    destruct Hc as [Hlen Hrows]. split; [exact Hlen |].
    intros i j Hi Hj. destruct (Hrows i j Hi Hj) as [Hyes Hno]. split.
    + intros [HP | [Hin _]]; [now apply Hyes | inversion Hin].
    + intros H. apply Hno. tauto.
  - cbn [copy_anchors].
    destruct (copy_anchor_inv k v i P new Hu Hi Hc) as (out1 & -> & Hc1).
    cbn [bind].
    destruct (IH _ _ Hc1) as (out & Hrun & [Hlen Hrows]).
    exists out. split; [exact Hrun | split; [exact Hlen |]].
    intros i' j Hi' Hj. destruct (Hrows i' j Hi' Hj) as [Hyes Hno]. split.
    + intros [HP | [Hin Hj']]; apply Hyes.
      * left. now left.
      * apply elem_of_cons in Hin as [-> | Hin];
          [left; right; now split | right; now split].
    + intros H. apply Hno. intros [[HP | [-> Hj']] | [Hin Hj']]; apply H.
      * now left.
      * right. split; [left | exact Hj'].
      * right. split; [now right | exact Hj'].
Qed.

Lemma range_anchors :
  exists idxs,
    range 0 A 1 = Ok idxs
    /\ Forall (fun i => 0 <= i < A) idxs
    /\ forall i, 0 <= i < A -> i ∈ idxs.
Proof.
  eexists. split; [apply TrainLoopSpec.range_step1 | split].
  - apply Forall_forall. intros i Hi.
    apply TrainLoopSpec.elem_of_range_step1 in Hi. lia.
  - intros i Hi. apply TrainLoopSpec.elem_of_range_step1. lia.
Qed.

Lemma copy_items_inv (items : list (Z * Z)) :
  (forall kv, kv ∈ items -> kv ∈ d) ->
  forall (P : Z -> Z -> Prop) (new : list W),
    copied P new ->
    exists out,
      copy_items outside_get outside_set outside_slice outside_set_slice
                 nc np oc op A old items new = Ok out
      /\ copied (fun i j =>
                   P i j
                   \/ exists k v, (k, v) ∈ items /\ used k v
                                  /\ (j < 5 \/ j = 5 + k)) out.
Proof.
  induction items as [| [k v] items IH]; intros Hsub P new Hc.
  - exists new. split; [reflexivity |].
    destruct Hc as [Hlen Hrows]. split; [exact Hlen |].
    intros i j Hi Hj. destruct (Hrows i j Hi Hj) as [Hyes Hno]. split.
    + intros [HP | (k & v & Hin & _)]; [now apply Hyes | inversion Hin].
    + intros H. apply Hno. tauto.
  - cbn [copy_items].
    assert (Hsub' : forall kv, kv ∈ items -> kv ∈ d)
      by (intros kv Hkv; apply Hsub; now right).
    destruct ((nc <=? k) || (oc <=? v)) eqn:E.
    + destruct (IH Hsub' P new Hc) as (out & Hrun & [Hlen Hrows]).
      exists out. split; [exact Hrun | split; [exact Hlen |]].
      apply orb_true_iff in E.
      intros i j Hi Hj. destruct (Hrows i j Hi Hj) as [Hyes Hno]. split.
      * intros [HP | (k' & v' & Hin & Hu & Hj')]; apply Hyes; [now left |].
        apply elem_of_cons in Hin as [[= -> ->] | Hin].
        -- exfalso. destruct Hu as (_ & Hk & Hv).
           destruct E as [E | E]; apply Z.leb_le in E; lia.
        -- right. exists k', v'. auto.
      * intros H. apply Hno. intros [HP | (k' & v' & Hin & Hu & Hj')];
          apply H; [now left |].
        right. exists k', v'. split; [now right | auto].
    + apply orb_false_iff in E as [Ek Ev].
      apply Z.leb_gt in Ek, Ev.
      assert (Hu : used k v) by (split; [apply Hsub; left | lia]).
      destruct range_anchors as (idxs & -> & Hall & Hcover). cbn [bind].
      destruct (copy_anchors_inv k v idxs Hu Hall P new Hc)
        as (out1 & -> & Hc1).
      cbn [bind].
      destruct (IH Hsub' _ _ Hc1) as (out & Hrun & [Hlen Hrows]).
      exists out. split; [exact Hrun | split; [exact Hlen |]].
      intros i j Hi Hj. destruct (Hrows i j Hi Hj) as [Hyes Hno]. split.
      * intros [HP | (k' & v' & Hin & Hu' & Hj')]; apply Hyes.
        -- left. now left.
        -- apply elem_of_cons in Hin as [[= -> ->] | Hin].
           ++ left. right. split; [now apply Hcover | exact Hj'].
           ++ right. exists k', v'. auto.
      * intros H. apply Hno.
        intros [[HP | [_ Hj']] | (k' & v' & Hin & Hu' & Hj')]; apply H.
        -- now left.
        -- right. exists k, v. split; [left | auto].
        -- right. exists k', v'. split; [now right | auto].
Qed.

Lemma copy_items_rows :
  exists out,
    copy_items outside_get outside_set outside_slice outside_set_slice
               nc np oc op A old d new0 = Ok out
    /\ copied (fun i j => exists k v, used k v /\ (j < 5 \/ j = 5 + k)) out.
Proof.
  destruct (copy_items_inv d ltac:(auto) (fun _ _ => False) new0)
    as (out & Hrun & [Hlen Hrows]).
  { split; [reflexivity |]. intros i j Hi Hj. split; [contradiction | auto]. }
  exists out. split; [exact Hrun | split; [exact Hlen |]].
  intros i j Hi Hj. destruct (Hrows i j Hi Hj) as [Hyes Hno]. split.
  - intros (k & v & Hu & Hj'). apply Hyes. right. exists k, v.
    split; [exact (proj1 Hu) | auto].
  - intros H. apply Hno. intros [[] | (k & v & _ & Hu & Hj')].
    apply H. eauto.
Qed.

Lemma copy_items_used :
  exists out,
    copy_items outside_get outside_set outside_slice outside_set_slice
               nc np oc op A old d new0 = Ok out
    /\ length out = length new0
    /\ forall i k v,
         0 <= i < A -> used k v ->
         out !! new_row i (5 + k) = old !! old_row i (5 + v).
Proof.
  destruct copy_items_rows as (out & Hrun & [Hlen Hrows]).
  exists out. split; [exact Hrun | split; [exact Hlen |]].
  intros i k v Hi Hu. destruct Hu as (Hin & Hk & Hv).
  destruct (Hd_pos _ _ Hin) as [Hk0 Hv0].
  destruct (Hrows i (5 + k) Hi ltac:(lia)) as [Hyes _].
  rewrite Hyes by (exists k, v; split; [now split | now right]).
  unfold source. rewrite (proj2 (Z.ltb_ge _ _)) by lia.
  replace (5 + k - 5) with k by lia.
  now rewrite (proj1 (dict_elem_get d k v Hd_keys) Hin).
Qed.

(** X27.  Reusing weights in [YOLOOutputV3.reset_class].  For a mapping
    without negative entries, on parameter arrays with one row per
    anchor and prediction, the copy loop returns an array of the new
    size in which, for every anchor,
    - the row of a new class [k] that is mapped to an old class [v]
      within range is the old row of [v];
    - the five rows of the objectness and the box are the old ones as
      soon as one entry of the mapping is within range, and stay as
      initialised when none is;
    - the row of a new class that no entry within range maps stays as
      the new predictor was initialised. *)
Theorem reset_class_copies :
  exists out,
    copy_items outside_get outside_set outside_slice outside_set_slice
               nc np oc op A old d new0 = Ok out
    /\ length out = length new0
    /\ forall i, 0 <= i < A ->
         (forall k v, used k v ->
            out !! new_row i (5 + k) = old !! old_row i (5 + v))
         /\ (forall j, 0 <= j < 5 ->
               ((exists k v, used k v) ->
                  out !! new_row i j = old !! old_row i j)
               /\ (~ (exists k v, used k v) ->
                     out !! new_row i j = new0 !! new_row i j))
         /\ (forall k, 0 <= k < nc -> (forall v, ~ used k v) ->
               out !! new_row i (5 + k) = new0 !! new_row i (5 + k)).
Proof.
  destruct copy_items_rows as (out & Hrun & [Hlen Hrows]).
  exists out. split; [exact Hrun | split; [exact Hlen |]].
  intros i Hi. split; [| split].
  - intros k v Hu. destruct Hu as (Hin & Hk & Hv).
    destruct (Hd_pos _ _ Hin) as [Hk0 Hv0].
    destruct (Hrows i (5 + k) Hi ltac:(lia)) as [Hyes _].
    rewrite Hyes by (exists k, v; split; [now split | now right]).
    unfold source. rewrite (proj2 (Z.ltb_ge _ _)) by lia.
    replace (5 + k - 5) with k by lia.
    now rewrite (proj1 (dict_elem_get d k v Hd_keys) Hin).
  - intros j Hj. destruct (Hrows i j Hi ltac:(lia)) as [Hyes Hno]. split.
    + intros (k & v & Hu). rewrite Hyes by (exists k, v; split; [exact Hu | left; lia]).
      unfold source. now rewrite (proj2 (Z.ltb_lt _ _)) by lia.
    + intros Hnone. apply Hno. intros (k & v & Hu & _). apply Hnone. eauto.
  - intros k Hk Hnone. destruct (Hrows i (5 + k) Hi ltac:(lia)) as [_ Hno].
    apply Hno. intros (k' & v' & Hu & [Hj | Hj]); [| ].
    + destruct Hu as (Hin & _). destruct (Hd_pos _ _ Hin). lia.
    + assert (k' = k) by lia. subst k'. exact (Hnone v' Hu).
Qed.

End CopyFacts.

(** Two anchors, three old classes, two new ones; the rows are numbered
    so that a copied row shows where it came from. *)
Definition old_rows : list Z := map (fun r : nat => 100 + Z.of_nat r) (seq 0 16).
Definition new_rows : list Z := replicate 14 0.
Definition no_get (a : list Z) (i : Z) : result Z := Raise MXNetError.
Definition no_set (a : list Z) (i : Z) (w : Z) : result (list Z) :=
  Raise MXNetError.
Definition no_slice (a : list Z) (b e : Z) : result (list Z) :=
  Raise MXNetError.
Definition no_set_slice (a : list Z) (b e : Z) (v : list Z)
  : result (list Z) := Raise MXNetError.

Lemma reset_class_copies_witness :
  exists out,
    copy_items no_get no_set no_slice no_set_slice 2 7 3 8 2 old_rows
               [(0, 2); (1, 1)] new_rows = Ok out
    /\ out !! 5%nat = Some 107 /\ out !! 6%nat = Some 106
    /\ out !! 12%nat = Some 115 /\ out !! 7%nat = Some 108.
Proof.
  assert (Hpos : forall k v : Z, (k, v) ∈ [(0, 2); (1, 1)] -> 0 <= k /\ 0 <= v).
  { intros k v H.
    repeat (apply elem_of_cons in H as [[= -> ->] | H]; [lia |]).
    inversion H. }
  assert (Hkeys : NoDup (map fst [(0, 2); (1, 1)])).
  { repeat (apply NoDup_cons; split;
            [intros H; repeat (apply elem_of_cons in H as [H | H];
                               [discriminate H |]); inversion H |]).
    apply NoDup_nil. exact I. }
  destruct (reset_class_copies no_get no_set no_slice no_set_slice
              2 3 2 7 8 old_rows new_rows ltac:(lia) ltac:(lia)
              eq_refl eq_refl eq_refl eq_refl [(0, 2); (1, 1)] Hkeys Hpos)
    as (out & Hrun & _ & Hrows).
  exists out. split; [exact Hrun |].
  assert (Hu0 : used 2 3 [(0, 2); (1, 1)] 0 2)
    by (split; [left | lia]).
  assert (Hu1 : used 2 3 [(0, 2); (1, 1)] 1 1)
    by (split; [right; left | lia]).
  destruct (Hrows 0 ltac:(lia)) as (Hc0 & Hb0 & _).
  destruct (Hrows 1 ltac:(lia)) as (Hc1 & Hb1 & _).
  split; [exact (Hc0 0 2 Hu0) | split; [exact (Hc0 1 1 Hu1) | split]].
  - exact (Hc1 0 2 Hu0).
  - exact (proj1 (Hb1 0 ltac:(lia)) (ex_intro _ 0 (ex_intro _ 2 Hu0))).
Defined.

(** *** [reset_class] from the names to the rows *)

Lemma resolve_reuse_sound (classes old_classes : list string) (r : reuse)
    (d : list (Z * Z)) :
  resolve_reuse classes old_classes r = Ok (Some d) ->
  NoDup (map fst d)
  /\ forall k v, (k, v) ∈ d ->
       0 <= k < Z.of_nat (length classes)
       /\ 0 <= v < Z.of_nat (length old_classes).
Proof.
  destruct r as [| items | names]; [discriminate | |].
  - destruct (resolve_dict_aux classes old_classes items)
      as [(d' & -> & _ & Hnd & Hd) | (-> & _)]; [| discriminate].
    intros [= <-]. split; [exact Hnd |].
    intros k v Hkv. destruct (Hd k v Hkv) as (Hk & Hv & _). now split.
  - destruct (resolve_list_aux classes old_classes names)
      as (d' & -> & Hnd & Hd).
    intros [= <-]. split; [exact Hnd |].
    intros k v Hkv. apply Hd in Hkv as (x & _ & Hk & Hv).
    split; [exact (proj1 (index_of_Ok _ _ _ Hk))
           | exact (proj1 (index_of_Ok _ _ _ Hv))].
Qed.

Section ResetFacts.
Context {W : Type}.
Variable outside_get : list W -> Z -> result W.
Variable outside_set : list W -> Z -> W -> result (list W).
Variable outside_slice : list W -> Z -> Z -> result (list W).
Variable outside_set_slice : list W -> Z -> Z -> list W -> result (list W).

(** Parameter arrays with one row per anchor and prediction, for [A]
    anchors and [n] classes. *)
Definition sized (A n : Z) (arrays : list (list W)) : Prop :=
  Forall (fun a : list W => Z.of_nat (length a) = A * (1 + 4 + n)) arrays.

(** The new array [out_a] took the class rows that [d] maps from the old
    array [old_a]. *)
Definition rows_reused (A n oc : Z) (d : list (Z * Z))
    (old_a out_a : list W) : Prop :=
  forall i k v,
    0 <= i < A -> (k, v) ∈ d -> k < n -> v < oc ->
    out_a !! new_row (1 + 4 + n) i (5 + k)
    = old_a !! old_row (1 + 4 + oc) i (5 + v).

Lemma output_reset_spec (o : YOLOOutputV3Weights) (n : Z) (fresh : list (list W))
    (rw : option (list (Z * Z))) :
  0 <= n -> 0 <= _classes o -> _num_pred o = 1 + 4 + _classes o ->
  sized (_num_anchors o) (_classes o) (prediction o) ->
  sized (_num_anchors o) n fresh ->
  (forall d, rw = Some d ->
     NoDup (map fst d) /\ forall k v, (k, v) ∈ d -> 0 <= k /\ 0 <= v) ->
  exists o',
    YOLOOutputV3_reset_class outside_get outside_set outside_slice
      outside_set_slice o n fresh rw = Ok o'
    /\ _classes o' = n /\ _num_pred o' = 1 + 4 + n
    /\ _num_anchors o' = _num_anchors o
    /\ length (prediction o') = length fresh
    /\ (rw = None -> prediction o' = fresh)
    /\ forall d, rw = Some d ->
         forall (p : nat) old_a out_a,
           prediction o !! p = Some old_a -> prediction o' !! p = Some out_a ->
           (p < length fresh)%nat ->
           rows_reused (_num_anchors o) n (_classes o) d old_a out_a.
Proof.
  intros Hn Hoc Hnp Hold Hnew Hrw. unfold YOLOOutputV3_reset_class.
  destruct rw as [[| item items] |].
  - eexists. cbn [bind]. split; [reflexivity |]. simpl.
    repeat split; try reflexivity; try discriminate.
    intros d [= <-] p old_a out_a _ _ _ i k v _ Hin. inversion Hin.
  - destruct (Hrw _ eq_refl) as [Hnd Hpos].
    set (d := item :: items) in *.
    destruct (mapM_Forall2
                (fun on : list W * list W =>
                   copy_items outside_get outside_set outside_slice
                     outside_set_slice n (1 + 4 + n) (_classes o)
                     (_num_pred o) (_num_anchors o) on.1 d on.2)
                (fun on out =>
                   length out = length on.2
                   /\ rows_reused (_num_anchors o) n (_classes o) d on.1 out)
                (zip (prediction o) fresh)) as (copied & Hrun & Hcop).
    { intros [old_a new_a] Hin. simpl.
      apply list_elem_of_lookup in Hin as [p Hp].
      apply lookup_zip_with_Some in Hp as (x & y & Heq & Hx & Hy).
      injection Heq as <- <-.
      unfold sized in Hold, Hnew. rewrite Forall_forall in Hold, Hnew.
      assert (Hlo : Z.of_nat (length old_a)
                    = _num_anchors o * (1 + 4 + _classes o))
        by (apply Hold, list_elem_of_lookup; eauto).
      assert (Hln : Z.of_nat (length new_a) = _num_anchors o * (1 + 4 + n))
        by (apply Hnew, list_elem_of_lookup; eauto).
      rewrite Hnp.
      destruct (copy_items_used outside_get outside_set outside_slice
                  outside_set_slice n (_classes o) (_num_anchors o)
                  (1 + 4 + n) (1 + 4 + _classes o) old_a new_a Hn Hoc
                  eq_refl eq_refl Hlo Hln d Hnd Hpos)
        as (out & Hout & Hlen & Hrows).
      exists out. split; [exact Hout | split; [exact Hlen |]].
      intros i k v Hi Hin Hk Hv.
      apply (Hrows i k v Hi). now split. }
    rewrite Hrun. cbn [bind]. eexists. split; [reflexivity |]. simpl.
    pose proof (Forall2_length _ _ _ Hcop) as Hlen.
    rewrite length_zip_with in Hlen.
    split; [reflexivity | split; [reflexivity | split; [reflexivity |]]].
    split; [rewrite length_app, length_drop; lia |].
    split; [discriminate |].
    intros d' [= <-] p old_a out_a Ho Ho' Hp.
    destruct (lookup_lt_is_Some_2 fresh p Hp) as [new_a Hna].
    assert (Hz : zip (prediction o) fresh !! p = Some (old_a, new_a)).
    { apply lookup_zip_with_Some. eauto. }
    destruct (Forall2_lookup_l _ _ _ _ _ Hcop Hz) as (out & Hout & _ & Hr).
    rewrite lookup_app_l in Ho' by (apply lookup_lt_Some in Hout; exact Hout).
    rewrite Hout in Ho'. injection Ho' as <-. exact Hr.
  - eexists. cbn [bind]. split; [reflexivity |]. simpl.
    repeat split; try reflexivity; discriminate.
Qed.

(** X28.  [reset_class] from the names to the rows.  Let every output
    layer have its predictor sized for the old classes and its new
    predictor sized for the new ones.  When the mapping is resolved
    ([reuse_weights] is a list of names, or a dict without a faulty
    entry, or [None]), [YOLOV3.reset_class] returns with the new class
    names; every output layer then counts the new classes and has the
    new arrays, and in each of its parameter arrays, for every anchor,
    the row of a new class that the mapping sends to an old class is the
    old row of that class: no entry that [YOLOV3.reset_class] resolves is
    dropped by the range check of the output layer.  Without a mapping
    the new arrays stay as initialised. *)
Theorem reset_class_transfers (old_classes classes : list string)
    (outputs : list YOLOOutputV3Weights) (fresh : nat -> list (list W))
    (r : reuse) (rw : option (list (Z * Z))) :
  resolve_reuse classes old_classes r = Ok rw ->
  (forall (n : nat) o,
     outputs !! n = Some o ->
     _classes o = Z.of_nat (length old_classes)
     /\ _num_pred o = 1 + 4 + _classes o
     /\ sized (_num_anchors o) (_classes o) (prediction o)
     /\ sized (_num_anchors o) (Z.of_nat (length classes)) (fresh n)) ->
  exists outputs',
    YOLOV3_reset_class outside_get outside_set outside_slice
      outside_set_slice old_classes outputs classes fresh r
    = Ok (classes, outputs')
    /\ length outputs' = length outputs
    /\ forall (n : nat) o o',
         outputs !! n = Some o -> outputs' !! n = Some o' ->
         _classes o' = Z.of_nat (length classes)
         /\ length (prediction o') = length (fresh n)
         /\ (rw = None -> prediction o' = fresh n)
         /\ forall d, rw = Some d ->
              forall (p : nat) old_a out_a (i k v : Z),
                prediction o !! p = Some old_a ->
                prediction o' !! p = Some out_a ->
                (p < length (fresh n))%nat ->
                0 <= i < _num_anchors o -> (k, v) ∈ d ->
                out_a !! new_row (1 + 4 + Z.of_nat (length classes)) i (5 + k)
                = old_a !! old_row (1 + 4 + Z.of_nat (length old_classes)) i
                                   (5 + v).
Proof.
  intros Hres Hout. unfold YOLOV3_reset_class. rewrite Hres. cbn [bind].
  assert (Hrw : forall d, rw = Some d ->
                  NoDup (map fst d)
                  /\ forall k v, (k, v) ∈ d ->
                       0 <= k < Z.of_nat (length classes)
                       /\ 0 <= v < Z.of_nat (length old_classes)).
  { intros d ->. exact (resolve_reuse_sound _ _ _ _ Hres). }
  destruct (mapM_Forall2
              (fun io : nat * YOLOOutputV3Weights =>
                 YOLOOutputV3_reset_class outside_get outside_set
                   outside_slice outside_set_slice io.2
                   (Z.of_nat (length classes)) (fresh io.1) rw)
              (fun io o' =>
                 _classes o' = Z.of_nat (length classes)
                 /\ length (prediction o') = length (fresh io.1)
                 /\ (rw = None -> prediction o' = fresh io.1)
                 /\ forall d, rw = Some d ->
                      forall (p : nat) old_a out_a,
                        prediction io.2 !! p = Some old_a ->
                        prediction o' !! p = Some out_a ->
                        (p < length (fresh io.1))%nat ->
                        rows_reused (_num_anchors io.2)
                          (Z.of_nat (length classes)) (_classes io.2) d
                          old_a out_a)
              (imap pair outputs)) as (outputs' & Hrun & Hall).
  { intros [n o] Hin. simpl.
    apply list_elem_of_lookup in Hin as [m Hm].
    apply list_lookup_imap_Some in Hm as (o0 & Ho0 & Heq).
    injection Heq as -> ->.
    destruct (Hout _ _ Ho0) as (Hc & Hnp & Hso & Hsn).
    destruct (output_reset_spec o0 (Z.of_nat (length classes)) (fresh m) rw)
      as (o' & Hr & H1 & _ & _ & H2 & H3 & H4);
      [lia | lia | exact Hnp | exact Hso | exact Hsn | |].
    { intros d Hd. destruct (Hrw d Hd) as [Hnd Hpos].
      split; [exact Hnd |]. intros k v Hkv.
      destruct (Hpos k v Hkv). lia. }
    exists o'. auto. }
  rewrite Hrun. cbn [bind]. exists outputs'.
  pose proof (Forall2_length _ _ _ Hall) as Hlen.
  rewrite length_imap in Hlen.
  split; [reflexivity | split; [lia |]].
  intros n o o' Ho Ho'.
  assert (Him : imap pair outputs !! n = Some (n, o))
    by (apply list_lookup_imap_Some; eauto).
  destruct (Forall2_lookup_l _ _ _ _ _ Hall Him) as (o'' & Ho'' & H1 & H2 & H3 & H4).
  rewrite Ho' in Ho''. injection Ho'' as <-. simpl in *.
  split; [exact H1 | split; [exact H2 | split; [exact H3 |]]].
  intros d Hd p old_a out_a i k v Hp Hp' Hlt Hi Hkv.
  destruct (Hout _ _ Ho) as (Hc & _).
  destruct (Hrw d Hd) as [_ Hpos]. destruct (Hpos k v Hkv) as [Hk Hv].
  rewrite <- Hc.
  apply (H4 d Hd p old_a out_a Hp Hp' Hlt i k v Hi Hkv); lia.
Qed.

End ResetFacts.

Definition old_output : YOLOOutputV3Weights :=
  {| _classes := 3; _num_pred := 8; _num_anchors := 2;
     prediction := [old_rows] |}.

Lemma reset_class_transfers_witness :
  exists o',
    YOLOV3_reset_class no_get no_set no_slice no_set_slice
      ["cat"; "dog"; "person"] [old_output] ["person"; "dog"]
      (fun _ => [new_rows]) (ReuseList ["person"; "dog"])
    = Ok (["person"; "dog"], [o'])
    /\ _classes o' = 2
    /\ forall out_a, prediction o' !! 0%nat = Some out_a ->
         out_a !! 5%nat = Some 107.
Proof.
  destruct (reset_class_transfers no_get no_set no_slice no_set_slice
              ["cat"; "dog"; "person"] ["person"; "dog"] [old_output]
              (fun _ => [new_rows]) (ReuseList ["person"; "dog"])
              (Some [(0, 2); (1, 1)]) eq_refl)
    as (outputs' & Hrun & Hlen & Hrows).
  { intros [| n] o Ho; [| discriminate Ho]. injection Ho as <-.
    split; [reflexivity | split; [reflexivity | split]];
      repeat constructor. }
  destruct outputs' as [| o' [| o2 rest]]; try discriminate Hlen.
  exists o'. split; [exact Hrun |].
  destruct (Hrows 0%nat old_output o' eq_refl eq_refl) as (Hc & _ & _ & Hd).
  split; [exact Hc |].
  intros out_a Hout.
  exact (Hd _ eq_refl 0%nat old_rows out_a 0 0 2 eq_refl Hout
            ltac:(simpl; lia) ltac:(simpl; lia) ltac:(left)).
Defined.

End Yolo3ResetSpec.

(** ** train_yolov3.py: [get_dataset] *)

Module TrainDataSpec.
Import Py PyFacts TrainData.

(** The names used for validation: those of training when none is
    given. *)
Definition val_names (dataset_name dataset_val_name : list string)
  : list string :=
  if (length dataset_val_name =? 0)%nat then dataset_name
  else dataset_val_name.

Definition with_mixup (mixup : bool) (d : detection_dataset)
  : detection_dataset :=
  if mixup then MixupDetection d else d.

Ltac names_cases :=
  repeat match goal with
         | |- context [named ?s ?l] => destruct (named s l)
         end.

(** The three parts of [get_dataset]: the training list, the validation
    list with the metric of its last corpus, and the choice between single
    and combined datasets. *)
Definition train_part (l : list string) : list corpus :=
  (if named "voc" l then [VOC_trainval] else [])
  ++ (if named "coco" l then [COCO_train] else [])
  ++ (if named "det" l then [DET_train] else [])
  ++ (if named "vid" l then [VID_train] else []).

Definition val_part (mult_out : bool) (window : list Z) (vn : list string)
  : result (list corpus * option metric) :=
  let vl :=
    (if named "voc" vn then [VOC_test] else [])
    ++ (if named "coco" vn then [COCO_val] else [])
    ++ (if named "det" vn then [DET_val] else []) in
  let m :=
    if named "det" vn then Some (VOCMApMetric (Dataset DET_val))
    else if named "coco" vn then Some (COCODetectionMetric COCO_val)
    else if named "voc" vn then Some (VOCMApMetric (Dataset VOC_test))
    else None in
  if named "vid" vn then
    if mult_out then
      let* w0 := index window 0 in
      Ok (vl ++ [VID_val], Some (VOCMApMetricTemporal w0 (Dataset VID_val)))
    else Ok (vl ++ [VID_val], Some (VOCMApMetric (Dataset VID_val)))
  else Ok (vl, m).

Definition finish (mixup : bool) (tl : list corpus)
    (vm : list corpus * option metric)
  : result (detection_dataset * detection_dataset * metric) :=
  let* train_dataset :=
    match tl with
    | [] => Raise NotImplementedError
    | [d] => Ok (Dataset d)
    | _ => Ok (CombinedDetection tl false)
    end in
  let* r :=
    match vm.1, vm.2 with
    | [], _ => Raise NotImplementedError
    | [d], Some m =>
        if (length tl =? 1)%nat then Ok (Dataset d, m)
        else Ok (CombinedDetection vm.1 true,
                 VOCMApMetric (CombinedDetection vm.1 true))
    | _, _ => Ok (CombinedDetection vm.1 true,
                  VOCMApMetric (CombinedDetection vm.1 true))
    end in
  Ok (with_mixup mixup train_dataset, r.1, r.2).

Lemma get_dataset_parts (mult_out mixup : bool) (window : list Z)
    (dataset_name dataset_val_name : list string) :
  get_dataset mult_out mixup window dataset_name dataset_val_name
  = let* vm := val_part mult_out window
                        (val_names dataset_name dataset_val_name) in
    finish mixup (train_part dataset_name) vm.
Proof.
  unfold get_dataset, val_names, val_part, train_part, finish, with_mixup.
  destruct (length dataset_val_name =? 0)%nat; names_cases;
    cbn -[Nat.eqb index];
    try (destruct mult_out; cbn -[Nat.eqb index]);
    try (destruct (index window 0); cbn -[Nat.eqb]);
    reflexivity.
Qed.

(** The corpora by the name [get_dataset] looks for, in the order in
    which it looks: the split used for training and the one used for
    validation. *)
Definition corpus_table : list (string * (corpus * corpus)) :=
  [("voc"%string, (VOC_trainval, VOC_test));
   ("coco"%string, (COCO_train, COCO_val));
   ("det"%string, (DET_train, DET_val));
   ("vid"%string, (VID_train, VID_val))].

Definition train_corpora (names : list string) : list corpus :=
  map (fun e : string * (corpus * corpus) => e.2.1)
      (List.filter (fun e : string * (corpus * corpus) => named e.1 names)
                   corpus_table).

Definition val_corpora (names : list string) : list corpus :=
  map (fun e : string * (corpus * corpus) => e.2.2)
      (List.filter (fun e : string * (corpus * corpus) => named e.1 names)
                   corpus_table).

(** The metric of a validation set that is a single corpus. *)
Definition single_metric (mult_out : bool) (window : list Z) (c : corpus)
  : metric :=
  match c with
  | COCO_val => COCODetectionMetric COCO_val
  | VID_val =>
      if mult_out then VOCMApMetricTemporal (hd 0 window) (Dataset VID_val)
      else VOCMApMetric (Dataset VID_val)
  | _ => VOCMApMetric (Dataset c)
  end.

(** What [get_dataset] returns for the training corpora [tl] and the
    validation corpora [vl]. *)
Definition chosen (mult_out mixup : bool) (window : list Z)
    (tl vl : list corpus)
  : result (detection_dataset * detection_dataset * metric) :=
  match tl, vl with
  | [], _ | _, [] => Raise NotImplementedError
  | [t], [v] =>
      Ok (with_mixup mixup (Dataset t), Dataset v,
          single_metric mult_out window v)
  | [t], _ =>
      Ok (with_mixup mixup (Dataset t), CombinedDetection vl true,
          VOCMApMetric (CombinedDetection vl true))
  | _, _ =>
      Ok (with_mixup mixup (CombinedDetection tl false),
          CombinedDetection vl true,
          VOCMApMetric (CombinedDetection vl true))
  end.

Lemma train_part_corpora (l : list string) :
  train_part l = train_corpora l.
Proof.
  unfold train_part, train_corpora, corpus_table. cbn [List.filter fst snd].
  names_cases; reflexivity.
Qed.

Lemma val_part_index_error (mult_out : bool) (vn : list string) :
  named "vid" vn && mult_out = true ->
  val_part mult_out [] vn = Raise IndexError.
Proof.
  unfold val_part. destruct (named "vid" vn), mult_out; try discriminate.
  reflexivity.
Qed.

Lemma val_part_finish (mult_out mixup : bool) (window : list Z)
    (vn : list string) (tl : list corpus) :
  named "vid" vn && mult_out = false \/ window <> [] ->
  (let* vm := val_part mult_out window vn in finish mixup tl vm)
  = chosen mult_out mixup window tl (val_corpora vn).
Proof.
  intros Hw. unfold val_part, val_corpora, corpus_table.
  cbn [List.filter fst snd].
  destruct (named "vid" vn) eqn:Evid.
  - destruct mult_out.
    + destruct window as [| w0 window];
        [destruct Hw as [Hw | Hw]; [discriminate Hw | contradiction] |].
      change (index (w0 :: window) 0) with (Ok (A := Z) w0). cbn [bind hd].
      names_cases; destruct tl as [| t1 [| t2 tl]]; reflexivity.
    + cbn [bind].
      names_cases; destruct tl as [| t1 [| t2 tl]]; reflexivity.
  - cbn [bind].
    names_cases; destruct tl as [| t1 [| t2 tl]]; reflexivity.
Qed.

(** X29.  [get_dataset] looks only at whether 'voc', 'coco', 'det' and
    'vid' occur among the names; the validation names are the training
    names when none is given.  With the temporal metric asked for
    ([mult_out]) on 'vid' and an empty [window] it fails with an
    [IndexError].  Otherwise the training corpora are the training splits
    of the names that occur, in the order voc, coco, det, vid, and the
    validation corpora the validation splits likewise; it raises
    [NotImplementedError] when either list is empty, and else returns:
    for training the single corpus, or the combination of all of them
    when there are several (wrapped for mixup when asked); for
    validation the single corpus with its own metric (COCO's for coco,
    the temporal VOC metric over [window[0]] frames for vid with
    [mult_out], the VOC metric otherwise) when both sides have exactly
    one corpus, and otherwise the combination of all validation corpora,
    measured with the VOC metric over the combined classes. *)
Theorem get_dataset_cases (mult_out mixup : bool) (window : list Z)
    (dataset_name dataset_val_name : list string) :
  let vn := val_names dataset_name dataset_val_name in
  let r := get_dataset mult_out mixup window dataset_name dataset_val_name in
  (named "vid" vn && mult_out = true -> window = [] -> r = Raise IndexError)
  /\ (named "vid" vn && mult_out = false \/ window <> [] ->
      r = chosen mult_out mixup window
                 (train_corpora dataset_name) (val_corpora vn)).
Proof.
  intros vn r. subst vn r. rewrite get_dataset_parts.
  set (vn := val_names dataset_name dataset_val_name).
  split.
  - intros Hv ->. now rewrite (val_part_index_error mult_out vn Hv).
  - intros Hw. rewrite train_part_corpora.
    now apply val_part_finish.
Qed.

Example get_dataset_run :
  get_dataset false false [1] ["voc"; "vid"] []
  = Ok (CombinedDetection [VOC_trainval; VID_train] false,
        CombinedDetection [VOC_test; VID_val] true,
        VOCMApMetric (CombinedDetection [VOC_test; VID_val] true))
  /\ get_dataset false false [1] ["voc"; "vid"] ["vid"]
     = Ok (CombinedDetection [VOC_trainval; VID_train] false,
           CombinedDetection [VID_val] true,
           VOCMApMetric (CombinedDetection [VID_val] true))
  /\ get_dataset false true [1] ["coco"] []
     = Ok (MixupDetection (Dataset COCO_train), Dataset COCO_val,
           COCODetectionMetric COCO_val).
Proof. repeat split. Qed.

End TrainDataSpec.
